(** * go-core-httpc: reflective RPC-over-HTTP gateway and retrying client

    A shallow embedding of the package [httpc]:
    - introspection: [getServiceInfo] (reflect.go)
    - schema synthesis: [generateSchema], [parseInt], [parseFloat],
      [updateSwaggerDoc] (swagger.go)
    - the capability record and the verbs: [MethodInfo], [isValidHTTPMethod]
    - the server: [NewServer], [RegisterService], [registerMethods],
      [handleMethod]
    - the client: [ClientConfig], [NewHTTPClient], [Call]

    Go maps ([map[string]interface{}]) are stdpp [gmap string _]; slices are
    lists; [int]/[int64] are [Z] with the 64-bit wrap-around written out;
    strings are byte strings, with [strings.ToUpper] and [strings.ToLower]
    as they act on ASCII text ([isASCII]); a Go panic is the [Panic] result
    of the [Res] monad.  Of gin, the joining and cleaning of a route's path
    ([joinPaths], [path.Join], [path.Clean]) is written out.  Library code
    the package calls but does not contain (fmt.Sscanf, gin's binding, the
    validator, gin's router, which panics on a route it refuses,
    encoding/json, net/http) enters through the classes [Fmt], [Gin] and
    [Router] and the record [World]. *)

From Stdlib Require Import ZArith Lia Ascii String List Bool.
From stdpp Require Import base strings pretty gmap list.

Set Warnings "-register-all".
Local Open Scope string_scope.

(* ===================================================================== *)
(** ** Package [strings] on ASCII strings *)
(* ===================================================================== *)

(** [strings.ToUpper] and [strings.ToLower] as they act on ASCII text:
    the letters a-z and A-Z are mapped, every other byte is kept.  On a
    string all of whose bytes are below 128 ([isASCII]) this is what Go
    returns; Go also maps letters outside ASCII (the long s to S, the
    dotless i to I), so [isASCII] is the hypothesis under which the
    functions here are Go's. *)
Definition upper_ascii (c : ascii) : ascii :=
  let n := nat_of_ascii c in
  if (97 <=? n)%nat && (n <=? 122)%nat then ascii_of_nat (n - 32) else c.

Definition lower_ascii (c : ascii) : ascii :=
  let n := nat_of_ascii c in
  if (65 <=? n)%nat && (n <=? 90)%nat then ascii_of_nat (n + 32) else c.

Fixpoint ToUpper (s : string) : string :=
  match s with
  | EmptyString => EmptyString
  | String c s' => String (upper_ascii c) (ToUpper s')
  end.

Fixpoint ToLower (s : string) : string :=
  match s with
  | EmptyString => EmptyString
  | String c s' => String (lower_ascii c) (ToLower s')
  end.


(** [strings.HasPrefix s p]. *)
Definition HasPrefix (s p : string) : bool := String.prefix p s.

(** [strings.TrimPrefix s p]. *)
Fixpoint drop_chars (n : nat) (s : string) : string :=
  match n, s with
  | O, _ => s
  | S n', String _ s' => drop_chars n' s'
  | S _, EmptyString => EmptyString
  end.

Definition TrimPrefix (s p : string) : string :=
  if HasPrefix s p then drop_chars (String.length p) s else s.

(** [strings.Contains s sub]. *)
Fixpoint Contains (s sub : string) : bool :=
  HasPrefix s sub ||
  match s with
  | EmptyString => false
  | String _ s' => Contains s' sub
  end.

(** [strings.Split s sep] for a separator of one character (the package
    only ever splits on [","]): n separators give n+1 pieces. *)
Fixpoint Split (s : string) (sep : ascii) : list string :=
  match s with
  | EmptyString => [EmptyString]
  | String c s' =>
      if Ascii.eqb c sep then EmptyString :: Split s' sep
      else match Split s' sep with
           | piece :: rest => String c piece :: rest
           | [] => [String c EmptyString]
           end
  end.

Definition comma : ascii := ","%char.

(** The one-character string holding a double quote. *)
Definition dquote : string := String (ascii_of_nat 34) EmptyString.

(* ===================================================================== *)
(** ** Package [path] *)
(* ===================================================================== *)

Module path.

(** [strings.Join(elems, "/")]. *)
Fixpoint joinElements (elems : list string) : string :=
  match elems with
  | [] => ""
  | [e] => e
  | e :: rest => e ++ "/" ++ joinElements rest
  end.

(** One path name element met by [Clean], [kept] being the elements kept
    so far, the last one first: an empty element (between two slashes)
    and [.] are dropped; [..] removes the element before it, is dropped
    at the root of a rooted path and kept otherwise. *)
Definition cleanStep (rooted : bool) (kept : list string) (elem : string)
  : list string :=
  if String.eqb elem "" || String.eqb elem "." then kept
  else if String.eqb elem ".." then
    match kept with
    | top :: below => if String.eqb top ".." then elem :: kept else below
    | [] => if rooted then [] else [elem]
    end
  else elem :: kept.

(** [path.Clean]: the shortest path name equivalent to [p]. *)
Definition Clean (p : string) : string :=
  let rooted := HasPrefix p "/" in
  let kept := fold_left (cleanStep rooted) (Split p "/"%char) [] in
  let out := (if rooted then "/" else "") ++ joinElements (rev kept) in
  if String.eqb out "" then "." else out.

(** [path.Join] of two elements: empty elements are ignored. *)
Definition Join (a b : string) : string :=
  if String.eqb a "" && String.eqb b "" then ""
  else if String.eqb a "" then Clean b
  else Clean (a ++ "/" ++ b).

End path.

(* ===================================================================== *)
(** ** Package [reflect]: kinds and types *)
(* ===================================================================== *)

Module reflect.

(** [reflect.Kind], in the order of the Go declaration. *)
Inductive Kind : Type :=
| Invalid | Bool | Int | Int8 | Int16 | Int32 | Int64
| Uint | Uint8 | Uint16 | Uint32 | Uint64 | Uintptr
| Float32 | Float64 | Complex64 | Complex128
| Array | Chan | Func | Interface | Map | Ptr | Slice
| String | Struct | UnsafePointer.

(** [Kind.String()]. *)
Definition Kind_String (k : Kind) : string :=
  match k with
  | Invalid => "invalid" | Bool => "bool" | Int => "int" | Int8 => "int8"
  | Int16 => "int16" | Int32 => "int32" | Int64 => "int64"
  | Uint => "uint" | Uint8 => "uint8" | Uint16 => "uint16"
  | Uint32 => "uint32" | Uint64 => "uint64" | Uintptr => "uintptr"
  | Float32 => "float32" | Float64 => "float64"
  | Complex64 => "complex64" | Complex128 => "complex128"
  | Array => "array" | Chan => "chan" | Func => "func"
  | Interface => "interface" | Map => "map" | Ptr => "ptr"
  | Slice => "slice" | String => "string" | Struct => "struct"
  | UnsafePointer => "unsafe.Pointer"
  end.

Definition Kind_eqb (a b : Kind) : bool :=
  String.eqb (Kind_String a) (Kind_String b).

End reflect.

(** A [reflect.Type].  [TScalar k name] is any type that is neither a
    struct nor a pointer ([k] is its kind, [name] tells types of one
    kind apart: ["string"], ["error"], ["[]httpc.MethodInfo"]); only
    [TStruct] has kind [Struct] and only [TPtr] kind [Ptr].  A struct
    field carries the two tag keys the package reads. *)
Inductive GoType : Type :=
| TScalar (k : reflect.Kind) (name : string)
| TPtr (elem : GoType)
| TStruct (name : string) (fields : list StructField)
with StructField : Type :=
| mkField (Name : string) (Type_ : GoType) (Tag_json Tag_validate : string).

Definition TypeKind (t : GoType) : reflect.Kind :=
  match t with
  | TScalar reflect.Ptr _ | TScalar reflect.Struct _ => reflect.Invalid
  | TScalar k _ => k
  | TPtr _ => reflect.Ptr
  | TStruct _ _ => reflect.Struct
  end.

Definition field_Type (f : StructField) : GoType :=
  match f with mkField _ t _ _ => t end.
Definition field_json (f : StructField) : string :=
  match f with mkField _ _ j _ => j end.
Definition field_validate (f : StructField) : string :=
  match f with mkField _ _ _ v => v end.

(** Identity of types ([==] on [reflect.Type]). *)
Fixpoint GoType_eqb (a b : GoType) : bool :=
  match a, b with
  | TScalar k n, TScalar k' n' => reflect.Kind_eqb k k' && String.eqb n n'
  | TPtr e, TPtr e' => GoType_eqb e e'
  | TStruct n fs, TStruct n' fs' =>
      String.eqb n n' &&
      (fix fields_eqb (l l' : list StructField) : bool :=
         match l, l' with
         | [], [] => true
         | mkField fn ft fj fv :: r, mkField fn' ft' fj' fv' :: r' =>
             String.eqb fn fn' && GoType_eqb ft ft' &&
             String.eqb fj fj' && String.eqb fv fv' && fields_eqb r r'
         | _, _ => false
         end) fs fs'
  | _, _ => false
  end.

Definition stringType : GoType := TScalar reflect.String "string".
Definition intType : GoType := TScalar reflect.Int "int".
Definition boolType : GoType := TScalar reflect.Bool "bool".
Definition float64Type : GoType := TScalar reflect.Float64 "float64".
(** [reflect.TypeOf(( *error)(nil)).Elem()] *)
Definition errorType : GoType := TScalar reflect.Interface "error".
(** [reflect.TypeOf([]MethodInfo{})] *)
Definition methodInfoSliceType : GoType := TScalar reflect.Slice "[]httpc.MethodInfo".

(** A Go panic aborts the function; [Res] threads it. *)
Inductive PanicReason : Type :=
| NilType          (* method call on a nil reflect.Type *)
| CallOnZeroValue  (* reflect: call of reflect.Value.Call on zero Value *)
| CallArity        (* reflect: Call with too few/many input arguments,
                      or results[1] out of range *)
| CallArgType      (* reflect: Call using T as type U *)
| BadAssertion     (* interface conversion on a failed type assertion *)
| RouteRefused.    (* gin: the router panics when the route is added *)

Inductive Res (A : Type) : Type :=
| Ok (a : A)
| Panic (why : PanicReason).
Arguments Ok {A} a.
Arguments Panic {A} why.

#[global] Instance Res_ret : MRet Res := fun A a => Ok a.
#[global] Instance Res_bind : MBind Res := fun A B k r =>
  match r with
  | Ok a => k a
  | Panic why => Panic why
  end.

(* ===================================================================== *)
(** ** swagger.go: schema synthesis *)
(* ===================================================================== *)

(** [fmt.Sscanf] with the verbs ["%d"] and ["%f"], and [float64]:
    [Sscanf_d s = Some n] when the call returns [err == nil]. *)
Class Fmt : Type := {
  float64 : Type;
  float64_of_int : Z → float64;
  Sscanf_d : string → option Z;
  Sscanf_f : string → option float64;
}.

(** [interface{}] as it occurs in the schema document. *)
Inductive any `{Fmt} : Type :=
| AString (s : string)
| ABool (b : bool)
| AFloat64 (x : float64)
| AStrings (l : list string)             (* []string *)
| AMaps (l : list (gmap string any))     (* []map[string]interface{} *)
| AMap (m : gmap string any).            (* map[string]interface{} *)

Section Swagger.
Context `{Fmt}.

Definition parseInt (s : string) : option Z := Sscanf_d s.
Definition parseFloat (s : string) : option float64 := Sscanf_f s.

(** The block the source repeats for every rule:
    [if strings.Contains(validateTag, key) { for _, part := range
     strings.Split(validateTag, ",") { if strings.HasPrefix(part, key) {
     if v, err := parse(strings.TrimPrefix(part, key)); err == nil {
     fieldSchema[prop] = conv(v) }}}}] *)
Definition apply_rule {V : Type} (validateTag key : string)
    (parse : string → option V) (prop : string) (conv : V → any)
    (fieldSchema : gmap string any) : gmap string any :=
  if Contains validateTag key then
    fold_left
      (fun fs part =>
         if HasPrefix part key then
           match parse (TrimPrefix part key) with
           | Some v => <[prop := conv v]> fs
           | None => fs
           end
         else fs)
      (Split validateTag comma) fieldSchema
  else fieldSchema.

Definition int_to_any (n : Z) : any := AFloat64 (float64_of_int n).

(** The [switch field.Type.Kind()] of [generateSchema], the struct case
    apart (it recurses). *)
Definition scalarFieldSchema (k : reflect.Kind) (validateTag : string)
  : gmap string any :=
  match k with
  | reflect.String =>
      let fs := <["type" := AString "string"]> ∅ in
      let fs := apply_rule validateTag "min=" parseInt "minLength" int_to_any fs in
      let fs := apply_rule validateTag "max=" parseInt "maxLength" int_to_any fs in
      if Contains validateTag "email" then <["format" := AString "email"]> fs else fs
  | reflect.Int | reflect.Int32 | reflect.Int64 =>
      let fs := <["type" := AString "integer"]> ∅ in
      let fs := apply_rule validateTag "gte=" parseInt "minimum" int_to_any fs in
      apply_rule validateTag "lte=" parseInt "maximum" int_to_any fs
  | reflect.Float32 | reflect.Float64 =>
      let fs := <["type" := AString "number"]> ∅ in
      apply_rule validateTag "gte=" parseFloat "minimum" AFloat64 fs
  | _ => ∅
  end.

(** State of the field loop: the [properties] map and the [required] slice. *)
Definition schemaOf (properties : gmap string any) (required : list string)
  : gmap string any :=
  let schema := <["type" := AString "object"]> (<["properties" := AMap properties]> ∅) in
  match required with
  | [] => schema
  | _ => <["required" := AStrings required]> schema
  end.

(** One iteration of the field loop, given what [generateSchema] returns
    for the field's type when that is a struct. *)
Definition fieldStep (nested : GoType → gmap string any) (f : StructField)
    (st : gmap string any * list string) : gmap string any * list string :=
  let '(properties, required) := st in
  let jsonTag := field_json f in
  if String.eqb jsonTag "" || String.eqb jsonTag "-" then st
  else
    let jsonName := hd "" (Split jsonTag comma) in
    let validateTag := field_validate f in
    let fieldSchema :=
      match TypeKind (field_Type f) with
      | reflect.Struct => nested (field_Type f)
      | k => scalarFieldSchema k validateTag
      end in
    let required :=
      if Contains validateTag "required" then (required ++ [jsonName])%list
      else required in
    (<[jsonName := AMap fieldSchema]> properties, required).

(** [generateSchema] after its pointer step ([t] is no longer
    dereferenced); the recursive call of the source, on a field of struct
    kind, lands here because its pointer step does nothing on a struct. *)
Fixpoint schemaAfterDeref (t : GoType) : gmap string any :=
  match t with
  | TStruct _ fields =>
      let '(properties, required) :=
        (fix loop (fs : list StructField) (st : gmap string any * list string) :=
           match fs with
           | [] => st
           | f :: rest => loop rest (fieldStep schemaAfterDeref f st)
           end) fields (∅, []) in
      schemaOf properties required
  | _ => <["type" := AString (reflect.Kind_String (TypeKind t))]> ∅
  end.

Definition generateSchema (t : GoType) : gmap string any :=
  let t := match t with TPtr e => e | _ => t end in
  schemaAfterDeref t.

(** Read-outs of the loop, for the theorems: a field has a serialized
    name when its [json] tag is neither empty nor ["-"], and the name is
    the tag up to its first comma; the node written under that name; and
    the loop as a fold. *)
Definition serialized (f : StructField) : bool :=
  negb (String.eqb (field_json f) "" || String.eqb (field_json f) "-").

Definition fieldName (f : StructField) : string :=
  hd "" (Split (field_json f) comma).

Definition fieldNode (f : StructField) : gmap string any :=
  match TypeKind (field_Type f) with
  | reflect.Struct => generateSchema (field_Type f)
  | k => scalarFieldSchema k (field_validate f)
  end.

Definition fieldsLoop (fields : list StructField)
    (st : gmap string any * list string) : gmap string any * list string :=
  fold_left (fun st f => fieldStep schemaAfterDeref f st) fields st.

End Swagger.

(* ===================================================================== *)
(** ** Package [reflect]: values and calls *)
(* ===================================================================== *)

(** A Go value as reflection sees it.  [VPtr v] is a pointer to a variable
    that holds [v] (what [reflect.New(t).Interface()] is once the variable
    has been filled); [VOther] is a value of any other type. *)
Inductive Value : Type :=
| VString (s : string)
| VInt (n : Z)
| VBool (b : bool)
| VStruct (t : GoType) (fields : list Value)
| VPtr (v : Value)
| VOther (t : GoType) (repr : string).

(** [reflect.TypeOf] *)
Fixpoint TypeOf (v : Value) : GoType :=
  match v with
  | VString _ => stringType
  | VInt _ => intType
  | VBool _ => boolType
  | VStruct t _ => t
  | VPtr v => TPtr (TypeOf v)
  | VOther t _ => t
  end.

(** A function of one input and the two outputs (value, error):
    [fn_Call] is its body, the [error] output being [None] for [nil]. *)
Record Callable : Type := {
  fn_In : GoType;
  fn_Call : Value → Value * option string;
}.

(** The [reflect.Value] kept in [MethodInfo.Func]: the zero Value, a
    function value with its receiver bound ([reflect.ValueOf(s).MethodByName],
    [reflect.ValueOf(s.Create)]), or the [Func] of a [reflect.Method], which
    takes the receiver as its first input. *)
Inductive FuncValue : Type :=
| ZeroValue
| BoundFunc (c : Callable)
| MethodFunc (recv : GoType) (c : Callable)
| OtherFunc.      (* a function of any other shape, as [func() string] *)

(** [f.Call([]reflect.Value{arg})] *)
Definition Value_Call (f : FuncValue) (arg : Value) : Res (Value * option string) :=
  match f with
  | ZeroValue => Panic CallOnZeroValue
  | MethodFunc _ _ | OtherFunc => Panic CallArity
  | BoundFunc c =>
      if GoType_eqb (TypeOf arg) (fn_In c) then Ok (fn_Call c arg)
      else Panic CallArgType
  end.

(* ===================================================================== *)
(** ** The capability record and the verbs *)
(* ===================================================================== *)

Record MethodInfo : Type := {
  Name : string;
  HTTPMethod : string;
  InputType : option GoType;    (* a reflect.Type; None is the nil interface *)
  OutputType : option GoType;
  Func : FuncValue;
}.

Record serviceConfig : Type := { prefix : string }.

Definition ServiceOption : Type := serviceConfig → serviceConfig.

Definition WithPathPrefix (p : string) : ServiceOption :=
  fun _ => {| prefix := p |}.

Definition validMethods : list string :=
  ["GET"; "POST"; "PUT"; "DELETE"; "PATCH"; "OPTIONS"; "HEAD"].

Definition isValidHTTPMethod (method : string) : bool :=
  existsb (fun valid => String.eqb (ToUpper method) valid) validMethods.

(* ===================================================================== *)
(** ** Errors *)
(* ===================================================================== *)

(** The errors the package builds with [fmt.Errorf]; [Error] is the
    message.  [%w]-wrapped library errors keep their message. *)
Inductive error : Type :=
| ErrServiceNil
| ErrNoRegisterMethods
| ErrRegisterMethodsSignature
| ErrUnexpectedResults
| ErrNotMethodInfoSlice
| ErrEmptyNameOrMethod
| ErrMethodNotFound (name : string)
| ErrInvalidSignature (name : string)
| ErrNoMethods
| ErrGetServiceInfo (cause : error)
| ErrInvalidHTTPMethod (method : string)
| ErrMarshalInput (cause : string)
| ErrCreateRequest (cause : string)
| ErrRequestFailed (cause : string)
| ErrReadBody (cause : string)
| ErrUnmarshalResponse (cause : string)
| ErrStatus (code : Z) (message : string)
| ErrAllRetriesFailed.

Fixpoint Error (e : error) : string :=
  match e with
  | ErrServiceNil => "service cannot be nil"
  | ErrNoRegisterMethods => "no RegisterMethods method found"
  | ErrRegisterMethodsSignature => "invalid RegisterMethods signature"
  | ErrUnexpectedResults => "RegisterMethods returned unexpected results"
  | ErrNotMethodInfoSlice => "RegisterMethods did not return []MethodInfo"
  | ErrEmptyNameOrMethod => "invalid MethodInfo: Name or HTTPMethod is empty"
  | ErrMethodNotFound name => "method " ++ name ++ " not found"
  | ErrInvalidSignature name => "invalid signature for method " ++ name
  | ErrNoMethods => "no methods defined for service"
  | ErrGetServiceInfo cause => "failed to get service info: " ++ Error cause
  | ErrInvalidHTTPMethod method => "invalid HTTP method: " ++ method
  | ErrMarshalInput cause => "failed to marshal input: " ++ cause
  | ErrCreateRequest cause => "failed to create request: " ++ cause
  | ErrRequestFailed cause => "request failed: " ++ cause
  | ErrReadBody cause => "failed to read response body: " ++ cause
  | ErrUnmarshalResponse cause => "failed to unmarshal response: " ++ cause
  | ErrStatus code message =>
      "request failed with status " ++ pretty code ++ ": " ++ message
  | ErrAllRetriesFailed => "all retry attempts failed"
  end.

(* ===================================================================== *)
(** ** reflect.go: introspection *)
(* ===================================================================== *)

(** A [reflect.Method] of the service's type: [meth_In] counts the
    receiver, as [Type.NumIn()] does. *)
Record Method : Type := {
  meth_Name : string;
  meth_In : list GoType;
  meth_Out : list GoType;
  meth_Func : FuncValue;
}.

(** A non-nil service: the method set of its type, and the slice its
    [RegisterMethods] returns when called on it. *)
Record ServiceValue : Type := {
  MethodSet : list Method;
  RegisterMethods : list MethodInfo;
}.

(** [service interface{}]; [None] is nil. *)
Definition Service : Type := option ServiceValue.

Definition MethodByName (ms : list Method) (name : string) : option Method :=
  find (fun m => String.eqb (meth_Name m) name) ms.

Definition set_Func (m : MethodInfo) (f : FuncValue) : MethodInfo :=
  {| Name := Name m; HTTPMethod := HTTPMethod m; InputType := InputType m;
     OutputType := OutputType m; Func := f |}.

(** [meth.Type.NumIn() != 2 || meth.Type.NumOut() != 2 ||
     meth.Type.Out(1) != reflect.TypeOf(( *error)(nil)).Elem()] *)
Definition badSignature (meth : Method) : bool :=
  negb (Nat.eqb (length (meth_In meth)) 2)
  || negb (Nat.eqb (length (meth_Out meth)) 2)
  || match nth_error (meth_Out meth) 1 with
     | Some t => negb (GoType_eqb t errorType)
     | None => true
     end.

(** The body of [for _, method := range methods]: the error it returns
    with, or the loop variable [method] as the body leaves it (after
    [method.Func = meth.Func]). *)
Definition checkMethod (ms : list Method) (method : MethodInfo) : error + MethodInfo :=
  if String.eqb (Name method) "" || String.eqb (HTTPMethod method) "" then
    inl ErrEmptyNameOrMethod
  else
    match MethodByName ms (Name method) with
    | None => inl (ErrMethodNotFound (Name method))
    | Some meth =>
        if badSignature meth then inl (ErrInvalidSignature (Name method))
        else inr (set_Func method (meth_Func meth))
    end.

(** The loop: [method] is a copy of the slice element, so what the body
    assigns to it is gone when the iteration ends. *)
Fixpoint checkMethods (ms : list Method) (methods : list MethodInfo) : option error :=
  match methods with
  | [] => None
  | method :: rest =>
      match checkMethod ms method with
      | inl err => Some err
      | inr _ => checkMethods ms rest
      end
  end.

(** [getServiceInfo]: [inl err] is [(nil, err)], [inr methods] is
    [(methods, nil)]. *)
Definition getServiceInfo (service : Service) : error + list MethodInfo :=
  match service with
  | None => inl ErrServiceNil
  | Some svc =>
      match MethodByName (MethodSet svc) "RegisterMethods" with
      | None => inl ErrNoRegisterMethods
      | Some registerMethod =>
          if negb (Nat.eqb (length (meth_In registerMethod)) 1)
             || negb (Nat.eqb (length (meth_Out registerMethod)) 1)
             || match nth_error (meth_Out registerMethod) 0 with
                | Some t => negb (GoType_eqb t methodInfoSliceType)
                | None => true
                end
          then inl ErrRegisterMethodsSignature
          else
            (* results has one element of type []MethodInfo: the two
               checks on it cannot fail *)
            let methods := RegisterMethods svc in
            match checkMethods (MethodSet svc) methods with
            | Some err => inl err
            | None =>
                if Nat.eqb (length methods) 0 then inl ErrNoMethods
                else inr methods
            end
      end
  end.

(* ===================================================================== *)
(** ** The server *)
(* ===================================================================== *)

(** What a route of the gin engine is bound to. *)
Inductive Handler : Type :=
| healthHandler
| swaggerJSONHandler
| swaggerUIHandler
| methodHandler (m : MethodInfo).     (* s.handleMethod(m) *)

Record Route : Type := {
  route_method : string;
  route_path : string;
  route_handler : Handler;
}.

(** gin's [joinPaths(absolutePath, relativePath)]: the path a route is
    bound under, from the group's base path and the path handed to
    [GET] or [Handle]. *)
Definition lastChar (s : string) : option ascii :=
  last (list_ascii_of_string s).

Definition joinPaths (absolutePath relativePath : string) : string :=
  if String.eqb relativePath "" then absolutePath
  else
    let finalPath := path.Join absolutePath relativePath in
    if bool_decide (lastChar relativePath = Some "/"%char)
       && negb (bool_decide (lastChar finalPath = Some "/"%char))
    then finalPath ++ "/"
    else finalPath.

(** gin's router, which the package does not contain: [addRoute_panics
    routes method path] tells whether adding [path] under [method] panics
    on an engine to which [routes] have been added (a path that is
    already bound under that method, a conflict of wildcards). *)
Class Router : Type := {
  addRoute_panics : list Route → string → string → bool;
}.

(** [engine.GET(relativePath, h)] and [engine.Handle(httpMethod,
    relativePath, h)] on the engine itself, whose base path is ["/"]: the
    route is added under the joined path, or the router panics. *)
Definition Handle `{Router} (routes : list Route) (httpMethod relativePath : string)
    (h : Handler) : Res (list Route) :=
  let absolutePath := joinPaths "/" relativePath in
  if addRoute_panics routes httpMethod absolutePath then Panic RouteRefused
  else Ok (routes ++ [ {| route_method := httpMethod; route_path := absolutePath;
                          route_handler := h |} ])%list.

Section Server.
Context `{Fmt} `{Router}.

(** [Server]: the routes bound on [engine], in the order they were bound,
    and the [swagger] document. *)
Record Server : Type := {
  engine : list Route;
  swagger : gmap string any;
}.

Definition emptySwagger : gmap string any :=
  <["openapi" := AString "3.0.3"]>
  (<["info" := AMap (<["title" := AString "httpc API"]>
                     (<["version" := AString "1.0.0"]> ∅))]>
  (<["paths" := AMap ∅]> ∅)).

Definition NewServer : Server :=
  {| engine := [ {| route_method := "GET"; route_path := "/health";
                    route_handler := healthHandler |};
                 {| route_method := "GET"; route_path := "/api/docs/swagger.json";
                    route_handler := swaggerJSONHandler |};
                 {| route_method := "GET"; route_path := "/api/docs/index.html";
                    route_handler := swaggerUIHandler |} ];
     swagger := emptySwagger |}.

(** [{"type": "object", "properties": {"error": {"type": "string"}}}]
    under [description], as the 400 and 500 responses have it. *)
Definition errorResponse (description : string) : any :=
  AMap (<["description" := AString description]>
       (<["content" := AMap (<["application/json" := AMap (<["schema" :=
           AMap (<["type" := AString "object"]>
                (<["properties" := AMap (<["error" :=
                    AMap (<["type" := AString "string"]> ∅)]> ∅)]> ∅))]> ∅)]> ∅)]> ∅)).

(** The [operation] literal of [updateSwaggerDoc]; [outKind] is
    [method.OutputType.Kind()]. *)
Definition operationBase (method : MethodInfo) (outKind : reflect.Kind)
  : gmap string any :=
  <["operationId" := AString (Name method)]>
  (<["responses" := AMap (
      <["200" := AMap (<["description" := AString "Successful response"]>
                 (<["content" := AMap (<["application/json" := AMap (<["schema" :=
                     AMap (<["type" := AString (reflect.Kind_String outKind)]> ∅)]> ∅)]> ∅)]> ∅))]>
     (<["400" := errorResponse "Bad request"]>
     (<["500" := errorResponse "Internal server error"]> ∅)))]>
  (<["summary" := AString (Name method)]> ∅)).

Definition nameParameter : gmap string any :=
  <["name" := AString "name"]>
  (<["in" := AString "query"]>
  (<["required" := ABool false]>
  (<["schema" := AMap (<["type" := AString "string"]> ∅)]> ∅))).

Definition requestBody (schema : gmap string any) : any :=
  AMap (<["content" := AMap (<["application/json" :=
            AMap (<["schema" := AMap schema]> ∅)]> ∅)]>
       (<["required" := ABool true]> ∅)).

(** [prefix + "/" + method.Name], with ["/"] put in front when it does
    not start with one. *)
Definition swaggerPath (prefix : string) (method : MethodInfo) : string :=
  let path := prefix ++ "/" ++ Name method in
  if HasPrefix path "/" then path else "/" ++ path.

(** The operation object written for [method]; a nil [OutputType], or a
    nil [InputType] on a verb other than ["GET"], panics. *)
Definition operationOf (method : MethodInfo) : Res (gmap string any) :=
  outT ← match OutputType method with
         | Some t => Ok t
         | None => Panic NilType
         end;
  let operation := operationBase method (TypeKind outT) in
  if String.eqb (HTTPMethod method) "GET" then
    Ok (<["parameters" := AMaps [nameParameter]]> operation)
  else
    inT ← match InputType method with
          | Some t => Ok t
          | None => Panic NilType
          end;
    Ok (<["requestBody" := requestBody (generateSchema inT)]> operation).

(** One iteration of [for _, method := range info] over the [paths] map. *)
Definition swaggerStep (prefix : string) (paths : gmap string any)
    (method : MethodInfo) : Res (gmap string any) :=
  if negb (isValidHTTPMethod (HTTPMethod method)) then Ok paths
  else
    let path := swaggerPath prefix method in
    pathItem ← match paths !! path with
               | None => Ok ∅
               | Some (AMap existing) => Ok existing
               | Some _ => Panic BadAssertion
               end;
    operation ← operationOf method;
    Ok (<[path := AMap (<[ToLower (HTTPMethod method) := AMap operation]> pathItem)]> paths).

Fixpoint swaggerLoop (prefix : string) (paths : gmap string any)
    (info : list MethodInfo) : Res (gmap string any) :=
  match info with
  | [] => Ok paths
  | method :: rest =>
      paths ← swaggerStep prefix paths method;
      swaggerLoop prefix paths rest
  end.

(** [updateSwaggerDoc] on a non-nil server: the server afterwards and
    the error returned. *)
Definition updateSwaggerDoc (s : Server) (service : Service) (prefix : string)
  : Res (Server * option error) :=
  let doc :=
    match swagger s !! "openapi", swagger s !! "info" with
    | Some _, Some _ => swagger s
    | _, _ => emptySwagger
    end in
  match getServiceInfo service with
  | inl err => Ok ({| engine := engine s; swagger := doc |}, Some err)
  | inr info =>
      paths ← match doc !! "paths" with
              | Some (AMap paths) => Ok paths
              | _ => Panic BadAssertion
              end;
      paths ← swaggerLoop prefix paths info;
      Ok ({| engine := engine s; swagger := <["paths" := AMap paths]> doc |}, None)
  end.

(** The calls of [engine.GET] and [engine.Handle] the switch of
    [registerMethods] makes for one [MethodInfo], as the arguments of the
    call: the verb, the path [fmt.Sprintf("%s/%s", cfg.prefix, m.Name)]
    as it is handed over ([route_path] here is that relative path, not
    yet the path the route is bound under) and the handler; none in the
    [default] case. *)
Definition routeOf (cfg : serviceConfig) (m : MethodInfo) : list Route :=
  let path := prefix cfg ++ "/" ++ Name m in
  let verb := ToUpper (HTTPMethod m) in
  if String.eqb verb "GET" then
    [ {| route_method := "GET"; route_path := path; route_handler := methodHandler m |} ]
  else if existsb (String.eqb verb) ["POST"; "PUT"; "DELETE"; "PATCH"; "OPTIONS"; "HEAD"] then
    [ {| route_method := verb; route_path := path; route_handler := methodHandler m |} ]
  else [].

(** The calls made one after the other on the engine; a panic of the
    router ends everything. *)
Fixpoint bindCalls (routes : list Route) (calls : list Route) : Res (list Route) :=
  match calls with
  | [] => Ok routes
  | call :: rest =>
      routes ← Handle routes (route_method call) (route_path call) (route_handler call);
      bindCalls routes rest
  end.

(** The first loop of [registerMethods]. *)
Fixpoint bindRoutes (cfg : serviceConfig) (routes : list Route)
    (methods : list MethodInfo) : Res (list Route) :=
  match methods with
  | [] => Ok routes
  | m :: rest =>
      routes ← bindCalls routes (routeOf cfg m);
      bindRoutes cfg routes rest
  end.

(** [registerMethods]: an error of [updateSwaggerDoc] is logged and
    dropped, the return value is always nil. *)
Definition registerMethods (s : Server) (methods : list MethodInfo)
    (cfg : serviceConfig) (svc : Service) : Res (Server * option error) :=
  routes ← bindRoutes cfg (engine s) methods;
  let s := {| engine := routes; swagger := swagger s |} in
  s ← (if Nat.ltb 0 (length methods) then
         r ← updateSwaggerDoc s svc (prefix cfg); Ok (fst r)
       else Ok s);
  Ok (s, None).

Definition RegisterService (s : Server) (svc : Service) (opts : list ServiceOption)
  : Res (Server * option error) :=
  let cfg := fold_left (fun cfg opt => opt cfg) opts {| prefix := "/" |} in
  match getServiceInfo svc with
  | inl err => Ok (s, Some (ErrGetServiceInfo err))
  | inr info => registerMethods s info cfg svc
  end.

End Server.

(** An HTTP request as the dispatcher reads it: the URL's query values
    and the body. *)
Record Request : Type := {
  req_query : gmap string (list string);
  req_body : string;
}.

(** [c.Query(key)]: the first value of [key], [""] when there is none. *)
Definition Query (c : Request) (key : string) : string :=
  match req_query c !! key with
  | Some (v :: _) => v
  | _ => ""
  end.

(** What the handler hands to gin: [c.JSON(code, obj)] with [obj] a
    [gin.H] of strings or a Go value, rendered by gin's JSON encoder, or
    [c.Data(code, contentType, bytes)] with the bytes as they are. *)
Inductive ResponseBody : Type :=
| JSON_H (h : gmap string string)
| JSON_Value (v : Value)
| Data (contentType : string) (bytes : string).

Record Response : Type := {
  Status : Z;
  Body : ResponseBody;
}.

(** gin's binding and the validator: [ShouldBindJSON c t] and
    [ShouldBindQuery c t] decode the request into a fresh variable of type
    [t] and give its content, or the error; [validate_Struct] is
    [validator.New().Struct]. *)
Class Gin : Type := {
  ShouldBindJSON : Request → GoType → string + Value;
  ShouldBindQuery : Request → GoType → string + Value;
  validate_Struct : Value → option string;
}.

Section Dispatcher.
Context `{Gin}.

Definition StatusOK : Z := 200.
Definition StatusBadRequest : Z := 400.
Definition StatusInternalServerError : Z := 500.

Definition errorJSON (code : Z) (message : string) : Response :=
  {| Status := code; Body := JSON_H (<["error" := message]> ∅) |}.

(** The first half of the handler: [inl] is the response it returns
    early with, [inr] the [inputVal] it goes on with. *)
Definition decodeInput (m : MethodInfo) (inputType : GoType) (c : Request)
  : Response + Value :=
  match TypeKind inputType with
  | reflect.String =>
      if String.eqb (HTTPMethod m) "GET" then inr (VString (Query c "name"))
      else
        match ShouldBindJSON c inputType with
        | inl err => inl (errorJSON StatusBadRequest err)
        | inr v => inr (VPtr v)
        end
  | _ =>
      match (if String.eqb (HTTPMethod m) "GET" then ShouldBindQuery c inputType
             else ShouldBindJSON c inputType) with
      | inl err => inl (errorJSON StatusBadRequest err)
      | inr v =>
          let inputVal := VPtr v in
          match validate_Struct inputVal with
          | Some err => inl (errorJSON StatusBadRequest ("validation failed: " ++ err))
          | None => inr inputVal
          end
      end
  end.

(** [reflect.ValueOf(inputVal)] for a string input,
    [reflect.ValueOf(inputVal).Elem()] otherwise. *)
Definition callInputOf (inputType : GoType) (inputVal : Value) : Value :=
  match TypeKind inputType with
  | reflect.String => inputVal
  | _ => match inputVal with VPtr v => v | v => v end
  end.

(** The end of the handler, on the [results] of the call: with a
    non-nil second result, status 500 and the bytes obtained by putting
    the error's message between the two literal halves of an object with
    the one member [error]; else the first result as JSON under 200. *)
Definition respond (results : Value * option string) : Response :=
  match snd results with
  | Some err =>
      {| Status := StatusInternalServerError;
         Body := Data "application/json"
                   ("{" ++ dquote ++ "error" ++ dquote ++ ":" ++ dquote
                    ++ err ++ dquote ++ "}") |}
  | None => {| Status := StatusOK; Body := JSON_Value (fst results) |}
  end.

(** The function [handleMethod(m)] returns, run on a request. *)
Definition handleMethod (m : MethodInfo) (c : Request) : Res Response :=
  inputType ← match InputType m with
              | Some t => Ok t
              | None => Panic NilType
              end;
  match decodeInput m inputType c with
  | inl response => Ok response
  | inr inputVal =>
      let callInput := callInputOf inputType inputVal in
      results ← Value_Call (Func m) callInput;
      Ok (respond results)
  end.

End Dispatcher.

(* ===================================================================== *)
(** ** The client *)
(* ===================================================================== *)

Local Open Scope Z_scope.

(** Go's [int] and [int64] (64 bits, two's complement). *)
Definition wrap64 (z : Z) : Z := (z + 2 ^ 63) mod 2 ^ 64 - 2 ^ 63.

Record ClientConfig : Type := {
  OtelEnabled : bool;
  TimeoutMs : Z;
  MaxRetries : Z;
  BackoffBaseMs : Z;
  BackoffMaxMs : Z;
  BackoffFactor : Z;
  DisableBackoff : bool;
}.

(** The [validate] tags of [ClientConfig]. *)
Definition validClientConfig (cfg : ClientConfig) : bool :=
  (100 <=? TimeoutMs cfg) && (TimeoutMs cfg <=? 30000)
  && (0 <=? MaxRetries cfg) && (MaxRetries cfg <=? 5)
  && (50 <=? BackoffBaseMs cfg) && (BackoffBaseMs cfg <=? 1000)
  && (100 <=? BackoffMaxMs cfg) && (BackoffMaxMs cfg <=? 5000)
  && (1 <=? BackoffFactor cfg) && (BackoffFactor cfg <=? 5).

(** A value of a [config.Config]. *)
Inductive ConfigValue : Type :=
| CInt (n : Z)
| CBool (b : bool)
| CString (s : string).

Definition getIntConfig (c : gmap string ConfigValue) (key : string)
    (defaultValue : Z) : Z :=
  match c !! key with
  | Some (CInt intVal) => intVal
  | _ => defaultValue
  end.

Definition getBoolConfig (c : gmap string ConfigValue) (key : string)
    (defaultValue : bool) : bool :=
  match c !! key with
  | Some (CBool boolVal) => boolVal
  | _ => defaultValue
  end.

Record HTTPClient : Type := { config : ClientConfig }.

Definition NewHTTPClient (c : gmap string ConfigValue) : option HTTPClient :=
  let cfg :=
    {| OtelEnabled := getBoolConfig c "otel_enabled" false;
       TimeoutMs := getIntConfig c "http_client_timeout_ms" 3000;
       MaxRetries := getIntConfig c "http_client_max_retries" 3;
       BackoffBaseMs := getIntConfig c "http_client_backoff_base_ms" 100;
       BackoffMaxMs := getIntConfig c "http_client_backoff_max_ms" 1000;
       BackoffFactor := getIntConfig c "http_client_backoff_factor" 2;
       DisableBackoff := getBoolConfig c "http_client_disable_backoff" false |} in
  if validClientConfig cfg then Some {| config := cfg |} else None.

(** What [h.client.Do(req)] gives: an error, or a response with its
    status code and what [io.ReadAll(resp.Body)] returns. *)
Inductive RoundTrip : Type :=
| TransportError (err : string)
| HTTPResponse (StatusCode : Z) (bodyBytes : string) (readErr : option string).

(** What a call meets outside the package: encoding/json on the input,
    on the output destination and on the error body
    ([Unmarshal_map b = Some m] when decoding [b] into a
    [map[string]string] returns no error), [http.NewRequestWithContext]
    ([Some err] when it fails), and the network, by attempt number. *)
Record World : Type := {
  Marshal : Value → string + string;
  Unmarshal : string → GoType → string + Value;
  Unmarshal_map : string → option (gmap string string);
  NewRequest : string → string → option string;
  Do : Z → RoundTrip;
}.

(** What a call does that can be seen from outside, in order. *)
Inductive Event : Type :=
| EvMarshal                                (* json.Marshal(input) *)
| EvSend (attempt : Z) (body : option string)   (* h.client.Do(req) *)
| EvSleep (ms : Z).                        (* time.Sleep(ms * time.Millisecond) *)

Record CallResult : Type := {
  trace : list Event;
  err : option error;
  decoded : option Value;     (* what was stored through [output] *)
}.

Definition finish (e : option error) (v : option Value) : CallResult :=
  {| trace := []; err := e; decoded := v |}.

Definition after (ev : Event) (r : CallResult) : CallResult :=
  {| trace := ev :: trace r; err := err r; decoded := decoded r |}.

(** [backoff := h.config.BackoffBaseMs * int64(1<<uint(attempt-1))],
    capped at [BackoffMaxMs]. *)
Definition backoffDelay (cfg : ClientConfig) (attempt : Z) : Z :=
  let backoff := wrap64 (BackoffBaseMs cfg * wrap64 (Z.shiftl 1 (attempt - 1))) in
  if backoff >? BackoffMaxMs cfg then BackoffMaxMs cfg else backoff.

(** The error returned for a response that ends the call. *)
Definition statusError (w : World) (code : Z) (bodyBytes : string) : error :=
  let unknown := ErrStatus code "unknown error" in
  if (0 <? String.length bodyBytes)%nat then
    match Unmarshal_map w bodyBytes with
    | Some errResp =>
        let message := default "" (errResp !! "error"%string) in
        if negb (String.eqb message "") then ErrStatus code message else unknown
    | None => unknown
    end
  else unknown.

Section Call.
Variable h : HTTPClient.
Variable w : World.
Variables method url : string.
Variable bodyData : option string.
Variable output : option GoType.

Let last_attempt : Z := wrap64 (MaxRetries (config h) + 1).

(** The body of [for attempt := 1; attempt <= h.config.MaxRetries+1;
    attempt++], run [remaining] more times from [attempt] on. *)
Fixpoint attempts (remaining : nat) (attempt : Z) : CallResult :=
  match remaining with
  | O => finish (Some ErrAllRetriesFailed) None
  | S remaining' =>
      match NewRequest w method url with
      | Some e => finish (Some (ErrCreateRequest e)) None
      | None =>
          after (EvSend attempt bodyData)
            match Do w attempt with
            | TransportError e =>
                if attempt =? last_attempt then finish (Some (ErrRequestFailed e)) None
                else attempts remaining' (attempt + 1)
            | HTTPResponse StatusCode bodyBytes readErr =>
                if (200 <=? StatusCode) && (StatusCode <? 300) then
                  match output with
                  | Some t =>
                      match readErr with
                      | Some e => finish (Some (ErrReadBody e)) None
                      | None =>
                          match Unmarshal w bodyBytes t with
                          | inl e => finish (Some (ErrUnmarshalResponse e)) None
                          | inr v => finish None (Some v)
                          end
                      end
                  | None => finish None None
                  end
                else if (StatusCode <? 500) || (attempt =? last_attempt) then
                  finish (Some (statusError w StatusCode bodyBytes)) None
                else if DisableBackoff (config h) then
                  attempts remaining' (attempt + 1)
                else
                  after (EvSleep (backoffDelay (config h) attempt))
                        (attempts remaining' (attempt + 1))
            end
      end
  end.

End Call.

(** [Call]: [input] and [output] are [None] for nil; [output] is given
    by the type it points to. *)
Definition Call (h : HTTPClient) (w : World) (method url : string)
    (input : option Value) (output : option GoType) : CallResult :=
  let method := ToUpper method in
  if negb (isValidHTTPMethod method) then
    finish (Some (ErrInvalidHTTPMethod method)) None
  else
    let run bodyData :=
      attempts h w method url bodyData output
               (Z.to_nat (wrap64 (MaxRetries (config h) + 1))) 1 in
    match input with
    | None => run None
    | Some v =>
        after EvMarshal
          match Marshal w v with
          | inl e => finish (Some (ErrMarshalInput e)) None
          | inr bytes => run (Some bytes)
          end
    end.

(* ===================================================================== *)
(** ** JSON texts (RFC 8259), to judge the bytes a response carries *)
(* ===================================================================== *)

Module JSON.
Local Open Scope nat_scope.

Inductive json : Type :=
| JNull
| JBool (b : bool)
| JNumber (literal : string)
| JString (s : string)
| JArray (elements : list json)
| JObject (members : list (string * json)).

Inductive parsed (A : Type) : Type :=
| Parsed (a : A) (rest : string)
| SyntaxError
| OutOfFuel.
Arguments Parsed {A} a rest.
Arguments SyntaxError {A}.
Arguments OutOfFuel {A}.

Definition is_ws (c : ascii) : bool :=
  let n := nat_of_ascii c in
  (n =? 32) || (n =? 9) || (n =? 10) || (n =? 13).

Fixpoint skip_ws (s : string) : string :=
  match s with
  | String c r => if is_ws c then skip_ws r else s
  | EmptyString => s
  end.

Definition is_digit (c : ascii) : bool :=
  let n := nat_of_ascii c in (48 <=? n) && (n <=? 57).

Definition hex_val (c : ascii) : option nat :=
  let n := nat_of_ascii c in
  if (48 <=? n) && (n <=? 57) then Some (n - 48)
  else if (97 <=? n) && (n <=? 102) then Some (n - 87)
  else if (65 <=? n) && (n <=? 70) then Some (n - 55)
  else None.

(** UTF-8 of a code point below 2^16 (a u-escape is decoded on its
    own: surrogate halves are not paired). *)
Definition utf8 (cp : nat) : string :=
  if cp <? 128 then String (ascii_of_nat cp) EmptyString
  else if cp <? 2048 then
    String (ascii_of_nat (192 + cp / 64))
      (String (ascii_of_nat (128 + cp mod 64)) EmptyString)
  else
    String (ascii_of_nat (224 + cp / 4096))
      (String (ascii_of_nat (128 + (cp / 64) mod 64))
         (String (ascii_of_nat (128 + cp mod 64)) EmptyString)).

(** The character an escape letter stands for. *)
Definition escape_char (c : ascii) : option ascii :=
  let n := nat_of_ascii c in
  if n =? 34 then Some c                       (* quotation mark *)
  else if n =? 92 then Some c                  (* reverse solidus *)
  else if n =? 47 then Some c                  (* solidus *)
  else if n =? 98 then Some (ascii_of_nat 8)   (* b: backspace *)
  else if n =? 102 then Some (ascii_of_nat 12) (* f: form feed *)
  else if n =? 110 then Some (ascii_of_nat 10) (* n: line feed *)
  else if n =? 114 then Some (ascii_of_nat 13) (* r: carriage return *)
  else if n =? 116 then Some (ascii_of_nat 9)  (* t: tab *)
  else None.

(** The characters of a string after its opening quote, up to the
    closing one: the decoded string and what follows it. *)
Fixpoint string_chars (s : string) : option (string * string) :=
  match s with
  | EmptyString => None
  | String c r =>
      let n := nat_of_ascii c in
      if n =? 34 then Some (EmptyString, r)
      else if n =? 92 then
        match r with
        | String e r' =>
            if nat_of_ascii e =? 117 then
              match r' with
              | String h1 (String h2 (String h3 (String h4 r''))) =>
                  match hex_val h1, hex_val h2, hex_val h3, hex_val h4 with
                  | Some a, Some b, Some c', Some d =>
                      match string_chars r'' with
                      | Some (str, rest) =>
                          Some ((utf8 (((a * 16 + b) * 16 + c') * 16 + d) ++ str)%string, rest)
                      | None => None
                      end
                  | _, _, _, _ => None
                  end
              | _ => None
              end
            else
              match escape_char e with
              | Some x =>
                  match string_chars r' with
                  | Some (str, rest) => Some (String x str, rest)
                  | None => None
                  end
              | None => None
              end
        | EmptyString => None
        end
      else if n <? 32 then None
      else
        match string_chars r with
        | Some (str, rest) => Some (String c str, rest)
        | None => None
        end
  end.

(** The longest run of digits at the head of [s]. *)
Fixpoint digits (s : string) : string * string :=
  match s with
  | String c r =>
      if is_digit c then let '(d, rest) := digits r in (String c d, rest)
      else (EmptyString, s)
  | EmptyString => (EmptyString, s)
  end.

Definition char_is (c : ascii) (n : nat) : bool := nat_of_ascii c =? n.

(** number = [ minus ] int [ frac ] [ exp ] *)
Definition number (s : string) : option (string * string) :=
  let '(sign, s1) :=
    match s with
    | String c r => if char_is c 45 then ("-"%string, r) else (EmptyString, s)
    | _ => (EmptyString, s)
    end in
  let '(int, s2) := digits s1 in
  let int_ok :=
    match int with
    | EmptyString => false
    | String c EmptyString => true
    | String c _ => negb (char_is c 48)
    end in
  if negb int_ok then None
  else
    let frac :=
      match s2 with
      | String c r =>
          if char_is c 46 then
            let '(f, s3) := digits r in
            match f with
            | EmptyString => None
            | _ => Some (("." ++ f)%string, s3)
            end
          else Some (EmptyString, s2)
      | _ => Some (EmptyString, s2)
      end in
    match frac with
    | None => None
    | Some (f, s3) =>
        let exp :=
          match s3 with
          | String c r =>
              if char_is c 101 || char_is c 69 then
                let '(esign, r1) :=
                  match r with
                  | String c1 r' =>
                      if char_is c1 43 || char_is c1 45
                      then (String c1 EmptyString, r') else (EmptyString, r)
                  | _ => (EmptyString, r)
                  end in
                let '(e, s4) := digits r1 in
                match e with
                | EmptyString => None
                | _ => Some ((String c esign ++ e)%string, s4)
                end
              else Some (EmptyString, s3)
          | _ => Some (EmptyString, s3)
          end in
        match exp with
        | None => None
        | Some (e, s4) => Some ((sign ++ int ++ f ++ e)%string, s4)
        end
    end.

(** value = object / array / string / number / true / false / null,
    with the fuel bounding the calls (a text of n characters needs at
    most 2n+2). *)
Fixpoint value (fuel : nat) (s : string) : parsed json :=
  match fuel with
  | O => OutOfFuel
  | S fuel =>
      match skip_ws s with
      | EmptyString => SyntaxError
      | String c r =>
          if char_is c 123 then
            match skip_ws r with
            | String c' r' =>
                if char_is c' 125 then Parsed (JObject []) r'
                else members fuel r []
            | EmptyString => SyntaxError
            end
          else if char_is c 91 then
            match skip_ws r with
            | String c' r' =>
                if char_is c' 93 then Parsed (JArray []) r'
                else elements fuel r []
            | EmptyString => SyntaxError
            end
          else if char_is c 34 then
            match string_chars r with
            | Some (str, rest) => Parsed (JString str) rest
            | None => SyntaxError
            end
          else if String.prefix "true" (String c r) then
            Parsed (JBool true) (drop_chars 4 (String c r))
          else if String.prefix "false" (String c r) then
            Parsed (JBool false) (drop_chars 5 (String c r))
          else if String.prefix "null" (String c r) then
            Parsed JNull (drop_chars 4 (String c r))
          else
            match number (String c r) with
            | Some (lit, rest) => Parsed (JNumber lit) rest
            | None => SyntaxError
            end
      end
  end
with members (fuel : nat) (s : string) (acc : list (string * json)) : parsed json :=
  match fuel with
  | O => OutOfFuel
  | S fuel =>
      match skip_ws s with
      | String q r =>
          if char_is q 34 then
            match string_chars r with
            | Some (key, r1) =>
                match skip_ws r1 with
                | String colon r2 =>
                    if char_is colon 58 then
                      match value fuel r2 with
                      | Parsed v r3 =>
                          match skip_ws r3 with
                          | String c r4 =>
                              if char_is c 44 then members fuel r4 ((key, v) :: acc)
                              else if char_is c 125 then
                                Parsed (JObject (rev ((key, v) :: acc))) r4
                              else SyntaxError
                          | EmptyString => SyntaxError
                          end
                      | SyntaxError => SyntaxError
                      | OutOfFuel => OutOfFuel
                      end
                    else SyntaxError
                | EmptyString => SyntaxError
                end
            | None => SyntaxError
            end
          else SyntaxError
      | EmptyString => SyntaxError
      end
  end
with elements (fuel : nat) (s : string) (acc : list json) : parsed json :=
  match fuel with
  | O => OutOfFuel
  | S fuel =>
      match value fuel s with
      | Parsed v r1 =>
          match skip_ws r1 with
          | String c r2 =>
              if char_is c 44 then elements fuel r2 (v :: acc)
              else if char_is c 93 then Parsed (JArray (rev (v :: acc))) r2
              else SyntaxError
          | EmptyString => SyntaxError
          end
      | SyntaxError => SyntaxError
      | OutOfFuel => OutOfFuel
      end
  end.

(** JSON-text = ws value ws *)
Definition text (fuel : nat) (s : string) : parsed json :=
  match value fuel s with
  | Parsed v rest =>
      match skip_ws rest with
      | EmptyString => Parsed v EmptyString
      | _ => SyntaxError
      end
  | other => other
  end.

(** [s] is a JSON text that denotes [v]. *)
Definition denotes (s : string) (v : json) : Prop :=
  ∃ fuel, text fuel s = Parsed v EmptyString.

Definition valid (s : string) : Prop := ∃ v, denotes s v.

(** The value of a member of an object; of two members of one name the
    later counts. *)
Definition member (key : string) (v : json) : option json :=
  match v with
  | JObject ms =>
      snd <$> find (fun kv => String.eqb (fst kv) key) (rev ms)
  | _ => None
  end.

End JSON.

(** The contract of an error body: a JSON object whose ["error"] member
    is the string [message].  What gin's encoder renders from a [gin.H]
    is the object with the members of the map. *)
Definition errorBody (b : ResponseBody) (message : string) : Prop :=
  match b with
  | JSON_H h => h !! "error"%string = Some message
  | JSON_Value _ => False
  | Data _ bytes =>
      ∃ v, JSON.denotes bytes v ∧ JSON.member "error" v = Some (JSON.JString message)
  end.

(* ===================================================================== *)
(** ** The repository's own services and worlds to run the code in *)
(* ===================================================================== *)

(** The formula of the specification for the delay before the next
    attempt: [min(baseDelay * factor^(attempt-1), maxDelay)] with the
    configured factor. *)
Definition specDelay (cfg : ClientConfig) (attempt : Z) : Z :=
  Z.min (BackoffBaseMs cfg * BackoffFactor cfg ^ (attempt - 1)) (BackoffMaxMs cfg).

(** The attempts a trace sends, and the delays it sleeps, in order. *)
Definition attemptsSent (t : list Event) : list Z :=
  omap (fun ev => match ev with EvSend a _ => Some a | _ => None end) t.

Definition delaysSlept (t : list Event) : list Z :=
  omap (fun ev => match ev with EvSleep ms => Some ms | _ => None end) t.

(** encoding/json into a [map[string]string], by the parser above: an
    object whose members are strings or null. *)
Definition decodeErrResp (b : string) : option (gmap string string) :=
  match JSON.text (2 * String.length b + 2) b with
  | JSON.Parsed (JSON.JObject ms) _ =>
      fold_left
        (fun acc kv =>
           match acc, snd kv with
           | Some m, JSON.JString s => Some (<[fst kv := s]> m)
           | Some m, JSON.JNull => Some (<[fst kv := ""%string]> m)
           | _, _ => None
           end)
        ms (Some ∅)
  | _ => None
  end.

(** A world whose network answers [net attempt]; requests can always be
    built, every input marshals, every 2xx body decodes. *)
Definition worldOf (net : Z → RoundTrip) : World :=
  {| Marshal := fun _ => inr "{}"%string;
     Unmarshal := fun b _ => inr (VString b);
     Unmarshal_map := decodeErrResp;
     NewRequest := fun _ _ => None;
     Do := net |}.

(** A server that answers every attempt with 503 and an empty body. *)
Definition always503 : Z → RoundTrip :=
  fun _ => HTTPResponse 503 ""%string None.

(** The client configuration of the tests, with a backoff factor of 3. *)
Definition factor3Config : gmap string ConfigValue :=
  <["http_client_timeout_ms"%string := CInt 1000]>
  (<["http_client_max_retries"%string := CInt 2]>
  (<["http_client_backoff_factor"%string := CInt 3]> ∅)).

(** A [Fmt] whose [float64] values are the integers: both verbs read
    an optional sign and a run of decimal digits. *)
Fixpoint digitsValue (s : string) (acc : Z) (seen : bool) : option Z :=
  match s with
  | String c r =>
      if JSON.is_digit c
      then digitsValue r (10 * acc + (Z.of_nat (nat_of_ascii c) - 48)) true
      else if seen then Some acc else None
  | EmptyString => if seen then Some acc else None
  end.

Definition scanInt (s : string) : option Z :=
  match s with
  | String c r =>
      if JSON.char_is c 45 then Z.opp <$> digitsValue r 0 false
      else if JSON.char_is c 43 then digitsValue r 0 false
      else digitsValue s 0 false
  | EmptyString => None
  end.

Definition intFmt : Fmt :=
  {| float64 := Z; float64_of_int := fun n => n;
     Sscanf_d := scanInt; Sscanf_f := scanInt |}.

(** A binding for string inputs and structs of string fields, by the
    JSON parser above; the validator knows [required]. *)
Definition bindJSON (c : Request) (t : GoType) : string + Value :=
  match JSON.text (2 * String.length (req_body c) + 2) (req_body c) with
  | JSON.Parsed v _ =>
      match t, v with
      | TScalar reflect.String _, JSON.JString s => inr (VString s)
      | TStruct _ fields, JSON.JObject _ =>
          inr (VStruct t
                 (map (fun f =>
                         match JSON.member (fieldName f) v with
                         | Some (JSON.JString s) => VString s
                         | _ => VString ""%string
                         end) fields))
      | _, _ => inl "json: cannot unmarshal value"%string
      end
  | _ => inl "invalid character in JSON input"%string
  end.

Definition bindQuery (c : Request) (t : GoType) : string + Value :=
  match t with
  | TStruct _ fields => inr (VStruct t (map (fun f => VString (Query c (fieldName f))) fields))
  | _ => inl "binding element must be a struct"%string
  end.

Definition requiredOK (f : StructField) (v : Value) : bool :=
  if Contains (field_validate f) "required" then
    match v with
    | VString s => negb (String.eqb s "")
    | _ => true
    end
  else true.

Definition validateRequired (v : Value) : option string :=
  match v with
  | VPtr (VStruct (TStruct _ fields) vals) =>
      if forallb (fun fv => requiredOK (fst fv) (snd fv)) (combine fields vals)
      then None else Some "a required field is empty"%string
  | _ => Some "validator: (nil)"%string
  end.

Definition testGin : Gin :=
  {| ShouldBindJSON := bindJSON; ShouldBindQuery := bindQuery;
     validate_Struct := validateRequired |}.

(** [User], [TestService] and [InvalidSigService] of the tests, and
    [SampleService] of the example program (its [RegisterMethods] leaves
    [Func] out). *)
Definition UserType : GoType :=
  TStruct "User" [ mkField "Name" stringType "name" "required";
                   mkField "Email" stringType "email" "required,email" ].

Definition TestServiceType : GoType := TPtr (TStruct "TestService" []).

Definition Hello : Callable :=
  {| fn_In := stringType;
     fn_Call := fun v =>
       match v with
       | VString name => (VString ("Hello, " ++ name ++ "!"), None)
       | _ => (VString "", None)
       end |}.

Definition Create : Callable :=
  {| fn_In := UserType;
     fn_Call := fun v =>
       match v with
       | VStruct _ (VString name :: _) => (VString ("Created user " ++ name), None)
       | _ => (VString "", None)
       end |}.

Definition registerMethodsMethod (recv : GoType) : Method :=
  {| meth_Name := "RegisterMethods"; meth_In := [recv];
     meth_Out := [methodInfoSliceType]; meth_Func := OtherFunc |}.

Definition TestService : ServiceValue :=
  {| MethodSet :=
       [ {| meth_Name := "Create"; meth_In := [TestServiceType; UserType];
            meth_Out := [stringType; errorType];
            meth_Func := MethodFunc TestServiceType Create |};
         {| meth_Name := "Hello"; meth_In := [TestServiceType; stringType];
            meth_Out := [stringType; errorType];
            meth_Func := MethodFunc TestServiceType Hello |};
         registerMethodsMethod TestServiceType ];
     RegisterMethods :=
       [ {| Name := "Hello"; HTTPMethod := "GET"; InputType := Some stringType;
            OutputType := Some stringType; Func := BoundFunc Hello |};
         {| Name := "Create"; HTTPMethod := "POST"; InputType := Some UserType;
            OutputType := Some stringType; Func := BoundFunc Create |} ] |}.

Definition InvalidSigServiceType : GoType := TPtr (TStruct "InvalidSigService" []).

Definition BadMethod : Method :=
  {| meth_Name := "BadMethod"; meth_In := [InvalidSigServiceType];
     meth_Out := [stringType]; meth_Func := OtherFunc |}.

Definition BadMethodInfo : MethodInfo :=
  {| Name := "BadMethod"; HTTPMethod := "GET"; InputType := None;
     OutputType := Some stringType; Func := OtherFunc |}.

Definition InvalidSigService : ServiceValue :=
  {| MethodSet := [ BadMethod; registerMethodsMethod InvalidSigServiceType ];
     RegisterMethods := [ BadMethodInfo ] |}.

(** [InvalidSigService] declaring, before [BadMethod], a method it does
    not have. *)
Definition MissingInfo : MethodInfo :=
  {| Name := "Missing"; HTTPMethod := "GET"; InputType := Some stringType;
     OutputType := Some stringType; Func := ZeroValue |}.

Definition MissingThenBadService : ServiceValue :=
  {| MethodSet := MethodSet InvalidSigService;
     RegisterMethods := [ MissingInfo; BadMethodInfo ] |}.

Definition SampleServiceType : GoType := TStruct "SampleService" [].

Definition GreetInfo : MethodInfo :=
  {| Name := "Greet"; HTTPMethod := "GET"; InputType := Some stringType;
     OutputType := Some stringType; Func := ZeroValue |}.

(** [User] of the example program, with its nested address. *)
Definition SampleUserType : GoType :=
  TStruct "User"
    [ mkField "Name" stringType "name" "required,min=1,max=50";
      mkField "Address"
        (TStruct "" [ mkField "City" stringType "city" "required,min=1,max=50" ])
        "address" "required" ].

Definition CreateUser : Callable :=
  {| fn_In := SampleUserType;
     fn_Call := fun v =>
       match v with
       | VStruct _ (VString name :: _) => (VString ("Created user " ++ name), None)
       | _ => (VString "", None)
       end |}.

Definition CreateUserInfo : MethodInfo :=
  {| Name := "CreateUser"; HTTPMethod := "POST"; InputType := Some SampleUserType;
     OutputType := Some stringType; Func := ZeroValue |}.

(** The example program declares its methods on [*SampleService]:
    the pointer has them, the value [SampleService{}], which is what the
    program registers, has none. *)
Definition SampleServicePointer : ServiceValue :=
  {| MethodSet :=
       [ {| meth_Name := "CreateUser";
            meth_In := [TPtr SampleServiceType; SampleUserType];
            meth_Out := [stringType; errorType];
            meth_Func := MethodFunc (TPtr SampleServiceType) CreateUser |};
         {| meth_Name := "Greet"; meth_In := [TPtr SampleServiceType; stringType];
            meth_Out := [stringType; errorType];
            meth_Func := MethodFunc (TPtr SampleServiceType) Hello |};
         registerMethodsMethod (TPtr SampleServiceType) ];
     RegisterMethods := [ GreetInfo; CreateUserInfo ] |}.

Definition SampleService : ServiceValue :=
  {| MethodSet := []; RegisterMethods := [ GreetInfo; CreateUserInfo ] |}.

(** A request with the query [name=v] and no body, and one with a body
    and no query. *)
Definition getRequest (v : string) : Request :=
  {| req_query := <["name"%string := [v]]> ∅; req_body := ""%string |}.

Definition bodyRequest (b : string) : Request :=
  {| req_query := ∅; req_body := b |}.

(** A capability of string input declared on POST, bound to [Hello];
    and [GetMethod] of [MultiMethodService], whose error message is fixed
    here by the argument. *)
Definition EchoInfo : MethodInfo :=
  {| Name := "Echo"; HTTPMethod := "POST"; InputType := Some stringType;
     OutputType := Some stringType; Func := BoundFunc Hello |}.

Definition failingWith (message : string) : Callable :=
  {| fn_In := stringType;
     fn_Call := fun _ => (VString "", Some message) |}.

Definition GetMethodInfo (message : string) : MethodInfo :=
  {| Name := "GetMethod"; HTTPMethod := "GET"; InputType := Some stringType;
     OutputType := Some stringType; Func := BoundFunc (failingWith message) |}.

(** An error message with a quoted word in it. *)
Definition quotedMessage : string :=
  ("user " ++ dquote ++ "bob" ++ dquote ++ " not found")%string.

(** The documentation types of the field kinds the synthesizer knows. *)
Definition docType (k : reflect.Kind) : option string :=
  match k with
  | reflect.String => Some "string"%string
  | reflect.Int | reflect.Int32 | reflect.Int64 => Some "integer"%string
  | reflect.Float32 | reflect.Float64 => Some "number"%string
  | _ => None
  end.

(** A struct with a boolean field, and one with a field of every kind
    the synthesizer maps, a nested struct and two fields without a
    serialized name. *)
Definition FlagType : GoType :=
  TStruct "Flag" [ mkField "Enabled" boolType "enabled" "" ].

Definition AddressType : GoType :=
  TStruct "Address" [ mkField "Street" stringType "street" "required,min=1,max=200";
                      mkField "City" stringType "city" "required,min=1,max=100" ].

Definition CustomerType : GoType :=
  TStruct "Customer" [ mkField "Email" stringType "email" "required,email";
                       mkField "Age" intType "age,omitempty" "gte=18,lte=120";
                       mkField "Score" float64Type "score" "gte=0";
                       mkField "Secret" stringType "-" "";
                       mkField "internal" stringType "" "";
                       mkField "Address" AddressType "address" "required" ].

(** The [paths] of a document are path items, each a map; the document
    of a server has its three keys.  [NewServer] starts so and
    registration keeps it so. *)
Definition pathsOK `{Fmt} (paths : gmap string any) : Prop :=
  ∀ key v, paths !! key = Some v → ∃ item, v = AMap item.

Definition docOK `{Fmt} (s : Server) : Prop :=
  is_Some (swagger s !! "openapi"%string)
  ∧ is_Some (swagger s !! "info"%string)
  ∧ ∃ paths, swagger s !! "paths"%string = Some (AMap paths) ∧ pathsOK paths.


Definition validVerb (m : MethodInfo) : bool := isValidHTTPMethod (HTTPMethod m).

(** The call [registerMethods] makes for a descriptor of recognized
    verb, and the route gin binds for it: the same verb and handler,
    under the path joined to the engine's base path. *)
Definition callFor (cfg : serviceConfig) (m : MethodInfo) : Route :=
  {| route_method := ToUpper (HTTPMethod m);
     route_path := (prefix cfg ++ "/" ++ Name m)%string;
     route_handler := methodHandler m |}.

Definition bound (call : Route) : Route :=
  {| route_method := route_method call;
     route_path := joinPaths "/" (route_path call);
     route_handler := route_handler call |}.

Definition routeFor (cfg : serviceConfig) (m : MethodInfo) : Route :=
  bound (callFor cfg m).

(** A router that refuses a path exactly when it is already bound under
    the method, as gin's does for paths without wildcards. *)
Definition exactRouter : Router :=
  {| addRoute_panics := fun routes method path =>
       existsb (fun r => String.eqb (route_method r) method
                         && String.eqb (route_path r) path) routes |}.


Definition HelloInfo : MethodInfo :=
  {| Name := "Hello"; HTTPMethod := "GET"; InputType := Some stringType;
     OutputType := Some stringType; Func := BoundFunc Hello |}.


(** The characters that need no escape inside a JSON string: not a
    control character, not the double quote, not the reverse solidus. *)
Definition plainChar (c : ascii) : bool :=
  let n := nat_of_ascii c in
  (32 <=? n)%nat && negb (n =? 34)%nat && negb (n =? 92)%nat.

Fixpoint plainString (s : string) : bool :=
  match s with
  | EmptyString => true
  | String c r => plainChar c && plainString r
  end.

(** The client configuration of the tests. *)
Definition testClient : HTTPClient :=
  {| config := {| OtelEnabled := false; TimeoutMs := 1000; MaxRetries := 2;
                  BackoffBaseMs := 100; BackoffMaxMs := 1000; BackoffFactor := 2;
                  DisableBackoff := false |} |}.

(** A server that answers every attempt with status 500 and the given
    bytes. *)
Definition always500 (bytes : string) : Z → RoundTrip :=
  fun _ => HTTPResponse 500 bytes None.

(** The property of an entry the introspection rejects for its
    signature: the service has a method of that name, and it does not
    take one input and return (value, error). *)
Definition deviates (svc : ServiceValue) (m : MethodInfo) : Prop :=
  ∃ meth, MethodByName (MethodSet svc) (Name m) = Some meth
          ∧ badSignature meth = true.

(** [RegisterMethods] itself is found and has the signature expected. *)
Definition registerMethodsOK (svc : ServiceValue) : Prop :=
  ∃ rm, MethodByName (MethodSet svc) "RegisterMethods" = Some rm
        ∧ length (meth_In rm) = 1%nat ∧ meth_Out rm = [methodInfoSliceType].

(* ===================================================================== *)
(** ** Vocabulary for the further properties *)
(* ===================================================================== *)

(** Attempt [a] does not end the call while attempts remain: the
    transport failed, or the status is 500 or more. *)
Definition retriable (w : World) (a : Z) : bool :=
  match Do w a with
  | TransportError _ => true
  | HTTPResponse StatusCode _ _ => 500 <=? StatusCode
  end.

(** What such an attempt leaves in the trace: the request, and the
    sleep that follows a response unless backoff is disabled (nothing
    follows a transport failure). *)
Definition retryEvents (cfg : ClientConfig) (w : World) (bodyData : option string)
    (a : Z) : list Event :=
  EvSend a bodyData ::
  match Do w a with
  | HTTPResponse _ _ _ =>
      if DisableBackoff cfg then [] else [EvSleep (backoffDelay cfg a)]
  | TransportError _ => []
  end.

Fixpoint retriesFrom (cfg : ClientConfig) (w : World) (bodyData : option string)
    (n : nat) (a : Z) : list Event :=
  match n with
  | O => []
  | S n' => (retryEvents cfg w bodyData a ++ retriesFrom cfg w bodyData n' (a + 1))%list
  end.

(** What precedes the first attempt in the trace. *)
Definition preflight (input : option Value) : list Event :=
  match input with
  | Some _ => [EvMarshal]
  | None => []
  end.

(** A call that reaches its loop: the verb is recognized, the request
    can be built, the input (if any) marshals to [bodyData], and
    [MaxRetries] is not negative (nor so large that [MaxRetries+1]
    overflows). *)
Definition ready (h : HTTPClient) (w : World) (method url : string)
    (input : option Value) (bodyData : option string) : Prop :=
  In (ToUpper method) validMethods
  ∧ NewRequest w (ToUpper method) url = None
  ∧ 0 <= MaxRetries (config h) < 2 ^ 63 - 1
  ∧ match input with
    | None => bodyData = None
    | Some v => Marshal w v = inr (default ""%string bodyData) ∧ is_Some bodyData
    end.

(** A trace whose attempts are [a], [a+1], ... ([k] of them, at most
    [limit]), whose sleeps are no more than its attempts and each at most
    [BackoffMaxMs], and which does not sleep when backoff is disabled. *)
Definition boundedFrom (cfg : ClientConfig) (a : Z) (limit : nat) (t : list Event)
  : Prop :=
  ∃ k : nat,
    attemptsSent t = seqZ a (Z.of_nat k)
    ∧ (k <= limit)%nat
    ∧ Forall (fun ms => ms <= BackoffMaxMs cfg) (delaysSlept t)
    ∧ (length (delaysSlept t) <= k)%nat
    ∧ (DisableBackoff cfg = true → delaysSlept t = []).

(** The client [NewHTTPClient] builds from a configuration without any
    of its keys. *)
Definition defaultClient : HTTPClient :=
  {| config := {| OtelEnabled := false; TimeoutMs := 3000; MaxRetries := 3;
                  BackoffBaseMs := 100; BackoffMaxMs := 1000; BackoffFactor := 2;
                  DisableBackoff := false |} |}.

(** A network whose first attempt fails in the transport, whose second
    is answered 503 and whose third is answered [code] with [bytes]. *)
Definition flakyThen (code : Z) (bytes : string) : Z → RoundTrip :=
  fun a =>
    if a =? 1 then TransportError "connection refused"
    else if a =? 2 then HTTPResponse 503 ""%string None
    else HTTPResponse code bytes None.

(** A world in which no request can be built: [http.NewRequestWithContext]
    fails with [msg]. *)
Definition unbuildable (msg : string) : World :=
  {| Marshal := fun _ => inr "{}"%string;
     Unmarshal := fun b _ => inr (VString b);
     Unmarshal_map := decodeErrResp;
     NewRequest := fun _ _ => Some msg;
     Do := always503 |}.

(** A world whose inputs do not marshal. *)
Definition unmarshalable (msg : string) : World :=
  {| Marshal := fun _ => inl msg;
     Unmarshal := fun b _ => inr (VString b);
     Unmarshal_map := decodeErrResp;
     NewRequest := fun _ _ => None;
     Do := always503 |}.

(** A network that never answers. *)
Definition unreachable : Z → RoundTrip :=
  fun _ => TransportError "connection refused".

(** The keys [NewHTTPClient] reads with [getIntConfig] and with
    [getBoolConfig]. *)
Definition intKeys : list string :=
  ["http_client_timeout_ms"; "http_client_max_retries";
   "http_client_backoff_base_ms"; "http_client_backoff_max_ms";
   "http_client_backoff_factor"]%string.

Definition boolKeys : list string :=
  ["otel_enabled"; "http_client_disable_backoff"]%string.

(** The value [v] under [key] is one [NewHTTPClient] uses: an int under
    a key read as int, a bool under a key read as bool. *)
Definition usedAt (key : string) (v : ConfigValue) : bool :=
  match v with
  | CInt _ => existsb (String.eqb key) intKeys
  | CBool _ => existsb (String.eqb key) boolKeys
  | CString _ => false
  end.

(** A configuration that gives the retry count as a string. *)
Definition retriesAsString : gmap string ConfigValue :=
  <["http_client_max_retries"%string := CString "5"]> ∅.

(** The serialized names of the fields whose [validate] tag contains
    the word required, in the order of declaration. *)
Definition requiredNames (fields : list StructField) : list string :=
  List.map fieldName
    (List.filter (fun f => serialized f && Contains (field_validate f) "required")
       fields).

(** The values a rule [key] has in a [validate] tag: of each
    comma-separated part that starts with [key], what follows the key,
    when it parses. *)
Definition ruleValues {V : Type} (parse : string → option V) (key validateTag : string)
  : list V :=
  omap (fun part => if HasPrefix part key then parse (TrimPrefix part key) else None)
       (Split validateTag comma).

(** A field of the struct [fields] that decides the node under its
    name: it is serialized, and no later field has the same serialized
    name. *)
Definition decides (fields : list StructField) (f : StructField) : Prop :=
  serialized f = true
  ∧ ∃ pre post, fields = (pre ++ f :: post)%list
                ∧ ∀ g, In g post → serialized g = true → fieldName g ≠ fieldName f.

(** An order that points to its customer, counts its items in a
    [uint] and keeps its lines in a slice. *)
Definition OrderType : GoType :=
  TStruct "Order" [ mkField "ID" stringType "id" "required";
                    mkField "Customer" (TPtr CustomerType) "customer" "required";
                    mkField "Count" (TScalar reflect.Uint "uint") "count" "gte=1";
                    mkField "Lines" (TScalar reflect.Slice "[]string") "lines" "" ].

(** An entry the introspection accepts: a name and a verb that are
    not empty, and a method of that name that takes one input and
    returns (value, error). *)
Definition accepted (svc : ServiceValue) (m : MethodInfo) : Prop :=
  Name m ≠ ""%string ∧ HTTPMethod m ≠ ""%string
  ∧ ∃ meth, MethodByName (MethodSet svc) (Name m) = Some meth
            ∧ badSignature meth = false.

(** Reading the document: the member [key] of a value that is a map,
    the schema of the response [code] of an operation, and the schema
    the 400 and 500 responses carry. *)
Definition member `{Fmt} (key : string) (v : any) : option any :=
  match v with
  | AMap m => m !! key
  | _ => None
  end.




(** The two entries of [TestService], and [Hello] declared with the
    verb in lower case. *)
Definition CreateInfo : MethodInfo :=
  {| Name := "Create"; HTTPMethod := "POST"; InputType := Some UserType;
     OutputType := Some stringType; Func := BoundFunc Create |}.


(** The JSON object with the members name and email, as a client
    posts a [User]. *)
Definition userBody (name email : string) : string :=
  ("{" ++ dquote ++ "name" ++ dquote ++ ":" ++ dquote ++ name ++ dquote ++ ","
       ++ dquote ++ "email" ++ dquote ++ ":" ++ dquote ++ email ++ dquote ++ "}")%string.

(** The error the checks of one entry end with when the entry is not
    [accepted], in their order: the name or the verb is empty; the
    service has no method of that name; the method's signature deviates. *)
Definition entryError (svc : ServiceValue) (m : MethodInfo) : error :=
  if String.eqb (Name m) "" || String.eqb (HTTPMethod m) "" then ErrEmptyNameOrMethod
  else
    match MethodByName (MethodSet svc) (Name m) with
    | None => ErrMethodNotFound (Name m)
    | Some _ => ErrInvalidSignature (Name m)
    end.

(** A service that declares [BadMethod], whose signature deviates,
    between [Hello] and [Create], which are as they should be. *)
Definition HelloThenBadService : ServiceValue :=
  {| MethodSet :=
       [ BadMethod;
         {| meth_Name := "Create"; meth_In := [InvalidSigServiceType; UserType];
            meth_Out := [stringType; errorType];
            meth_Func := MethodFunc InvalidSigServiceType Create |};
         {| meth_Name := "Hello"; meth_In := [InvalidSigServiceType; stringType];
            meth_Out := [stringType; errorType];
            meth_Func := MethodFunc InvalidSigServiceType Hello |};
         registerMethodsMethod InvalidSigServiceType ];
     RegisterMethods := [ HelloInfo; BadMethodInfo; CreateInfo ] |}.




(** A path name element that [path.Clean] keeps as it is: not empty,
    without a slash, and neither [.] nor [..]. *)
Definition cleanElement (e : string) : bool :=
  negb (String.eqb e "") && negb (String.eqb e ".") && negb (String.eqb e "..")
  && forallb (fun c => negb (Ascii.eqb c "/"%char)) (list_ascii_of_string e).

(* ===================================================================== *)
(** ** Lemmas on strings *)
(* ===================================================================== *)

Lemma upper_ascii_idem (c : ascii) : upper_ascii (upper_ascii c) = upper_ascii c.
Proof. destruct c as [[] [] [] [] [] [] [] []]; reflexivity. Qed.

Lemma ToUpper_idem (s : string) : ToUpper (ToUpper s) = ToUpper s.
Proof.
  induction s as [|c s IH]; simpl; [reflexivity|].
  rewrite upper_ascii_idem, IH. reflexivity.
Qed.


Lemma Contains_unfold (s sub : string) :
  Contains s sub
  = HasPrefix s sub || match s with
                       | EmptyString => false
                       | String _ s' => Contains s' sub
                       end.
Proof. destruct s; reflexivity. Qed.


(** [isValidHTTPMethod] accepts exactly the verbs whose upper-case form
    is one of the seven. *)
Lemma isValidHTTPMethod_spec (method : string) :
  isValidHTTPMethod method = true ↔ In (ToUpper method) validMethods.
Proof.
  unfold isValidHTTPMethod. rewrite existsb_exists. split.
  - intros (valid & Hin & Heq). apply String.eqb_eq in Heq. subst. exact Hin.
  - intros Hin. exists (ToUpper method). split; [exact Hin | apply String.eqb_refl].
Qed.


(* ===================================================================== *)
(** ** The client: theorems *)
(* ===================================================================== *)

Local Open Scope Z_scope.

(** Splits [validClientConfig cfg = true] into its ten bounds. *)
Ltac config_ranges H :=
  unfold validClientConfig in H;
  repeat (apply andb_prop in H; destruct H as [H ?]).

Lemma wrap64_small (z : Z) : - 2 ^ 63 <= z < 2 ^ 63 → wrap64 z = z.
Proof.
  intros Hz. unfold wrap64. rewrite Z.mod_small; lia.
Qed.

(** Within the validated ranges the delay is [base * 2^(attempt-1)]
    capped at the maximum: the multiplier is the constant 2. *)
Lemma backoffDelay_doubling (cfg : ClientConfig) (attempt : Z) :
  validClientConfig cfg = true → 1 <= attempt <= 6 →
  backoffDelay cfg attempt
  = Z.min (BackoffBaseMs cfg * 2 ^ (attempt - 1)) (BackoffMaxMs cfg).
Proof.
  intros Hv Ha. config_ranges Hv.
  unfold backoffDelay. rewrite Z.shiftl_1_l.
  assert (Hp : 1 <= 2 ^ (attempt - 1) <= 32).
  { assert (attempt = 1 ∨ attempt = 2 ∨ attempt = 3 ∨ attempt = 4
            ∨ attempt = 5 ∨ attempt = 6) as Hc by lia.
    destruct Hc as [->|[->|[->|[->|[->| ->]]]]]; simpl; lia. }
  rewrite (wrap64_small (2 ^ (attempt - 1))) by lia.
  rewrite wrap64_small by nia.
  destruct (_ >? _) eqn:E; lia.
Qed.

(** C1, at the failing input: with [http_client_backoff_factor = 3]
    (base 100 ms, maximum 1000 ms, two retries) and a server that always
    answers 503, the client sleeps 100 ms and then 200 ms, where the
    specification's formula [min(base * factor^(attempt-1), max)] gives
    100 ms and 300 ms: the configured factor is read and validated but
    the delay doubles whatever it is. *)
Theorem backoff_ignores_configured_factor :
  ∃ h, NewHTTPClient factor3Config = Some h
     ∧ BackoffFactor (config h) = 3
     ∧ delaysSlept (trace (Call h (worldOf always503) "GET" "http://example.com" None None))
       = [100; 200]
     ∧ backoffDelay (config h) 2 = 200
     ∧ specDelay (config h) 2 = 300.
Proof.
  eexists. split; [vm_compute; reflexivity|].
  repeat split; vm_compute; reflexivity.
Qed.




(** The retry loop against a server that answers every attempt with
    503: from [attempt] on, with [remaining] iterations left of which the
    last is attempt [MaxRetries+1], it sends the attempts [attempt],
    [attempt+1], ..., ends with the status error of 503, and the last
    event of the trace is the last attempt. *)
Lemma attempts_always_503 (h : HTTPClient) (w : World) (method url : string)
    (bodyData : option string) (output : option GoType) (N : Z) :
  MaxRetries (config h) = N → 0 <= N < 2 ^ 63 - 1 →
  NewRequest w method url = None →
  (∀ a, ∃ b re, Do w a = HTTPResponse 503 b re) →
  ∀ (remaining : nat) (attempt : Z),
    (0 < remaining)%nat → attempt + Z.of_nat remaining - 1 = N + 1 →
    let r := attempts h w method url bodyData output remaining attempt in
    (∃ message, err r = Some (ErrStatus 503 message))
    ∧ attemptsSent (trace r) = seqZ attempt (Z.of_nat remaining)
    ∧ last (trace r) = Some (EvSend (N + 1) bodyData)
    ∧ decoded r = None.
Proof.
  intros HN Hrange Hreq H503 remaining.
  induction remaining as [|remaining IH]; intros attempt Hpos Hlast; [lia|].
  cbn [attempts]. rewrite Hreq.
  destruct (H503 attempt) as (b & re & ->).
  change ((200 <=? 503) && (503 <? 300)) with false. cbv iota.
  change (503 <? 500) with false. rewrite orb_false_l.
  rewrite HN, wrap64_small by lia.
  destruct (Z.eqb_spec attempt (N + 1)) as [Heq|Hne].
  - assert (remaining = 0%nat) by lia. subst remaining.
    simpl. repeat split.
    + unfold statusError.
      destruct (0 <? String.length b)%nat; [|eauto].
      destruct (Unmarshal_map w b); [|eauto].
      destruct (negb _); eauto.
    + rewrite Heq. reflexivity.
  - assert (Hpos' : (0 < remaining)%nat) by lia.
    specialize (IH (attempt + 1) Hpos' ltac:(lia)).
    cbv zeta in IH. destruct IH as (Herr & Hsent & Hlst & Hdec).
    replace (Z.of_nat (S remaining)) with (Z.succ (Z.of_nat remaining)) by lia.
    rewrite seqZ_cons by lia. rewrite Z.pred_succ.
    set (rest := attempts h w method url bodyData output remaining (attempt + 1)) in *.
    assert (Hne_tr : trace rest ≠ []).
    { intros Hnil. rewrite Hnil in Hlst. discriminate Hlst. }
    destruct (DisableBackoff (config h)); simpl.
    + repeat split; try assumption.
      * rewrite Hsent. reflexivity.
      * destruct (trace rest) eqn:Et; [congruence|]. exact Hlst.
    + repeat split; try assumption.
      * rewrite Hsent. reflexivity.
      * destruct (trace rest) eqn:Et; [congruence|]. exact Hlst.
Qed.

(** C3: with [maxRetries = N] and a server that answers 503 on every
    attempt, a call sends exactly the attempts 1, 2, ..., N+1 (N+1 of
    them), returns the status error carrying code 503, and the last
    thing it does is attempt N+1: nothing follows the terminal error. *)
Theorem Call_always_503 (h : HTTPClient) (w : World) (method url : string)
    (input : option Value) (output : option GoType) (N : Z) :
  MaxRetries (config h) = N → 0 <= N < 2 ^ 63 - 1 →
  In (ToUpper method) validMethods →
  NewRequest w (ToUpper method) url = None →
  (∀ v, input = Some v → ∃ bytes, Marshal w v = inr bytes) →
  (∀ a, ∃ b re, Do w a = HTTPResponse 503 b re) →
  let r := Call h w method url input output in
  (∃ message, err r = Some (ErrStatus 503 message))
  ∧ attemptsSent (trace r) = seqZ 1 (N + 1)
  ∧ length (attemptsSent (trace r)) = Z.to_nat (N + 1)
  ∧ (∃ body, last (trace r) = Some (EvSend (N + 1) body)).
Proof.
  intros HN Hrange Hverb Hreq Hmarshal H503 r. subst r. unfold Call.
  assert (Hvalid : isValidHTTPMethod (ToUpper method) = true).
  { apply isValidHTTPMethod_spec. rewrite ToUpper_idem. exact Hverb. }
  rewrite Hvalid. cbn [negb]. cbv iota.
  rewrite HN, wrap64_small by lia.
  assert (Hloop : ∀ bodyData,
    let r := attempts h w (ToUpper method) url bodyData output (Z.to_nat (N + 1)) 1 in
    (∃ message, err r = Some (ErrStatus 503 message))
    ∧ attemptsSent (trace r) = seqZ 1 (N + 1)
    ∧ last (trace r) = Some (EvSend (N + 1) bodyData)).
  { intros bodyData.
    destruct (attempts_always_503 h w (ToUpper method) url bodyData output N
                HN Hrange Hreq H503 (Z.to_nat (N + 1)) 1 ltac:(lia) ltac:(lia))
      as (He & Hs & Hl & _).
    rewrite Z2Nat.id in Hs by lia. auto. }
  destruct input as [v|].
  - destruct (Hmarshal v eq_refl) as [bytes ->].
    destruct (Hloop (Some bytes)) as (He & Hs & Hl). simpl.
    repeat split; try assumption.
    + rewrite Hs, length_seqZ. reflexivity.
    + exists (Some bytes).
      destruct (trace (attempts _ _ _ _ _ _ _ _)) eqn:Et; [discriminate Hl | exact Hl].
  - destruct (Hloop None) as (He & Hs & Hl).
    repeat split; try assumption.
    + rewrite Hs, length_seqZ. reflexivity.
    + eauto.
Qed.

(** The client of the tests ([http_client_max_retries = 2]) against the
    server that always answers 503: three attempts, then the error. *)
Lemma Call_always_503_witness :
  let h := {| config := {| OtelEnabled := false; TimeoutMs := 1000;
                           MaxRetries := 2; BackoffBaseMs := 100;
                           BackoffMaxMs := 1000; BackoffFactor := 2;
                           DisableBackoff := false |} |} in
  let r := Call h (worldOf always503) "GET" "http://example.com" None None in
  attemptsSent (trace r) = [1; 2; 3]
  ∧ (Error <$> err r) = Some "request failed with status 503: unknown error"%string
  ∧ (∃ message, err r = Some (ErrStatus 503 message)).
Proof.
  cbv zeta.
  split; [vm_compute; reflexivity|]. split; [vm_compute; reflexivity|].
  refine (proj1 (Call_always_503
            {| config := {| OtelEnabled := false; TimeoutMs := 1000;
                            MaxRetries := 2; BackoffBaseMs := 100;
                            BackoffMaxMs := 1000; BackoffFactor := 2;
                            DisableBackoff := false |} |}
            (worldOf always503) "GET" "http://example.com" None None 2
            eq_refl _ _ eq_refl _ _)).
  - lia.
  - simpl. auto.
  - intros v Hv. discriminate Hv.
  - intros a. exists ""%string, None. reflexivity.
Defined.

(* ===================================================================== *)
(** ** Introspection: theorems *)
(* ===================================================================== *)

Lemma checkMethod_deviates (svc : ServiceValue) (m : MethodInfo) :
  deviates svc m → ∃ e, checkMethod (MethodSet svc) m = inl e.
Proof.
  intros (meth & Hfind & Hbad). unfold checkMethod.
  destruct (_ || _); [eauto|].
  rewrite Hfind, Hbad. eauto.
Qed.

Lemma checkMethod_invalid_signature (svc : ServiceValue) (m : MethodInfo) :
  deviates svc m → Name m ≠ ""%string → HTTPMethod m ≠ ""%string →
  checkMethod (MethodSet svc) m = inl (ErrInvalidSignature (Name m)).
Proof.
  intros (meth & Hfind & Hbad) Hn Hv. unfold checkMethod.
  apply String.eqb_neq in Hn, Hv. rewrite Hn, Hv. cbn [orb].
  rewrite Hfind, Hbad. reflexivity.
Qed.

Lemma checkMethods_In (ms : list Method) (methods : list MethodInfo) (m : MethodInfo) e :
  In m methods → checkMethod ms m = inl e → ∃ e', checkMethods ms methods = Some e'.
Proof.
  induction methods as [|x rest IH]; intros Hin Hm; [destruct Hin|].
  cbn [checkMethods]. destruct (checkMethod ms x) eqn:Ex; [eauto|].
  destruct Hin as [->|Hin]; [congruence|]. auto.
Qed.

Lemma checkMethods_first (ms : list Method) (pre post : list MethodInfo)
    (m : MethodInfo) e :
  (∀ p, In p pre → ∃ p', checkMethod ms p = inr p') →
  checkMethod ms m = inl e →
  checkMethods ms (pre ++ m :: post) = Some e.
Proof.
  induction pre as [|x pre IH]; intros Hpre Hm.
  - cbn. rewrite Hm. reflexivity.
  - cbn. destruct (Hpre x (or_introl eq_refl)) as [x' ->].
    apply IH; [|exact Hm]. intros p Hp. apply Hpre. right. exact Hp.
Qed.


(** Whatever [getServiceInfo] returns without error is the slice
    [RegisterMethods] gave. *)
Lemma getServiceInfo_inr (service : Service) (methods : list MethodInfo) :
  getServiceInfo service = inr methods →
  ∃ svc, service = Some svc ∧ methods = RegisterMethods svc
         ∧ checkMethods (MethodSet svc) methods = None
         ∧ methods ≠ [].
Proof.
  unfold getServiceInfo. destruct service as [svc|]; [|discriminate].
  destruct (MethodByName _ _) as [rm|]; [|discriminate].
  destruct (_ || _); [discriminate|].
  destruct (checkMethods _ _) eqn:Ec; [discriminate|].
  destruct (RegisterMethods svc) as [|x xs] eqn:Er; [discriminate|].
  cbn. intros [= <-]. exists svc. rewrite Er. repeat split; try assumption.
  discriminate.
Qed.

Lemma checkMethod_accepted (svc : ServiceValue) (m : MethodInfo) :
  (∃ m', checkMethod (MethodSet svc) m = inr m') ↔ accepted svc m.
Proof.
  unfold checkMethod, accepted. split.
  - intros [m' Hc].
    destruct (String.eqb_spec (Name m) "") as [|Hn]; [discriminate Hc|].
    destruct (String.eqb_spec (HTTPMethod m) "") as [|Hv]; [discriminate Hc|].
    cbn [orb] in Hc. split; [exact Hn|]. split; [exact Hv|].
    destruct (MethodByName (MethodSet svc) (Name m)) as [meth|]; [|discriminate Hc].
    exists meth. destruct (badSignature meth); [discriminate Hc | auto].
  - intros (Hn & Hv & meth & Hfind & Hsig).
    apply String.eqb_neq in Hn, Hv. rewrite Hn, Hv, Hfind, Hsig. cbn. eauto.
Qed.

Lemma checkMethods_accepted (svc : ServiceValue) (methods : list MethodInfo) :
  checkMethods (MethodSet svc) methods = None ↔ Forall (accepted svc) methods.
Proof.
  induction methods as [|m rest IH]; cbn [checkMethods].
  - split; [constructor | reflexivity].
  - destruct (checkMethod (MethodSet svc) m) as [e|m'] eqn:Ec.
    + split; [discriminate|]. intros Hall. inversion Hall as [|? ? Hm _]; subst.
      apply checkMethod_accepted in Hm as [m' Hm']. congruence.
    + rewrite IH. split.
      * intros Hrest. constructor; [|exact Hrest].
        apply checkMethod_accepted. eauto.
      * intros Hall. inversion Hall; assumption.
Qed.

(** A rejected entry is rejected with its [entryError]. *)
Lemma checkMethod_inl (svc : ServiceValue) (m : MethodInfo) (e : error) :
  checkMethod (MethodSet svc) m = inl e → e = entryError svc m ∧ ¬ accepted svc m.
Proof.
  intros Hc. split.
  - unfold checkMethod in Hc. unfold entryError.
    destruct (String.eqb (Name m) "" || String.eqb (HTTPMethod m) "");
      [congruence|].
    destruct (MethodByName (MethodSet svc) (Name m)) as [meth|]; [|congruence].
    destruct (badSignature meth); congruence.
  - intros [m' Hm']%checkMethod_accepted. congruence.
Qed.

(** The loop returns the error of the first entry that is not accepted. *)
Lemma checkMethods_Some (svc : ServiceValue) (methods : list MethodInfo) (e : error) :
  checkMethods (MethodSet svc) methods = Some e →
  ∃ pre f post,
    methods = (pre ++ f :: post)%list
    ∧ Forall (accepted svc) pre ∧ ¬ accepted svc f ∧ e = entryError svc f.
Proof.
  induction methods as [|m rest IH]; cbn [checkMethods]; [discriminate|].
  destruct (checkMethod (MethodSet svc) m) as [e'|m'] eqn:Ec.
  - intros [= <-]. destruct (checkMethod_inl svc m e' Ec) as [He Hn].
    exists [], m, rest. repeat split; [constructor | exact Hn | exact He].
  - intros Hrest. destruct (IH Hrest) as (pre & f & post & -> & Hpre & Hf & He).
    exists (m :: pre), f, post. split; [reflexivity|].
    split; [|auto]. constructor; [|exact Hpre].
    apply checkMethod_accepted. eauto.
Qed.

Lemma deviates_not_accepted (svc : ServiceValue) (m : MethodInfo) :
  deviates svc m → ¬ accepted svc m.
Proof.
  intros (meth & Hfind & Hbad) (_ & _ & meth' & Hfind' & Hok). congruence.
Qed.

(** With a well-formed [RegisterMethods], introspection is the loop
    over the declared entries. *)
Lemma getServiceInfo_registerMethodsOK (svc : ServiceValue) :
  registerMethodsOK svc →
  getServiceInfo (Some svc)
  = match checkMethods (MethodSet svc) (RegisterMethods svc) with
    | Some err => inl err
    | None => if Nat.eqb (length (RegisterMethods svc)) 0 then inl ErrNoMethods
              else inr (RegisterMethods svc)
    end.
Proof.
  intros (rm & Hrm & Hin1 & Hout).
  unfold getServiceInfo. rewrite Hrm, Hin1, Hout. cbn [length Nat.eqb negb orb nth_error].
  change (GoType_eqb methodInfoSliceType methodInfoSliceType) with true.
  reflexivity.
Qed.

(** C4, as the code has it: a service whose capability list holds an
    entry whose named method deviates from the required signature is
    rejected whole: [getServiceInfo] returns an error and no descriptor,
    whatever the other entries are.  Without a well-formed
    [RegisterMethods] the error is that of its check.  With one, the
    error is that of the first entry, in declaration order, that is not
    accepted, which is the deviating entry or one before it: the
    empty-name-or-verb error, the method-not-found error or the
    invalid-signature error, as [entryError] tells.  So it is the
    invalid-signature error of the deviating entry when every entry
    before it is accepted and its own name and verb are not empty. *)
Theorem introspection_all_or_nothing (svc : ServiceValue) (m : MethodInfo) :
  In m (RegisterMethods svc) → deviates svc m →
  (∃ e, getServiceInfo (Some svc) = inl e)
  ∧ (¬ registerMethodsOK svc →
     getServiceInfo (Some svc) = inl ErrNoRegisterMethods
     ∨ getServiceInfo (Some svc) = inl ErrRegisterMethodsSignature)
  ∧ (registerMethodsOK svc →
     ∃ pre f post,
       RegisterMethods svc = (pre ++ f :: post)%list
       ∧ Forall (accepted svc) pre ∧ ¬ accepted svc f
       ∧ In m (f :: post)
       ∧ getServiceInfo (Some svc) = inl (entryError svc f))
  ∧ (∀ pre post,
       RegisterMethods svc = (pre ++ m :: post)%list →
       registerMethodsOK svc → Forall (accepted svc) pre →
       Name m ≠ ""%string → HTTPMethod m ≠ ""%string →
       getServiceInfo (Some svc) = inl (ErrInvalidSignature (Name m))).
Proof.
  intros Hin Hdev.
  assert (Hcheck : ∃ e, checkMethods (MethodSet svc) (RegisterMethods svc) = Some e).
  { destruct (checkMethod_deviates svc m Hdev) as [e He].
    exact (checkMethods_In _ _ _ _ Hin He). }
  split; [|split; [|split]].
  - destruct (getServiceInfo (Some svc)) as [e|methods] eqn:E; [eauto|].
    apply getServiceInfo_inr in E as (svc' & [= <-] & -> & Hc & _).
    destruct Hcheck as [e He]. congruence.
  - intros Hnot. unfold getServiceInfo.
    destruct (MethodByName (MethodSet svc) "RegisterMethods") as [rm|] eqn:Erm;
      [|left; reflexivity].
    right.
    destruct (negb (length (meth_In rm) =? 1)%nat
              || negb (length (meth_Out rm) =? 1)%nat
              || match nth_error (meth_Out rm) 0 with
                 | Some t => negb (GoType_eqb t methodInfoSliceType)
                 | None => true
                 end) eqn:Esig; [reflexivity|].
    exfalso. apply Hnot. exists rm. split; [exact Erm|].
    apply orb_false_elim in Esig as [Esig Eout].
    apply orb_false_elim in Esig as [Ein Elen].
    apply negb_false_iff, Nat.eqb_eq in Ein, Elen. split; [exact Ein|].
    destruct (meth_Out rm) as [|t [|? ?]]; try discriminate Elen.
    cbn [nth_error] in Eout. apply negb_false_iff in Eout.
    destruct t as [k name|?|? ?]; cbn in Eout; try discriminate Eout.
    apply andb_prop in Eout as [Hk Hn]. apply String.eqb_eq in Hn. subst name.
    destruct k; try discriminate Hk. reflexivity.
  - intros Hrm. rewrite (getServiceInfo_registerMethodsOK svc Hrm).
    destruct Hcheck as [e He]. rewrite He.
    destruct (checkMethods_Some svc _ e He) as (pre & f & post & Hsplit & Hpre & Hf & ->).
    exists pre, f, post. repeat split; try assumption.
    rewrite Hsplit in Hin. apply in_app_or in Hin as [Hin|Hin]; [|exact Hin].
    exfalso. apply (deviates_not_accepted svc m Hdev).
    rewrite Forall_forall in Hpre. apply Hpre. apply list_elem_of_In. exact Hin.
  - intros pre post Hsplit Hrm Hpre Hn Hv.
    rewrite (getServiceInfo_registerMethodsOK svc Hrm), Hsplit.
    rewrite (checkMethods_first _ pre post m (ErrInvalidSignature (Name m)));
      [reflexivity| |apply checkMethod_invalid_signature; assumption].
    intros p Hp. apply checkMethod_accepted.
    rewrite Forall_forall in Hpre. apply Hpre. apply list_elem_of_In. exact Hp.
Qed.

(** A service that declares [BadMethod() string] between two entries
    that are as they should be: nothing is returned, and the error is
    "invalid signature for method BadMethod". *)
Lemma introspection_all_or_nothing_witness :
  In BadMethodInfo (RegisterMethods HelloThenBadService)
  ∧ deviates HelloThenBadService BadMethodInfo
  ∧ accepted HelloThenBadService HelloInfo
  ∧ accepted HelloThenBadService CreateInfo
  ∧ getServiceInfo (Some HelloThenBadService) = inl (ErrInvalidSignature "BadMethod")
  ∧ Error (ErrInvalidSignature "BadMethod") = "invalid signature for method BadMethod"%string.
Proof.
  assert (Hin : In BadMethodInfo (RegisterMethods HelloThenBadService))
    by (right; left; reflexivity).
  assert (Hdev : deviates HelloThenBadService BadMethodInfo)
    by (exists BadMethod; split; reflexivity).
  assert (Hhello : accepted HelloThenBadService HelloInfo).
  { split; [discriminate|]. split; [discriminate|]. eexists. split; reflexivity. }
  assert (Hcreate : accepted HelloThenBadService CreateInfo).
  { split; [discriminate|]. split; [discriminate|]. eexists. split; reflexivity. }
  split; [exact Hin|]. split; [exact Hdev|]. split; [exact Hhello|].
  split; [exact Hcreate|]. split; [|reflexivity].
  refine (proj2 (proj2 (proj2
            (introspection_all_or_nothing HelloThenBadService BadMethodInfo Hin Hdev)))
            [HelloInfo] [CreateInfo] eq_refl _ _ _ _).
  - exists (registerMethodsMethod InvalidSigServiceType). repeat split.
  - constructor; [exact Hhello | constructor].
  - discriminate.
  - discriminate.
Defined.

(** C4 as stated fails: [MissingThenBadService] declares [BadMethod],
    whose signature deviates, after an entry naming a method the service
    does not have; introspection fails with the method-not-found error,
    not with the invalid-signature one. *)
Lemma introspection_error_is_first_failure :
  In BadMethodInfo (RegisterMethods MissingThenBadService)
  ∧ deviates MissingThenBadService BadMethodInfo
  ∧ getServiceInfo (Some MissingThenBadService) = inl (ErrMethodNotFound "Missing")
  ∧ ¬ (∃ name, getServiceInfo (Some MissingThenBadService)
               = inl (ErrInvalidSignature name)).
Proof.
  split; [right; left; reflexivity|].
  split; [exists BadMethod; split; reflexivity|].
  split; [reflexivity|].
  intros [name Hname]. discriminate Hname.
Qed.


(** The calls that are accepted are bound in their order, each under
    its joined path; the only panic is the router's. *)
Lemma bindCalls_Ok `{Router} (calls : list Route) :
  ∀ routes routes', bindCalls routes calls = Ok routes' →
                    routes' = (routes ++ map bound calls)%list.
Proof.
  induction calls as [|call rest IH]; intros routes routes'; cbn [bindCalls].
  - intros [= <-]. cbn. rewrite app_nil_r. reflexivity.
  - unfold Handle. destruct (addRoute_panics _ _ _); cbn; [discriminate|].
    intros Hrest. rewrite (IH _ _ Hrest), <- app_assoc. reflexivity.
Qed.


Lemma bindCalls_app `{Router} (pre post : list Route) :
  ∀ routes, bindCalls routes (pre ++ post)
            = (routes1 ← bindCalls routes pre; bindCalls routes1 post).
Proof.
  induction pre as [|call pre IH]; intros routes; [reflexivity|].
  cbn [app bindCalls]. destruct (Handle _ _ _ _); cbn; [apply IH | reflexivity].
Qed.

(** The first loop of [registerMethods] makes the calls of its
    descriptors, in their order. *)
Lemma bindRoutes_calls `{Router} (cfg : serviceConfig) (methods : list MethodInfo) :
  ∀ routes, bindRoutes cfg routes methods
            = bindCalls routes (flat_map (routeOf cfg) methods).
Proof.
  induction methods as [|m rest IH]; intros routes; [reflexivity|].
  cbn [bindRoutes flat_map]. rewrite bindCalls_app.
  destruct (bindCalls routes (routeOf cfg m)); cbn; [apply IH | reflexivity].
Qed.

Lemma updateSwaggerDoc_engine `{Fmt} (s s' : Server) (service : Service)
    (prefix : string) (e : option error) :
  updateSwaggerDoc s service prefix = Ok (s', e) → engine s' = engine s.
Proof.
  unfold updateSwaggerDoc. destruct (getServiceInfo service) as [err|info].
  - intros [= <- _]. reflexivity.
  - destruct (_ !! "paths"%string) as [[| | | | |paths]|]; cbn; try discriminate.
    destruct (swaggerLoop _ _ _); cbn; [|discriminate].
    intros [= <- _]. reflexivity.
Qed.

(** The routes a registration that returns has added are those of the
    calls for the slice that was passed to [registerMethods], bound. *)
Lemma registerMethods_engine `{Fmt} `{Router} (s : Server) (methods : list MethodInfo)
    (cfg : serviceConfig) (svc : Service) r :
  registerMethods s methods cfg svc = Ok r →
  engine (fst r) = (engine s ++ map bound (flat_map (routeOf cfg) methods))%list
  ∧ snd r = None.
Proof.
  unfold registerMethods.
  destruct (bindRoutes cfg (engine s) methods) as [routes|] eqn:Eb;
    cbn [mbind Res_bind]; [|discriminate].
  rewrite bindRoutes_calls in Eb. apply bindCalls_Ok in Eb. subst routes.
  destruct (Nat.ltb 0 (length methods)).
  - destruct (updateSwaggerDoc _ _ _) as [[s' e]|] eqn:Eu; cbn; [|discriminate].
    intros [= <-]. cbn. apply updateSwaggerDoc_engine in Eu. rewrite Eu. auto.
  - cbn. intros [= <-]. cbn. auto.
Qed.

(* ===================================================================== *)
(** ** The dispatcher: theorems *)
(* ===================================================================== *)


Lemma Query_missing (c : Request) (key : string) :
  req_query c !! key = None → Query c key = ""%string.
Proof. intros Hq. unfold Query. rewrite Hq. reflexivity. Qed.


(** C5, at the failing input: [Echo] takes a string and is declared on
    POST.  The body ["World"] (a bare JSON string) decodes to [World],
    yet the handler answers nothing: it panics in [reflect], because it
    hands the callable a [*string].  The same callable declared on GET
    answers 200 to [?name=World], and to a request without the
    parameter it answers 200 for the empty name. *)
Theorem string_body_call_panics :
  @ShouldBindJSON testGin (bodyRequest (dquote ++ "World" ++ dquote)) stringType
    = inr (VString "World")
  ∧ @handleMethod testGin EchoInfo (bodyRequest (dquote ++ "World" ++ dquote))
    = Panic CallArgType
  ∧ @handleMethod testGin (set_Func GreetInfo (BoundFunc Hello)) (getRequest "World")
    = Ok {| Status := 200; Body := JSON_Value (VString "Hello, World!") |}
  ∧ @handleMethod testGin (set_Func GreetInfo (BoundFunc Hello)) (bodyRequest "")
    = Ok {| Status := 200; Body := JSON_Value (VString "Hello, !") |}.
Proof. repeat split; vm_compute; reflexivity. Qed.

(** Every 400 the handler answers carries a [gin.H] with the one key
    [error]. *)
Lemma handleMethod_400_errorBody `{Gin} (m : MethodInfo) (c : Request) (resp : Response) :
  handleMethod m c = Ok resp → Status resp = StatusBadRequest →
  ∃ message, errorBody (Body resp) message.
Proof.
  unfold handleMethod. destruct (InputType m) as [t|]; cbn; [|discriminate].
  destruct (decodeInput m t c) as [early|inputVal] eqn:Ed.
  - intros [= <-] _. unfold decodeInput in Ed.
    destruct (TypeKind t);
      repeat match type of Ed with
             | context [if ?b then _ else _] => destruct b
             | context [match ?x with _ => _ end] => destruct x
             end;
      try discriminate Ed; injection Ed as <-; cbn; eexists; apply lookup_insert_eq.
  - destruct (Value_Call _ _) as [results|]; cbn; [|discriminate].
    intros [= <-]. unfold respond. destruct (snd results); cbn; discriminate.
Qed.

(** The bytes of a 500 answer for a message with a double quote in it
    are no JSON text, with whatever fuel they are read. *)
Lemma quoted_error_bytes_invalid :
  ¬ JSON.valid ("{" ++ dquote ++ "error" ++ dquote ++ ":" ++ dquote
                ++ quotedMessage ++ dquote ++ "}").
Proof.
  intros (v & fuel & Hp).
  destruct fuel as [|[|[|fuel]]]; vm_compute in Hp; discriminate Hp.
Qed.

(** C2, at the failing input: the handler's callable returns the error
    [user "bob" not found].  The answer has status 500 and content type
    application/json, and its bytes are the message put between two
    literal halves, quotes unescaped: they are not a JSON text, so there
    is no ["error"] member to read.  The message of the tests,
    [simulated server error], has no such character and gives an object
    whose ["error"] member is the message. *)
Theorem error_body_unescaped :
  (∃ bytes,
     @handleMethod testGin (GetMethodInfo quotedMessage) (getRequest "error")
     = Ok {| Status := 500; Body := Data "application/json" bytes |}
     ∧ ¬ JSON.valid bytes
     ∧ ¬ errorBody (Data "application/json" bytes) quotedMessage)
  ∧ (∃ resp,
       @handleMethod testGin (GetMethodInfo "simulated server error") (getRequest "error")
       = Ok resp
       ∧ Status resp = 500
       ∧ errorBody (Body resp) "simulated server error").
Proof.
  split.
  - eexists. split; [vm_compute; reflexivity|].
    split; [exact quoted_error_bytes_invalid|].
    intros (v & Hv & _). apply quoted_error_bytes_invalid. exists v. exact Hv.
  - eexists. split; [vm_compute; reflexivity|]. split; [reflexivity|].
    eexists. split; [exists 3%nat; vm_compute; reflexivity | reflexivity].
Qed.

(* ===================================================================== *)
(** ** Schema synthesis: theorems *)
(* ===================================================================== *)

Section SchemaTheorems.
Context `{Fmt}.

Lemma schemaAfterDeref_struct (n : string) (fields : list StructField) :
  schemaAfterDeref (TStruct n fields)
  = schemaOf (fst (fieldsLoop fields (∅, []))) (snd (fieldsLoop fields (∅, []))).
Proof.
  cbn [schemaAfterDeref]. unfold fieldsLoop.
  generalize (∅ : gmap string any, [] : list string).
  induction fields as [|f rest IH]; intros st.
  - cbn. destruct st. reflexivity.
  - cbn [fold_left]. apply IH.
Qed.

Lemma generateSchema_struct (n : string) (fields : list StructField) :
  generateSchema (TStruct n fields) = schemaAfterDeref (TStruct n fields).
Proof. reflexivity. Qed.

Lemma TypeKind_Struct (t : GoType) :
  TypeKind t = reflect.Struct → ∃ n fields, t = TStruct n fields.
Proof.
  destruct t as [k name|e|n fields]; cbn; [|discriminate|eauto].
  destruct k; discriminate.
Qed.

Lemma fieldStep_skipped (f : StructField) st :
  serialized f = false → fieldStep schemaAfterDeref f st = st.
Proof.
  unfold serialized, fieldStep. destruct st as [p r].
  destruct (_ || _); [reflexivity | discriminate].
Qed.

Lemma fieldStep_serialized (f : StructField) p r :
  serialized f = true →
  fst (fieldStep schemaAfterDeref f (p, r)) = <[fieldName f := AMap (fieldNode f)]> p.
Proof.
  unfold serialized, fieldStep, fieldNode, fieldName.
  destruct (_ || _); [discriminate|]. intros _. cbn [fst].
  destruct (TypeKind (field_Type f)) eqn:Ek; try reflexivity.
  destruct (TypeKind_Struct _ Ek) as (n & fs & ->). reflexivity.
Qed.

(** The keys of [properties] after the loop: those it had, and the
    serialized names of the fields. *)
Lemma fieldsLoop_keys (fields : list StructField) :
  ∀ st key,
    is_Some (fst (fieldsLoop fields st) !! key)
    ↔ is_Some (fst st !! key)
      ∨ ∃ f, In f fields ∧ serialized f = true ∧ fieldName f = key.
Proof.
  induction fields as [|f rest IH]; intros st key.
  - cbn. split; [auto|]. intros [?|(f & [] & _)]. assumption.
  - change (fieldsLoop (f :: rest) st)
      with (fieldsLoop rest (fieldStep schemaAfterDeref f st)).
    rewrite IH. destruct (serialized f) eqn:Es.
    + destruct st as [p r]. rewrite (fieldStep_serialized f p r Es). cbn [fst].
      rewrite lookup_insert. split.
      * intros [Hk|(g & Hg & Hs & Hn)].
        -- destruct (decide (fieldName f = key)) as [Heq|Hne].
           ++ right. exists f. cbn. auto.
           ++ left. exact Hk.
        -- right. exists g. cbn. auto.
      * intros [Hk|(g & [<-|Hg] & Hs & Hn)].
        -- left. destruct (decide (fieldName f = key)); [eauto | exact Hk].
        -- left. rewrite decide_True by exact Hn. eauto.
        -- right. eauto.
    + rewrite (fieldStep_skipped f st Es). split.
      * intros [Hk|(g & Hg & Hs & Hn)]; [auto|]. right. exists g. cbn. auto.
      * intros [Hk|(g & [<-|Hg] & Hs & Hn)]; [auto| congruence |]. right. eauto.
Qed.

(** Fields that come later leave a key alone unless one of them has it
    as serialized name. *)
Lemma fieldsLoop_other (fields : list StructField) :
  ∀ st key,
    (∀ g, In g fields → serialized g = true → fieldName g ≠ key) →
    fst (fieldsLoop fields st) !! key = fst st !! key.
Proof.
  induction fields as [|f rest IH]; intros st key Hno; [reflexivity|].
  change (fieldsLoop (f :: rest) st)
    with (fieldsLoop rest (fieldStep schemaAfterDeref f st)).
  rewrite IH by (intros g Hg; apply Hno; right; exact Hg).
  destruct (serialized f) eqn:Es.
  - destruct st as [p r]. rewrite (fieldStep_serialized f p r Es). cbn [fst].
    apply lookup_insert_ne. apply Hno; [left; reflexivity | exact Es].
  - rewrite (fieldStep_skipped f st Es). reflexivity.
Qed.

Lemma fieldsLoop_app (pre post : list StructField) st :
  fieldsLoop (pre ++ post) st = fieldsLoop post (fieldsLoop pre st).
Proof. unfold fieldsLoop. apply fold_left_app. Qed.

Lemma apply_rule_other {V : Type} (validateTag key : string)
    (parse : string → option V) (prop : string) (conv : V → any)
    (fs : gmap string any) (k : string) :
  prop ≠ k → apply_rule validateTag key parse prop conv fs !! k = fs !! k.
Proof.
  intros Hne. unfold apply_rule. destruct (Contains validateTag key); [|reflexivity].
  generalize (Split validateTag comma). intros parts. revert fs.
  induction parts as [|part rest IH]; intros fs; [reflexivity|].
  cbn [fold_left]. rewrite IH.
  destruct (HasPrefix part key); [|reflexivity].
  destruct (parse _); [|reflexivity].
  apply lookup_insert_ne. exact Hne.
Qed.

(** The kinds with a documentation type get it as the node's [type]. *)
Lemma scalarFieldSchema_type (k : reflect.Kind) (validateTag ty : string) :
  docType k = Some ty →
  scalarFieldSchema k validateTag !! "type"%string = Some (AString ty).
Proof.
  destruct k; cbn [docType]; try discriminate; intros [= <-];
    cbn [scalarFieldSchema];
    repeat match goal with
           | |- context [if ?b then _ else _] => destruct b
           end;
    repeat first [ rewrite lookup_insert_ne by discriminate
                 | rewrite apply_rule_other by discriminate ];
    apply lookup_insert_eq.
Qed.

Lemma schemaOf_lookups (properties : gmap string any) (required : list string) :
  schemaOf properties required !! "type"%string = Some (AString "object")
  ∧ schemaOf properties required !! "properties"%string = Some (AMap properties).
Proof.
  unfold schemaOf. destruct required; split;
    repeat first [ apply lookup_insert_eq
                 | rewrite lookup_insert_ne by discriminate ].
Qed.

(** C8, as the code has it.  A type that is neither a struct nor a
    pointer yields the node whose [type] is the name of its Go kind.  A
    struct yields an object whose [properties] have exactly the
    serialized names of its fields as keys (a field whose [json] tag is
    empty or ["-"] adds none; the name is the tag up to its first comma);
    the node under a field's name has the type [string] for a string
    field, [integer] for an int, int32 or int64 field, [number] for a
    float32 or float64 field, and is the schema of the field's type for
    a struct field. *)
Theorem generateSchema_fields (n : string) (fields : list StructField) :
  (∀ t, TypeKind t ≠ reflect.Struct → TypeKind t ≠ reflect.Ptr →
        generateSchema t
        = <["type"%string := AString (reflect.Kind_String (TypeKind t))]> ∅)
  ∧ ∃ properties,
      generateSchema (TStruct n fields) !! "type"%string = Some (AString "object")
      ∧ generateSchema (TStruct n fields) !! "properties"%string
        = Some (AMap properties)
      ∧ (∀ key, is_Some (properties !! key)
                ↔ ∃ f, In f fields ∧ serialized f = true ∧ fieldName f = key)
      ∧ (∀ pre f post,
           fields = (pre ++ f :: post)%list → serialized f = true →
           (∀ g, In g post → serialized g = true → fieldName g ≠ fieldName f) →
           ∃ node,
             properties !! fieldName f = Some (AMap node)
             ∧ (∀ ty, docType (TypeKind (field_Type f)) = Some ty →
                      node !! "type"%string = Some (AString ty))
             ∧ (TypeKind (field_Type f) = reflect.Struct →
                node = generateSchema (field_Type f))).
Proof.
  split.
  - intros t Hs Hp. destruct t as [k name|e|m fs]; cbn in *; congruence.
  - exists (fst (fieldsLoop fields (∅, []))).
    rewrite generateSchema_struct, schemaAfterDeref_struct.
    destruct (schemaOf_lookups (fst (fieldsLoop fields (∅, [])))
                (snd (fieldsLoop fields (∅, [])))) as [Ht Hp].
    split; [exact Ht|]. split; [exact Hp|]. split.
    + intros key. rewrite fieldsLoop_keys. cbn [fst]. rewrite lookup_empty.
      split; [intros [[? [=]]|?]; assumption | auto].
    + intros pre f post -> Hs Hlater.
      exists (fieldNode f). split; [|split].
      * rewrite fieldsLoop_app.
        change (fieldsLoop (f :: post) ?st)
          with (fieldsLoop post (fieldStep schemaAfterDeref f st)).
        rewrite fieldsLoop_other by exact Hlater.
        destruct (fieldsLoop pre (∅, [])) as [p r].
        rewrite (fieldStep_serialized f p r Hs). apply lookup_insert_eq.
      * intros ty Hty. unfold fieldNode.
        destruct (TypeKind (field_Type f)) eqn:Ek; try discriminate Hty;
          apply scalarFieldSchema_type; exact Hty.
      * intros Hk. unfold fieldNode. rewrite Hk. reflexivity.
Qed.

End SchemaTheorems.

(* ===================================================================== *)
(** ** Registration and the schema document: theorems *)
(* ===================================================================== *)

Section RegistrationTheorems.
Context `{Fmt} `{Router}.







Lemma pathsOK_insert (paths : gmap string any) (key : string) (item : gmap string any) :
  pathsOK paths → pathsOK (<[key := AMap item]> paths).
Proof.
  intros Hok k v. rewrite lookup_insert. destruct (decide (key = k)).
  - intros [= <-]. eauto.
  - apply Hok.
Qed.



End RegistrationTheorems.

Lemma docOK_NewServer `{Fmt} : docOK NewServer.
Proof.
  split; [eexists; reflexivity|]. split; [eexists; reflexivity|].
  exists ∅. split; [reflexivity|]. intros key v Hl.
  rewrite lookup_empty in Hl. discriminate Hl.
Qed.

Lemma swaggerLoop_pathsOK `{Fmt} (prefix : string) (info : list MethodInfo) :
  ∀ paths paths', pathsOK paths → swaggerLoop prefix paths info = Ok paths' →
                  pathsOK paths'.
Proof.
  induction info as [|m rest IH]; intros paths paths' Hok; cbn [swaggerLoop].
  - intros [= <-]. exact Hok.
  - destruct (swaggerStep prefix paths m) as [paths1|] eqn:Es; cbn; [|discriminate].
    apply IH. unfold swaggerStep in Es.
    destruct (negb _); [injection Es as <-; exact Hok|].
    destruct (paths !! swaggerPath prefix m) as [[| | | | |item]|]; cbn in Es;
      try discriminate Es;
      (destruct (operationOf m); cbn in Es; [|discriminate Es]);
      injection Es as <-; apply pathsOK_insert; exact Hok.
Qed.

(** The document of a server stays well-formed through every
    registration that returns. *)
Lemma RegisterService_docOK `{Fmt} `{Router} (s s' : Server) (service : Service)
    (opts : list ServiceOption) (e : option error) :
  docOK s → RegisterService s service opts = Ok (s', e) → docOK s'.
Proof.
  intros Hdoc. unfold RegisterService.
  destruct (getServiceInfo service) as [err|info] eqn:Hinfo.
  - intros [= <- _]. exact Hdoc.
  - unfold registerMethods.
    destruct (bindRoutes _ (engine s) info) as [routes|]; cbn [mbind Res_bind];
      [|discriminate].
    destruct (Nat.ltb 0 (length info)).
    + unfold updateSwaggerDoc. cbn [swagger engine].
      destruct Hdoc as ([o Ho] & [i Hi] & paths & Hpaths & Hok).
      rewrite Ho, Hi, Hinfo, Hpaths. cbn.
      destruct (swaggerLoop _ paths info) as [paths'|] eqn:Hloop; cbn; [|discriminate].
      intros [= <- _]. split; [|split]; cbn [swagger].
      * rewrite lookup_insert_ne by discriminate. eauto.
      * rewrite lookup_insert_ne by discriminate. eauto.
      * exists paths'. split; [apply lookup_insert_eq|].
        exact (swaggerLoop_pathsOK _ _ _ _ Hok Hloop).
    + cbn. intros [= <- _]. exact Hdoc.
Qed.




(** The example program registers the value [SampleService{}], whose
    method set is empty: introspection fails for want of
    [RegisterMethods].  Registered through a pointer, the service passes
    introspection, which finds the method [Greet] by name and returns
    the entry with the zero [Func] it was declared with; the handler
    then panics on every request. *)
Lemma SampleService_registration :
  getServiceInfo (Some SampleService) = inl ErrNoRegisterMethods
  ∧ getServiceInfo (Some SampleServicePointer) = inr [GreetInfo; CreateUserInfo]
  ∧ (∃ meth, MethodByName (MethodSet SampleServicePointer) "Greet" = Some meth
             ∧ meth_Func meth = MethodFunc (TPtr SampleServiceType) Hello)
  ∧ Func GreetInfo = ZeroValue
  ∧ ∀ name, @handleMethod testGin GreetInfo (getRequest name) = Panic CallOnZeroValue.
Proof.
  split; [reflexivity|]. split; [reflexivity|]. split; [eexists; split; reflexivity|].
  split; [reflexivity|]. intros name. reflexivity.
Qed.




(** [Hello] of [TestService], registered under "/v1": the request
    [?name=Test] is answered with the greeting of [Test], and the
    document has the parameter [name] under get at /v1/Hello. *)
Lemma Hello_scenario :
  @handleMethod testGin HelloInfo (getRequest "Test")
  = Ok {| Status := 200; Body := JSON_Value (VString "Hello, Test!") |}
  ∧ ∃ s' paths item op,
      @RegisterService intFmt exactRouter NewServer (Some TestService)
        [WithPathPrefix "/v1"]
      = Ok (s', None)
      ∧ swagger s' !! "paths"%string = Some (AMap paths)
      ∧ paths !! "/v1/Hello"%string = Some (AMap item)
      ∧ item !! "get"%string = Some (AMap op)
      ∧ op !! "parameters"%string = Some (AMaps [nameParameter])
      ∧ is_Some (paths !! "/v1/Create"%string).
Proof.
  split; [reflexivity|].
  do 4 eexists. repeat match goal with |- _ ∧ _ => split end;
    try reflexivity.
  eexists; reflexivity.
Qed.

(** C8 as stated fails: the node of a boolean field is empty, it has no
    [type] at all, and a boolean (an int, a float64) handed to the
    synthesizer itself gets the name of its Go kind, not a documentation
    type. *)
Lemma boolean_field_has_no_type :
  (∃ properties,
     @generateSchema intFmt FlagType !! "properties"%string = Some (AMap properties)
     ∧ properties !! "enabled"%string = Some (AMap ∅)
     ∧ properties !! "enabled"%string
       ≠ Some (AMap (<["type"%string := AString "boolean"]> ∅)))
  ∧ @generateSchema intFmt boolType = <["type"%string := AString "bool"]> ∅
  ∧ @generateSchema intFmt intType = <["type"%string := AString "int"]> ∅
  ∧ @generateSchema intFmt float64Type = <["type"%string := AString "float64"]> ∅.
Proof.
  split; [|repeat split; reflexivity].
  eexists. split; [reflexivity|]. split; [reflexivity|].
  intros Heq.
  assert (Hnode : (∅ : gmap string (@any intFmt))
                  = <["type"%string := AString "boolean"]> ∅).
  { change (Some (@AMap intFmt ∅)
            = Some (AMap (<["type"%string := AString "boolean"]> ∅))) in Heq.
    congruence. }
  apply (f_equal (fun m => m !! "type"%string)) in Hnode.
  rewrite lookup_empty, lookup_insert_eq in Hnode. discriminate Hnode.
Qed.

(** The schema of [Customer]: the kinds and rules the tests read. *)
Lemma Customer_schema :
  ∃ properties email age score address addressProps,
    @generateSchema intFmt CustomerType !! "properties"%string = Some (AMap properties)
    ∧ properties !! "-"%string = None
    ∧ properties !! ""%string = None
    ∧ @generateSchema intFmt CustomerType !! "required"%string
      = Some (AStrings ["email"%string; "address"%string])
    ∧ properties !! "email"%string = Some (AMap email)
    ∧ email !! "type"%string = Some (AString "string")
    ∧ email !! "format"%string = Some (AString "email")
    ∧ properties !! "age"%string = Some (AMap age)
    ∧ age !! "type"%string = Some (AString "integer")
    ∧ age !! "minimum"%string = Some (AFloat64 (18 : @float64 intFmt))
    ∧ age !! "maximum"%string = Some (AFloat64 (120 : @float64 intFmt))
    ∧ properties !! "score"%string = Some (AMap score)
    ∧ score !! "type"%string = Some (AString "number")
    ∧ properties !! "address"%string = Some (AMap address)
    ∧ address = @generateSchema intFmt AddressType
    ∧ address !! "properties"%string = Some (AMap addressProps)
    ∧ is_Some (addressProps !! "street"%string)
    ∧ is_Some (addressProps !! "city"%string).
Proof.
  do 6 eexists.
  repeat match goal with |- _ ∧ _ => split end;
    first [ reflexivity | eexists; reflexivity ].
Qed.

(** With the default factor 2 the code's delay is the specification's. *)
Lemma backoffDelay_factor2 (cfg : ClientConfig) (attempt : Z) :
  validClientConfig cfg = true → BackoffFactor cfg = 2 → 1 <= attempt <= 6 →
  backoffDelay cfg attempt = specDelay cfg attempt.
Proof.
  intros Hv Hf Ha. rewrite backoffDelay_doubling by assumption.
  unfold specDelay. rewrite Hf. reflexivity.
Qed.

(* ===================================================================== *)
(** ** The 500 body and the client that reads it *)
(* ===================================================================== *)

Lemma string_chars_plain (message rest : string) :
  plainString message = true →
  JSON.string_chars (message ++ dquote ++ rest) = Some (message, rest).
Proof.
  induction message as [|c message IH]; intros Hplain.
  - reflexivity.
  - cbn [plainString] in Hplain. apply andb_prop in Hplain as [Hc Hrest].
    unfold plainChar in Hc. cbv zeta in Hc.
    apply andb_prop in Hc as [Hc H92]. apply andb_prop in Hc as [H32 H34].
    change ((String c message ++ dquote ++ rest)%string)
      with (String c (message ++ dquote ++ rest)%string).
    cbn [JSON.string_chars]. cbv zeta.
    apply negb_true_iff in H34, H92. rewrite H34, H92.
    assert (Hlt : (nat_of_ascii c <? 32)%nat = false).
    { apply Nat.ltb_ge. apply Nat.leb_le. exact H32. }
    rewrite Hlt, (IH Hrest). reflexivity.
Qed.

(** For a message that needs no escape the bytes of the 500 answer are
    the JSON object with the one member [error], of value the message. *)
Lemma respond_plain_message (v : Value) (message : string) :
  plainString message = true →
  Status (respond (v, Some message)) = 500
  ∧ errorBody (Body (respond (v, Some message))) message.
Proof.
  intros Hplain. split; [reflexivity|].
  unfold respond. cbn [snd Body errorBody].
  exists (JSON.JObject [("error"%string, JSON.JString message)]).
  split; [|reflexivity]. exists 3%nat.
  unfold JSON.text.
  change (("{" ++ dquote ++ "error" ++ dquote ++ ":" ++ dquote
           ++ message ++ dquote ++ "}")%string)
    with (String "{" (String (ascii_of_nat 34)
            (String "e" (String "r" (String "r" (String "o" (String "r"
               (String (ascii_of_nat 34) (String ":" (String (ascii_of_nat 34)
                  (message ++ dquote ++ "}")))))))))))%string.
  lazy -[JSON.string_chars String.append dquote].
  match goal with
  | |- context [JSON.string_chars
                  (String "e" (String "r" (String "r" (String "o" (String "r"
                     (String ?q ?rest))))))] =>
      change (JSON.string_chars
                (String "e" (String "r" (String "r" (String "o" (String "r"
                   (String q rest)))))))
        with (Some ("error"%string, rest))
  end.
  lazy -[JSON.string_chars String.append dquote].
  rewrite (string_chars_plain message "}" Hplain).
  reflexivity.
Qed.

(** The error of the tests read by the client of the tests: the handler
    answers 500 with the object, the client retries twice and returns
    "request failed with status 500: simulated server error".  With the
    quoted message the client cannot read the body and reports
    "unknown error". *)
Lemma simulated_server_error_scenario :
  (∃ bytes,
     @handleMethod testGin (GetMethodInfo "simulated server error") (getRequest "error")
     = Ok {| Status := 500; Body := Data "application/json" bytes |}
     ∧ let r := Call testClient (worldOf (always500 bytes)) "GET"
                     "http://localhost/v1/GetMethod?name=error" None (Some stringType) in
       attemptsSent (trace r) = [1; 2; 3]
       ∧ delaysSlept (trace r) = [100; 200]
       ∧ (Error <$> err r)
         = Some "request failed with status 500: simulated server error"%string)
  ∧ (∃ bytes,
       @handleMethod testGin (GetMethodInfo quotedMessage) (getRequest "error")
       = Ok {| Status := 500; Body := Data "application/json" bytes |}
       ∧ (Error <$> err (Call testClient (worldOf (always500 bytes)) "GET"
                           "http://localhost/v1/GetMethod?name=error" None
                           (Some stringType)))
         = Some "request failed with status 500: unknown error"%string).
Proof.
  split; eexists; (split; [vm_compute; reflexivity|]).
  - cbv zeta. repeat split; vm_compute; reflexivity.
  - vm_compute. reflexivity.
Qed.

(** A delay never exceeds the configured maximum, and within the
    validated ranges the delays do not decrease from one attempt to the
    next. *)
Lemma backoffDelay_le_max (cfg : ClientConfig) (attempt : Z) :
  backoffDelay cfg attempt <= BackoffMaxMs cfg.
Proof.
  unfold backoffDelay. destruct (_ >? _) eqn:E; lia.
Qed.

Lemma backoffDelay_monotone (cfg : ClientConfig) (a b : Z) :
  validClientConfig cfg = true → 1 <= a → a <= b → b <= 6 →
  backoffDelay cfg a <= backoffDelay cfg b.
Proof.
  intros Hv Ha Hab Hb.
  rewrite !backoffDelay_doubling by (assumption || lia).
  config_ranges Hv.
  assert (Hpow : 2 ^ (a - 1) <= 2 ^ (b - 1))
    by (apply Z.pow_le_mono_r; lia).
  apply Z.min_le_compat_r. apply Z.mul_le_mono_nonneg_l; lia.
Qed.

(* ===================================================================== *)
(** ** The client: the retry loop in general *)
(* ===================================================================== *)

(** A call that is [ready] is its preflight followed by the loop. *)
Lemma Call_ready (h : HTTPClient) (w : World) (method url : string)
    (input : option Value) (bodyData : option string) (output : option GoType) :
  ready h w method url input bodyData →
  let r := Call h w method url input output in
  let l := attempts h w (ToUpper method) url bodyData output
             (Z.to_nat (MaxRetries (config h) + 1)) 1 in
  trace r = (preflight input ++ trace l)%list ∧ err r = err l ∧ decoded r = decoded l.
Proof.
  intros (Hverb & _ & Hrange & Hin) r l. subst r l. unfold Call.
  assert (Hvalid : isValidHTTPMethod (ToUpper method) = true).
  { apply isValidHTTPMethod_spec. rewrite ToUpper_idem. exact Hverb. }
  rewrite Hvalid. cbn [negb]. cbv iota. rewrite wrap64_small by lia.
  destruct input as [v|].
  - destruct Hin as [Hm [bytes ->]]. cbn [default] in Hm. rewrite Hm.
    cbn. auto.
  - rewrite Hin. cbn. auto.
Qed.

(** Attempts that are [retriable] and not the last each leave their
    [retryEvents], and the loop goes on from the next attempt. *)
Lemma attempts_retry (h : HTTPClient) (w : World) (method url : string)
    (bodyData : option string) (output : option GoType) :
  0 <= MaxRetries (config h) < 2 ^ 63 - 1 →
  NewRequest w method url = None →
  ∀ (n remaining : nat) (a : Z),
    a + Z.of_nat remaining - 1 = MaxRetries (config h) + 1 →
    (n < remaining)%nat →
    (∀ i, a <= i < a + Z.of_nat n → retriable w i = true) →
    let r := attempts h w method url bodyData output remaining a in
    let r' := attempts h w method url bodyData output (remaining - n) (a + Z.of_nat n) in
    trace r = (retriesFrom (config h) w bodyData n a ++ trace r')%list
    ∧ err r = err r' ∧ decoded r = decoded r'.
Proof.
  intros Hrange Hreq n. induction n as [|n IH]; intros remaining a Hlast Hlt Hretry.
  - cbv zeta. rewrite Nat.sub_0_r, Z.add_0_r. cbn. auto.
  - destruct remaining as [|remaining]; [lia|].
    assert (Ha : retriable w a = true) by (apply Hretry; lia).
    specialize (IH remaining (a + 1) ltac:(lia) ltac:(lia)
                  ltac:(intros i Hi; apply Hretry; lia)).
    cbv zeta in IH. destruct IH as (Ht & He & Hd).
    replace (a + 1 + Z.of_nat n) with (a + Z.of_nat (S n)) in * by lia.
    cbv zeta. cbn [attempts retriesFrom Nat.sub]. rewrite Hreq.
    rewrite wrap64_small by lia.
    assert (Hne : (a =? MaxRetries (config h) + 1) = false) by (apply Z.eqb_neq; lia).
    unfold retriable in Ha. unfold retryEvents.
    destruct (Do w a) as [e|code b re].
    + rewrite Hne. cbn. rewrite Ht. auto.
    + apply Z.leb_le in Ha.
      assert (H2xx : (200 <=? code) && (code <? 300) = false).
      { apply andb_false_iff. right. apply Z.ltb_ge. lia. }
      assert (H5 : (code <? 500) = false) by (apply Z.ltb_ge; lia).
      rewrite H2xx, H5, Hne. cbn [orb]. cbv iota.
      destruct (DisableBackoff (config h)); cbn; rewrite Ht; auto.
Qed.

Lemma boundedFrom_nil (cfg : ClientConfig) (a : Z) (limit : nat) :
  boundedFrom cfg a limit [].
Proof. exists 0%nat. cbn. repeat split; auto. lia. Qed.

Lemma boundedFrom_send (cfg : ClientConfig) (a : Z) (limit : nat)
    (body : option string) (t : list Event) :
  boundedFrom cfg (a + 1) limit t → boundedFrom cfg a (S limit) (EvSend a body :: t).
Proof.
  intros (k & Hs & Hk & Hf & Hl & Hd). exists (S k).
  change (attemptsSent (EvSend a body :: t)) with (a :: attemptsSent t).
  change (delaysSlept (EvSend a body :: t)) with (delaysSlept t).
  rewrite Hs. replace (Z.of_nat (S k)) with (Z.succ (Z.of_nat k)) by lia.
  rewrite (seqZ_cons a (Z.succ (Z.of_nat k))) by lia.
  rewrite Z.pred_succ, <- Z.add_1_r.
  split; [reflexivity|]. split; [lia|]. split; [exact Hf|].
  split; [lia | exact Hd].
Qed.

Lemma boundedFrom_send_sleep (cfg : ClientConfig) (a : Z) (limit : nat)
    (body : option string) (t : list Event) :
  DisableBackoff cfg = false →
  boundedFrom cfg (a + 1) limit t →
  boundedFrom cfg a (S limit) (EvSend a body :: EvSleep (backoffDelay cfg a) :: t).
Proof.
  intros Hdis (k & Hs & Hk & Hf & Hl & Hd). exists (S k).
  change (attemptsSent (EvSend a body :: EvSleep (backoffDelay cfg a) :: t))
    with (a :: attemptsSent t).
  change (delaysSlept (EvSend a body :: EvSleep (backoffDelay cfg a) :: t))
    with (backoffDelay cfg a :: delaysSlept t).
  rewrite Hs. replace (Z.of_nat (S k)) with (Z.succ (Z.of_nat k)) by lia.
  rewrite (seqZ_cons a (Z.succ (Z.of_nat k))) by lia.
  rewrite Z.pred_succ, <- Z.add_1_r.
  split; [reflexivity|]. split; [lia|]. split; [|split].
  - constructor; [apply backoffDelay_le_max | exact Hf].
  - cbn [length]. lia.
  - congruence.
Qed.

Lemma attempts_bounded (h : HTTPClient) (w : World) (method url : string)
    (bodyData : option string) (output : option GoType) :
  ∀ remaining a,
    boundedFrom (config h) a remaining
      (trace (attempts h w method url bodyData output remaining a)).
Proof.
  induction remaining as [|remaining IH]; intros a.
  - apply boundedFrom_nil.
  - cbn [attempts]. destruct (NewRequest w method url); [apply boundedFrom_nil|].
    assert (Hstop : ∀ e v, boundedFrom (config h) a (S remaining)
                             (trace (after (EvSend a bodyData) (finish e v)))).
    { intros e v. apply boundedFrom_send, boundedFrom_nil. }
    assert (Hnext : boundedFrom (config h) a (S remaining)
                      (trace (after (EvSend a bodyData)
                         (attempts h w method url bodyData output remaining (a + 1))))).
    { apply boundedFrom_send, IH. }
    destruct (Do w a) as [e|code b re].
    + destruct (a =? _); [apply Hstop | exact Hnext].
    + destruct ((200 <=? code) && (code <? 300)).
      { destruct output as [t|]; [|apply Hstop].
        destruct re; [apply Hstop|]. destruct (Unmarshal w b t); apply Hstop. }
      destruct ((code <? 500) || (a =? _)); [apply Hstop|].
      destruct (DisableBackoff (config h)) eqn:Edis; [exact Hnext|].
      apply boundedFrom_send_sleep; [exact Edis | apply IH].
Qed.

(** X1: the attempts of a call are numbered 1, 2, 3, ... without gap,
    and there are never more than [MaxRetries+1] of them, whatever the
    network answers; every sleep is at most [BackoffMaxMs], there are no
    more sleeps than attempts, and none at all when backoff is disabled. *)
Theorem Call_attempts_bounded (h : HTTPClient) (w : World) (method url : string)
    (input : option Value) (output : option GoType) :
  let r := Call h w method url input output in
  ∃ k : nat,
    attemptsSent (trace r) = seqZ 1 (Z.of_nat k)
    ∧ (k <= Z.to_nat (wrap64 (MaxRetries (config h) + 1)))%nat
    ∧ Forall (fun ms => ms <= BackoffMaxMs (config h)) (delaysSlept (trace r))
    ∧ (length (delaysSlept (trace r)) <= k)%nat
    ∧ (DisableBackoff (config h) = true → delaysSlept (trace r) = []).
Proof.
  cbv zeta. unfold Call.
  destruct (negb (isValidHTTPMethod (ToUpper method)));
    [apply (boundedFrom_nil (config h) 1)|].
  destruct input as [v|]; [|apply attempts_bounded].
  destruct (Marshal w v) as [e|bytes]; [apply (boundedFrom_nil (config h) 1)|].
  apply (attempts_bounded h w (ToUpper method) url (Some bytes) output).
Qed.

Lemma attemptsSent_app (t u : list Event) :
  attemptsSent (t ++ u) = (attemptsSent t ++ attemptsSent u)%list.
Proof. unfold attemptsSent. apply omap_app. Qed.

Lemma delaysSlept_app (t u : list Event) :
  delaysSlept (t ++ u) = (delaysSlept t ++ delaysSlept u)%list.
Proof. unfold delaysSlept. apply omap_app. Qed.

Lemma attemptsSent_preflight (input : option Value) :
  attemptsSent (preflight input) = [] ∧ delaysSlept (preflight input) = [].
Proof. destruct input; split; reflexivity. Qed.

Lemma attemptsSent_retriesFrom (cfg : ClientConfig) (w : World)
    (bodyData : option string) (n : nat) :
  ∀ a, attemptsSent (retriesFrom cfg w bodyData n a) = seqZ a (Z.of_nat n).
Proof.
  induction n as [|n IH]; intros a; [reflexivity|].
  cbn [retriesFrom]. rewrite attemptsSent_app, IH.
  replace (Z.of_nat (S n)) with (Z.succ (Z.of_nat n)) by lia.
  rewrite (seqZ_cons a (Z.succ (Z.of_nat n))) by lia.
  rewrite Z.pred_succ, <- Z.add_1_r. unfold retryEvents.
  destruct (Do w a); [reflexivity|]. destruct (DisableBackoff cfg); reflexivity.
Qed.

Lemma seqZ_snoc (a : Z) (n : nat) :
  (seqZ a (Z.of_nat n) ++ [a + Z.of_nat n])%list = seqZ a (Z.of_nat (S n)).
Proof.
  replace (Z.of_nat (S n)) with (Z.of_nat n + 1) by lia.
  rewrite seqZ_app by lia. reflexivity.
Qed.

(** The error for a terminal status always carries the code and a
    message that is not empty. *)
Lemma statusError_shape (w : World) (code : Z) (bodyBytes : string) :
  ∃ message, statusError w code bodyBytes = ErrStatus code message
             ∧ message ≠ ""%string.
Proof.
  unfold statusError.
  destruct (0 <? String.length bodyBytes)%nat;
    [|exists "unknown error"%string; split; [reflexivity | discriminate]].
  destruct (Unmarshal_map w bodyBytes) as [errResp|];
    [|exists "unknown error"%string; split; [reflexivity | discriminate]].
  destruct (String.eqb_spec (default ""%string (errResp !! "error"%string)) "") as [He|He].
  - exists "unknown error"%string. split; [reflexivity | discriminate].
  - eexists. split; [reflexivity | exact He].
Qed.

(** The shape every terminal case shares: after [n] retried attempts
    the call is decided by attempt [n+1]. *)
Lemma Call_decided_at (h : HTTPClient) (w : World) (method url : string)
    (input : option Value) (bodyData : option string) (output : option GoType)
    (n : nat) :
  ready h w method url input bodyData →
  Z.of_nat n <= MaxRetries (config h) →
  (∀ i, 1 <= i <= Z.of_nat n → retriable w i = true) →
  ∃ remaining,
    let r := Call h w method url input output in
    let l := attempts h w (ToUpper method) url bodyData output (S remaining)
               (1 + Z.of_nat n) in
    1 + Z.of_nat n + Z.of_nat remaining = MaxRetries (config h) + 1
    ∧ trace r = (preflight input ++ retriesFrom (config h) w bodyData n 1 ++ trace l)%list
    ∧ err r = err l ∧ decoded r = decoded l.
Proof.
  intros Hready Hn Hretry.
  destruct (Call_ready h w method url input bodyData output Hready) as (Ht & He & Hd).
  destruct Hready as (_ & Hreq & Hrange & _).
  destruct (attempts_retry h w (ToUpper method) url bodyData output Hrange Hreq
              n (Z.to_nat (MaxRetries (config h) + 1)) 1
              ltac:(lia) ltac:(lia) ltac:(intros i Hi; apply Hretry; lia))
    as (Ht' & He' & Hd').
  exists (Z.to_nat (MaxRetries (config h) + 1) - n - 1)%nat.
  replace (S (Z.to_nat (MaxRetries (config h) + 1) - n - 1))
    with (Z.to_nat (MaxRetries (config h) + 1) - n)%nat by lia.
  cbv zeta. split; [lia|].
  rewrite Ht, He, Hd, Ht', He', Hd'. auto.
Qed.

(** X2: a 2xx answer ends the call at that attempt, after however many
    retried attempts: the trace is the retries followed by that one
    request, with no sleep after it.  With a nil [output] the body is
    not read and the call succeeds; otherwise a read error or a decode
    error is returned as it is, without another attempt even when
    retries remain, and a decoded value is stored. *)
Theorem Call_2xx_ends_call (h : HTTPClient) (w : World) (method url : string)
    (input : option Value) (bodyData : option string) (output : option GoType)
    (n : nat) (code : Z) (bodyBytes : string) (readErr : option string) :
  ready h w method url input bodyData →
  Z.of_nat n <= MaxRetries (config h) →
  (∀ i, 1 <= i <= Z.of_nat n → retriable w i = true) →
  Do w (1 + Z.of_nat n) = HTTPResponse code bodyBytes readErr →
  200 <= code < 300 →
  let r := Call h w method url input output in
  trace r = (preflight input ++ retriesFrom (config h) w bodyData n 1
             ++ [EvSend (1 + Z.of_nat n) bodyData])%list
  ∧ attemptsSent (trace r) = seqZ 1 (Z.of_nat (S n))
  ∧ match output, readErr with
    | None, _ => err r = None ∧ decoded r = None
    | Some _, Some e => err r = Some (ErrReadBody e) ∧ decoded r = None
    | Some t, None =>
        match Unmarshal w bodyBytes t with
        | inl e => err r = Some (ErrUnmarshalResponse e) ∧ decoded r = None
        | inr v => err r = None ∧ decoded r = Some v
        end
    end.
Proof.
  intros Hready Hn Hretry Hdo Hcode.
  destruct (Call_decided_at h w method url input bodyData output n Hready Hn Hretry)
    as (remaining & _ & Ht & He & Hd).
  destruct Hready as (_ & Hreq & _ & _).
  cbv zeta in *. cbn [attempts] in Ht, He, Hd. rewrite Hreq, Hdo in Ht, He, Hd.
  assert (H2xx : (200 <=? code) && (code <? 300) = true).
  { apply andb_true_intro. split; [apply Z.leb_le | apply Z.ltb_lt]; lia. }
  rewrite H2xx in Ht, He, Hd.
  assert (Htrace : trace (Call h w method url input output)
                   = (preflight input ++ retriesFrom (config h) w bodyData n 1
                      ++ [EvSend (1 + Z.of_nat n) bodyData])%list).
  { rewrite Ht. do 2 f_equal.
    destruct output as [t|]; [|reflexivity].
    destruct readErr; [reflexivity|]. destruct (Unmarshal w bodyBytes t); reflexivity. }
  split; [exact Htrace|]. split.
  - rewrite Htrace, !attemptsSent_app, attemptsSent_retriesFrom.
    rewrite (proj1 (attemptsSent_preflight input)). cbn [app].
    change (attemptsSent [EvSend (1 + Z.of_nat n) bodyData]) with [1 + Z.of_nat n].
    apply seqZ_snoc.
  - rewrite He, Hd. destruct output as [t|]; [|split; reflexivity].
    destruct readErr; [split; reflexivity|].
    destruct (Unmarshal w bodyBytes t); split; reflexivity.
Qed.

(** A transport failure, then 503, then 200 with a body: the third
    attempt succeeds, one sleep of 200 ms lies between the second and
    the third (none after the transport failure), and the body is
    decoded. *)
Lemma Call_2xx_ends_call_witness :
  ready testClient (worldOf (flakyThen 200 "ok")) "get" "http://example.com" None None
  ∧ trace (Call testClient (worldOf (flakyThen 200 "ok")) "get" "http://example.com"
             None (Some stringType))
    = [EvSend 1 None; EvSend 2 None; EvSleep 200; EvSend 3 None]
  ∧ decoded (Call testClient (worldOf (flakyThen 200 "ok")) "get" "http://example.com"
               None (Some stringType))
    = Some (VString "ok").
Proof.
  assert (Hready : ready testClient (worldOf (flakyThen 200 "ok")) "get"
                     "http://example.com" None None).
  { split; [simpl; auto|]. split; [reflexivity|]. split; [cbn; lia | reflexivity]. }
  split; [exact Hready|].
  destruct (Call_2xx_ends_call testClient (worldOf (flakyThen 200 "ok")) "get"
              "http://example.com" None None (Some stringType) 2 200 "ok" None
              Hready ltac:(cbn; lia)) as (Ht & _ & Hres).
  - intros i Hi. assert (i = 1 ∨ i = 2) as [-> | ->] by lia; reflexivity.
  - reflexivity.
  - lia.
  - split; [exact Ht | exact (proj2 Hres)].
Defined.

(** X3: a status below 500 that is not 2xx ends the call at that
    attempt, even when retries remain: nothing is sent or slept after
    it, nothing is decoded, and the error carries the status code with
    a message that is never empty (the body's error member, or
    unknown error). *)
Theorem Call_status_below_500_is_final (h : HTTPClient) (w : World)
    (method url : string) (input : option Value) (bodyData : option string)
    (output : option GoType) (n : nat) (code : Z) (bodyBytes : string)
    (readErr : option string) :
  ready h w method url input bodyData →
  Z.of_nat n <= MaxRetries (config h) →
  (∀ i, 1 <= i <= Z.of_nat n → retriable w i = true) →
  Do w (1 + Z.of_nat n) = HTTPResponse code bodyBytes readErr →
  code < 500 → ¬ (200 <= code < 300) →
  let r := Call h w method url input output in
  trace r = (preflight input ++ retriesFrom (config h) w bodyData n 1
             ++ [EvSend (1 + Z.of_nat n) bodyData])%list
  ∧ decoded r = None
  ∧ err r = Some (statusError w code bodyBytes)
  ∧ ∃ message, err r = Some (ErrStatus code message) ∧ message ≠ ""%string.
Proof.
  intros Hready Hn Hretry Hdo Hlt Hnot.
  destruct (Call_decided_at h w method url input bodyData output n Hready Hn Hretry)
    as (remaining & _ & Ht & He & Hd).
  destruct Hready as (_ & Hreq & _ & _).
  cbv zeta in *. cbn [attempts] in Ht, He, Hd. rewrite Hreq, Hdo in Ht, He, Hd.
  assert (H2xx : (200 <=? code) && (code <? 300) = false).
  { apply andb_false_iff. destruct (Z.leb_spec 200 code); [right | left; reflexivity].
    apply Z.ltb_ge. lia. }
  assert (H5 : (code <? 500) = true) by (apply Z.ltb_lt; lia).
  rewrite H2xx, H5 in Ht, He, Hd. cbn [orb] in Ht, He, Hd.
  split; [exact Ht|]. split; [exact Hd|]. split; [exact He|].
  destruct (statusError_shape w code bodyBytes) as (message & Hm & Hne).
  exists message. split; [rewrite He, Hm; reflexivity | exact Hne].
Qed.

(** After a transport failure and a 503, a 404 with an empty body:
    [defaultClient] allows four attempts, and the call ends at the
    third. *)
Lemma Call_status_below_500_is_final_witness :
  ready defaultClient (worldOf (flakyThen 404 "")) "delete" "http://example.com" None None
  ∧ trace (Call defaultClient (worldOf (flakyThen 404 "")) "delete"
             "http://example.com" None None)
    = [EvSend 1 None; EvSend 2 None; EvSleep 200; EvSend 3 None]
  ∧ err (Call defaultClient (worldOf (flakyThen 404 "")) "delete"
           "http://example.com" None None)
    = Some (ErrStatus 404 "unknown error").
Proof.
  assert (Hready : ready defaultClient (worldOf (flakyThen 404 "")) "delete"
                     "http://example.com" None None).
  { split; [simpl; auto 10|]. split; [reflexivity|]. split; [cbn; lia | reflexivity]. }
  split; [exact Hready|].
  destruct (Call_status_below_500_is_final defaultClient (worldOf (flakyThen 404 ""))
              "delete" "http://example.com" None None None 2 404 "" None
              Hready ltac:(cbn; lia)) as (Ht & _ & He & _).
  - intros i Hi. assert (i = 1 ∨ i = 2) as [-> | ->] by lia; reflexivity.
  - reflexivity.
  - lia.
  - lia.
  - split; [exact Ht | exact He].
Defined.

(** X4: when every one of the [MaxRetries+1] attempts fails in the
    transport or is answered with a status of 500 or more, the call
    makes exactly those attempts, sleeps after each answered attempt
    but the last (never after a transport failure, and not at all when
    [DisableBackoff] is set), and returns the outcome of the last
    attempt: the transport error wrapped as request failed, or the
    status error of the last response. *)
Theorem Call_retries_exhausted (h : HTTPClient) (w : World) (method url : string)
    (input : option Value) (bodyData : option string) (output : option GoType) :
  ready h w method url input bodyData →
  (∀ i, 1 <= i <= MaxRetries (config h) + 1 → retriable w i = true) →
  let r := Call h w method url input output in
  let N := MaxRetries (config h) in
  trace r = (preflight input ++ retriesFrom (config h) w bodyData (Z.to_nat N) 1
             ++ [EvSend (N + 1) bodyData])%list
  ∧ attemptsSent (trace r) = seqZ 1 (N + 1)
  ∧ decoded r = None
  ∧ err r = Some match Do w (N + 1) with
                 | TransportError e => ErrRequestFailed e
                 | HTTPResponse code bodyBytes _ => statusError w code bodyBytes
                 end.
Proof.
  intros Hready Hretry.
  assert (Hrange : 0 <= MaxRetries (config h) < 2 ^ 63 - 1) by apply Hready.
  destruct (Call_decided_at h w method url input bodyData output
              (Z.to_nat (MaxRetries (config h))) Hready ltac:(lia)
              ltac:(intros i Hi; apply Hretry; lia))
    as (remaining & Hrem & Ht & He & Hd).
  assert (Hlast := Hretry (MaxRetries (config h) + 1) ltac:(lia)).
  destruct Hready as (_ & Hreq & _ & _).
  cbv zeta in *. rewrite Z2Nat.id in * by lia.
  replace (1 + MaxRetries (config h)) with (MaxRetries (config h) + 1) in * by lia.
  cbn [attempts] in Ht, He, Hd. rewrite Hreq in Ht, He, Hd.
  rewrite wrap64_small in Ht, He, Hd by lia.
  rewrite Z.eqb_refl in Ht, He, Hd.
  unfold retriable in Hlast.
  assert (Hsent : ∀ t : list Event,
            t = (preflight input
                 ++ retriesFrom (config h) w bodyData
                      (Z.to_nat (MaxRetries (config h))) 1
                 ++ [EvSend (MaxRetries (config h) + 1) bodyData])%list →
            attemptsSent t = seqZ 1 (MaxRetries (config h) + 1)).
  { intros t ->. rewrite !attemptsSent_app, attemptsSent_retriesFrom.
    rewrite (proj1 (attemptsSent_preflight input)). cbn [app].
    change (attemptsSent [EvSend (MaxRetries (config h) + 1) bodyData])
      with [MaxRetries (config h) + 1].
    replace (MaxRetries (config h) + 1)
      with (1 + Z.of_nat (Z.to_nat (MaxRetries (config h)))) at 1 by lia.
    rewrite seqZ_snoc. f_equal. lia. }
  destruct (Do w (MaxRetries (config h) + 1)) as [e|code b re].
  - cbn in Ht, He, Hd. auto.
  - apply Z.leb_le in Hlast.
    assert (H2xx : (200 <=? code) && (code <? 300) = false).
    { apply andb_false_iff. right. apply Z.ltb_ge. lia. }
    rewrite H2xx, orb_true_r in Ht, He, Hd. cbn in Ht, He, Hd. auto.
Qed.

(** A server that cannot be reached: three attempts, no sleep between
    them, and the transport error of the third. *)
Lemma Call_retries_exhausted_witness :
  ready testClient (worldOf unreachable) "POST" "http://example.com"
        (Some (VString "x")) (Some "{}"%string)
  ∧ trace (Call testClient (worldOf unreachable) "POST" "http://example.com"
             (Some (VString "x")) None)
    = [EvMarshal; EvSend 1 (Some "{}"%string); EvSend 2 (Some "{}"%string);
       EvSend 3 (Some "{}"%string)]
  ∧ err (Call testClient (worldOf unreachable) "POST" "http://example.com"
           (Some (VString "x")) None)
    = Some (ErrRequestFailed "connection refused").
Proof.
  assert (Hready : ready testClient (worldOf unreachable) "POST" "http://example.com"
                     (Some (VString "x")) (Some "{}"%string)).
  { split; [simpl; auto|]. split; [reflexivity|]. split; [cbn; lia|].
    split; [reflexivity | eexists; reflexivity]. }
  split; [exact Hready|].
  destruct (Call_retries_exhausted testClient (worldOf unreachable) "POST"
              "http://example.com" (Some (VString "x")) (Some "{}"%string) None
              Hready ltac:(intros; reflexivity)) as (Ht & _ & _ & He).
  split; [exact Ht | exact He].
Defined.

Lemma NewHTTPClient_valid (c : gmap string ConfigValue) (h : HTTPClient) :
  NewHTTPClient c = Some h → validClientConfig (config h) = true.
Proof.
  unfold NewHTTPClient. destruct (validClientConfig _) eqn:E; [|discriminate].
  intros [= <-]. exact E.
Qed.

Lemma statusError_not_all_failed (w : World) (code : Z) (bodyBytes : string) :
  statusError w code bodyBytes ≠ ErrAllRetriesFailed.
Proof.
  destruct (statusError_shape w code bodyBytes) as (message & -> & _). discriminate.
Qed.

(** While the loop has an attempt left, it does not fall through to the
    return after it. *)
Lemma attempts_not_all_failed (h : HTTPClient) (w : World) (method url : string)
    (bodyData : option string) (output : option GoType) :
  0 <= MaxRetries (config h) < 2 ^ 63 - 1 →
  ∀ remaining a,
    a + Z.of_nat remaining - 1 = MaxRetries (config h) + 1 →
    (0 < remaining)%nat →
    err (attempts h w method url bodyData output remaining a)
    ≠ Some ErrAllRetriesFailed.
Proof.
  intros Hrange. induction remaining as [|remaining IH]; intros a Hlast Hpos; [lia|].
  cbn [attempts]. destruct (NewRequest w method url); [discriminate|].
  rewrite wrap64_small by lia. cbn [after err].
  assert (Hnext : (a =? MaxRetries (config h) + 1) = false →
            err (attempts h w method url bodyData output remaining (a + 1))
            ≠ Some ErrAllRetriesFailed).
  { intros Hne%Z.eqb_neq. apply IH; lia. }
  destruct (Do w a) as [e|code b re].
  - destruct (a =? _); [discriminate | auto].
  - destruct ((200 <=? code) && (code <? 300)).
    { destruct output as [t|]; [|discriminate].
      destruct re; [discriminate|]. destruct (Unmarshal w b t); discriminate. }
    destruct (code <? 500); cbn [orb].
    { cbn. intros [= Hs]. exact (statusError_not_all_failed _ _ _ Hs). }
    destruct (a =? _).
    { cbn. intros [= Hs]. exact (statusError_not_all_failed _ _ _ Hs). }
    destruct (DisableBackoff (config h)); cbn [after err]; auto.
Qed.

(** X5: a client built by [NewHTTPClient] never returns the error after
    the loop, all retry attempts failed: its configuration has
    [0 <= MaxRetries], so the loop runs and its last attempt returns on
    every path.  Whatever fails, the error names what failed last. *)
Theorem all_retries_failed_unreachable (c : gmap string ConfigValue) (h : HTTPClient)
    (w : World) (method url : string) (input : option Value) (output : option GoType) :
  NewHTTPClient c = Some h →
  err (Call h w method url input output) ≠ Some ErrAllRetriesFailed.
Proof.
  intros Hv%NewHTTPClient_valid. config_ranges Hv.
  assert (Hrange : 0 <= MaxRetries (config h) < 2 ^ 63 - 1) by lia.
  unfold Call. destruct (negb _); [discriminate|].
  rewrite wrap64_small by lia.
  destruct input as [v|].
  - cbn [after err]. destruct (Marshal w v); [discriminate|].
    apply attempts_not_all_failed; [exact Hrange | lia | lia].
  - apply attempts_not_all_failed; [exact Hrange | lia | lia].
Qed.

Lemma all_retries_failed_unreachable_witness :
  NewHTTPClient ∅ = Some defaultClient
  ∧ err (Call defaultClient (worldOf unreachable) "GET" "http://example.com" None None)
    ≠ Some ErrAllRetriesFailed.
Proof.
  split; [reflexivity|].
  apply (all_retries_failed_unreachable ∅ defaultClient (worldOf unreachable)
           "GET" "http://example.com" None None).
  reflexivity.
Defined.

(** X6: a call that fails before its first request sends nothing and
    does not sleep.  An input that does not marshal ends the call with
    the marshal error; a request that cannot be built ends it at the
    first attempt with the create-request error, and is not retried
    although retries are configured. *)
Theorem Call_fails_before_first_request (h : HTTPClient) (w : World)
    (method url : string) (input : option Value) (output : option GoType) :
  In (ToUpper method) validMethods →
  0 <= MaxRetries (config h) < 2 ^ 63 - 1 →
  let r := Call h w method url input output in
  (∀ v e, input = Some v → Marshal w v = inl e →
     trace r = [EvMarshal] ∧ err r = Some (ErrMarshalInput e) ∧ decoded r = None)
  ∧ (∀ e, NewRequest w (ToUpper method) url = Some e →
       match input with Some v => ∃ bytes, Marshal w v = inr bytes
                      | None => True end →
       trace r = preflight input ∧ err r = Some (ErrCreateRequest e)
       ∧ decoded r = None).
Proof.
  intros Hverb Hrange. cbv zeta. unfold Call.
  assert (Hvalid : isValidHTTPMethod (ToUpper method) = true).
  { apply isValidHTTPMethod_spec. rewrite ToUpper_idem. exact Hverb. }
  rewrite Hvalid. cbn [negb]. cbv iota. rewrite wrap64_small by lia.
  assert (Hloop : ∀ bodyData e, NewRequest w (ToUpper method) url = Some e →
            attempts h w (ToUpper method) url bodyData output
              (Z.to_nat (MaxRetries (config h) + 1)) 1
            = finish (Some (ErrCreateRequest e)) None).
  { intros bodyData e Hreq.
    replace (Z.to_nat (MaxRetries (config h) + 1))
      with (S (Z.to_nat (MaxRetries (config h)))) by lia.
    cbn [attempts]. rewrite Hreq. reflexivity. }
  split.
  - intros v e -> Hm. rewrite Hm. cbn. auto.
  - intros e Hreq Hin. destruct input as [v|].
    + destruct Hin as [bytes ->].
      rewrite (Hloop _ _ Hreq). cbn. auto.
    + rewrite (Hloop _ _ Hreq). cbn. auto.
Qed.

Lemma Call_fails_before_first_request_witness :
  In (ToUpper "put") validMethods
  ∧ trace (Call testClient (unmarshalable "unsupported type") "put" "http://example.com"
             (Some (VOther (TScalar reflect.Chan "chan int") "ch")) None)
    = [EvMarshal]
  ∧ err (Call testClient (unbuildable "invalid URL") "put" "http://example.com"
           None None)
    = Some (ErrCreateRequest "invalid URL").
Proof.
  assert (Hverb : In (ToUpper "put") validMethods) by (simpl; auto).
  split; [exact Hverb|]. split.
  - exact (proj1 (proj1 (Call_fails_before_first_request testClient
             (unmarshalable "unsupported type") "put" "http://example.com"
             (Some (VOther (TScalar reflect.Chan "chan int") "ch")) None Hverb ltac:(cbn; lia))
             (VOther (TScalar reflect.Chan "chan int") "ch") "unsupported type"
             eq_refl eq_refl)).
  - exact (proj1 (proj2 (proj2 (Call_fails_before_first_request testClient
             (unbuildable "invalid URL") "put" "http://example.com"
             None None Hverb ltac:(cbn; lia)) "invalid URL" eq_refl I))).
Defined.

(** The sleeps of the loop follow attempts that are not the last: there
    are fewer of them than attempts left, and each is the delay of such
    an attempt. *)
Lemma attempts_sleeps (h : HTTPClient) (w : World) (method url : string)
    (bodyData : option string) (output : option GoType) :
  0 <= MaxRetries (config h) < 2 ^ 63 - 1 →
  ∀ remaining a,
    a + Z.of_nat remaining - 1 = MaxRetries (config h) + 1 →
    (0 < remaining)%nat →
    let t := trace (attempts h w method url bodyData output remaining a) in
    (length (delaysSlept t) < remaining)%nat
    ∧ Forall (fun ms => ∃ i, a <= i <= MaxRetries (config h)
                             ∧ ms = backoffDelay (config h) i) (delaysSlept t).
Proof.
  intros Hrange. induction remaining as [|remaining IH]; intros a Hlast Hpos; [lia|].
  cbv zeta. cbn [attempts].
  destruct (NewRequest w method url); [cbn; split; [lia | constructor]|].
  rewrite wrap64_small by lia.
  assert (Hstop : ∀ e v,
            (length (delaysSlept (trace (after (EvSend a bodyData) (finish e v))))
             < S remaining)%nat
            ∧ Forall (fun ms => ∃ i, a <= i <= MaxRetries (config h)
                                     ∧ ms = backoffDelay (config h) i)
                (delaysSlept (trace (after (EvSend a bodyData) (finish e v))))).
  { intros e v. cbn. split; [lia | constructor]. }
  assert (Hnext : (a =? MaxRetries (config h) + 1) = false →
            (length (delaysSlept
               (trace (attempts h w method url bodyData output remaining (a + 1))))
             < remaining)%nat
            ∧ Forall (fun ms => ∃ i, a <= i <= MaxRetries (config h)
                                     ∧ ms = backoffDelay (config h) i)
                (delaysSlept
                   (trace (attempts h w method url bodyData output remaining (a + 1))))).
  { intros Hne%Z.eqb_neq. destruct (IH (a + 1) ltac:(lia) ltac:(lia)) as [Hl Hf].
    split; [exact Hl|]. eapply Forall_impl; [exact Hf|].
    intros ms (i & Hi & ->). exists i. split; [lia | reflexivity]. }
  destruct (Do w a) as [e|code b re].
  - destruct (a =? _) eqn:E; [apply Hstop|].
    destruct (Hnext eq_refl) as [Hl Hf].
    change (delaysSlept (trace (after (EvSend a bodyData) ?r)))
      with (delaysSlept (trace r)).
    split; [lia | exact Hf].
  - destruct ((200 <=? code) && (code <? 300)).
    { destruct output as [t|]; [|apply Hstop].
      destruct re; [apply Hstop|]. destruct (Unmarshal w b t); apply Hstop. }
    destruct (code <? 500); cbn [orb]; [apply Hstop|].
    destruct (a =? _) eqn:E; [apply Hstop|].
    destruct (Hnext eq_refl) as [Hl Hf].
    assert (Hne : a ≠ MaxRetries (config h) + 1) by (apply Z.eqb_neq; exact E).
    destruct (DisableBackoff (config h)).
    + change (delaysSlept (trace (after (EvSend a bodyData) ?r)))
        with (delaysSlept (trace r)).
      split; [lia | exact Hf].
    + change (delaysSlept (trace (after (EvSend a bodyData) (after (EvSleep ?d) ?r))))
        with (d :: delaysSlept (trace r)).
      split; [cbn [length]; lia|]. constructor; [|exact Hf].
      exists a. split; [lia | reflexivity].
Qed.

Lemma backoffDelay_range (cfg : ClientConfig) (attempt : Z) :
  validClientConfig cfg = true → 1 <= attempt <= 6 →
  50 <= backoffDelay cfg attempt <= 5000.
Proof.
  intros Hv Ha. rewrite backoffDelay_doubling by assumption. config_ranges Hv.
  assert (1 <= 2 ^ (attempt - 1)) by (apply Z.pow_le_mono_r with (b := 0); lia).
  split; [apply Z.min_glb; nia | etransitivity; [apply Z.le_min_r | lia]].
Qed.

(** X7: for a client built by [NewHTTPClient], whatever the network
    answers, a call sends at most [MaxRetries+1] requests, which is at
    most 6, sleeps at most [MaxRetries] times, which is at most 5, and
    every sleep lasts between 50 and 5000 milliseconds. *)
Theorem NewHTTPClient_Call_bounds (c : gmap string ConfigValue) (h : HTTPClient)
    (w : World) (method url : string) (input : option Value) (output : option GoType) :
  NewHTTPClient c = Some h →
  let t := trace (Call h w method url input output) in
  (length (attemptsSent t) <= Z.to_nat (MaxRetries (config h)) + 1 <= 6)%nat
  ∧ (length (delaysSlept t) <= Z.to_nat (MaxRetries (config h)) <= 5)%nat
  ∧ Forall (fun ms => 50 <= ms <= 5000) (delaysSlept t).
Proof.
  intros Hv%NewHTTPClient_valid. pose proof Hv as Hcfg. config_ranges Hv.
  assert (Hrange : 0 <= MaxRetries (config h) < 2 ^ 63 - 1) by lia.
  assert (Hloop : ∀ bodyData,
            let t := trace (attempts h w (ToUpper method) url bodyData output
                              (Z.to_nat (MaxRetries (config h) + 1)) 1) in
            (length (attemptsSent t) <= Z.to_nat (MaxRetries (config h)) + 1)%nat
            ∧ (length (delaysSlept t) <= Z.to_nat (MaxRetries (config h)))%nat
            ∧ Forall (fun ms => 50 <= ms <= 5000) (delaysSlept t)).
  { intros bodyData. cbv zeta.
    destruct (attempts_bounded h w (ToUpper method) url bodyData output
                (Z.to_nat (MaxRetries (config h) + 1)) 1) as (k & Hs & Hk & _).
    destruct (attempts_sleeps h w (ToUpper method) url bodyData output Hrange
                (Z.to_nat (MaxRetries (config h) + 1)) 1 ltac:(lia) ltac:(lia))
      as [Hl Hf].
    split; [rewrite Hs, length_seqZ; lia|]. split; [lia|].
    eapply Forall_impl; [exact Hf|].
    intros ms (i & Hi & ->). apply backoffDelay_range; [exact Hcfg | lia]. }
  cbv zeta. unfold Call. destruct (negb _).
  { cbn. split; [lia|]. split; [lia | constructor]. }
  rewrite wrap64_small by lia.
  destruct input as [v|].
  - destruct (Marshal w v) as [e|bytes].
    { cbn. split; [lia|]. split; [lia | constructor]. }
    destruct (Hloop (Some bytes)) as (Ha & Hl & Hf). cbn [after trace].
    change (attemptsSent (EvMarshal :: ?t)) with (attemptsSent t).
    change (delaysSlept (EvMarshal :: ?t)) with (delaysSlept t).
    split; [lia|]. split; [lia | exact Hf].
  - destruct (Hloop None) as (Ha & Hl & Hf).
    split; [lia|]. split; [lia | exact Hf].
Qed.

Lemma NewHTTPClient_Call_bounds_witness :
  NewHTTPClient ∅ = Some defaultClient
  ∧ (length (attemptsSent (trace (Call defaultClient (worldOf always503) "GET"
                                    "http://example.com" None None))) <= 6)%nat.
Proof.
  split; [reflexivity|].
  pose proof (NewHTTPClient_Call_bounds ∅ defaultClient (worldOf always503) "GET"
                "http://example.com" None None eq_refl) as (Ha & _).
  cbv zeta in Ha. lia.
Defined.

(** A key whose value a getter does not use reads as if it were absent. *)
Lemma getIntConfig_delete (c : gmap string ConfigValue) (key : string)
    (v : ConfigValue) (k : string) (d : Z) :
  c !! key = Some v → usedAt key v = false → In k intKeys →
  getIntConfig (delete key c) k d = getIntConfig c k d.
Proof.
  intros Hv Hu Hk. unfold getIntConfig.
  destruct (decide (k = key)) as [->|Hne].
  - rewrite lookup_delete_eq, Hv. destruct v as [n| |]; try reflexivity.
    cbn [usedAt] in Hu.
    assert (Ht : existsb (String.eqb key) intKeys = true).
    { apply existsb_exists. exists key. split; [exact Hk | apply String.eqb_refl]. }
    congruence.
  - rewrite lookup_delete_ne by congruence. reflexivity.
Qed.

Lemma getBoolConfig_delete (c : gmap string ConfigValue) (key : string)
    (v : ConfigValue) (k : string) (d : bool) :
  c !! key = Some v → usedAt key v = false → In k boolKeys →
  getBoolConfig (delete key c) k d = getBoolConfig c k d.
Proof.
  intros Hv Hu Hk. unfold getBoolConfig.
  destruct (decide (k = key)) as [->|Hne].
  - rewrite lookup_delete_eq, Hv. destruct v as [|b|]; try reflexivity.
    cbn [usedAt] in Hu.
    assert (Ht : existsb (String.eqb key) boolKeys = true).
    { apply existsb_exists. exists key. split; [exact Hk | apply String.eqb_refl]. }
    congruence.
  - rewrite lookup_delete_ne by congruence. reflexivity.
Qed.

(** X8: a configuration value of the wrong type is not an error: a
    string anywhere, a bool under a key read as int, an int under a key
    read as bool, or any value under a key the client does not read, is
    ignored, and [NewHTTPClient] gives what it gives without that key
    (the default takes its place). *)
Theorem NewHTTPClient_ignores_mistyped (c : gmap string ConfigValue) (key : string)
    (v : ConfigValue) :
  c !! key = Some v → usedAt key v = false →
  NewHTTPClient c = NewHTTPClient (delete key c).
Proof.
  intros Hv Hu. unfold NewHTTPClient.
  rewrite !(getIntConfig_delete c key v) by (assumption || (simpl; auto 10)).
  rewrite !(getBoolConfig_delete c key v) by (assumption || (simpl; auto 10)).
  reflexivity.
Qed.

(** A retry count given as the string 5 is not read: the client has
    the default of three retries. *)
Lemma NewHTTPClient_ignores_mistyped_witness :
  retriesAsString !! "http_client_max_retries"%string = Some (CString "5")
  ∧ NewHTTPClient retriesAsString = Some defaultClient.
Proof.
  split; [reflexivity|].
  rewrite (NewHTTPClient_ignores_mistyped retriesAsString "http_client_max_retries"
             (CString "5") eq_refl eq_refl).
  reflexivity.
Defined.

(* ===================================================================== *)
(** ** Schema synthesis: the rules of the [validate] tag *)
(* ===================================================================== *)

Lemma prefix_nil (s : string) : String.prefix "" s = true.
Proof. destruct s; reflexivity. Qed.

Lemma prefix_of_piece (sep : ascii) (s : string) :
  ∀ key piece rest,
    Split s sep = piece :: rest → String.prefix key piece = true →
    String.prefix key s = true.
Proof.
  induction s as [|c s IH]; intros key piece rest; cbn [Split].
  - intros [= <- _]. exact id.
  - destruct (Ascii.eqb c sep).
    + intros [= <- _]. destruct key; [intros _; apply prefix_nil | discriminate].
    + destruct (Split s sep) as [|p r] eqn:Es.
      * intros [= <- _]. destruct key as [|a key]; [intros _; apply prefix_nil|]. cbn.
        destruct (Ascii.ascii_dec a c); [|exact id].
        destruct key; [intros _; apply prefix_nil | discriminate].
      * intros [= <- _]. destruct key as [|a key]; [intros _; apply prefix_nil|]. cbn.
        destruct (Ascii.ascii_dec a c); [|exact id]. apply (IH key p r eq_refl).
Qed.

(** A part of a tag that starts with a key witnesses that the tag
    contains the key. *)
Lemma Split_part_Contains (sep : ascii) (key : string) (s : string) :
  ∀ part, In part (Split s sep) → HasPrefix part key = true → Contains s key = true.
Proof.
  induction s as [|c s IH]; intros part Hin Hp.
  - destruct Hin as [<-|[]]. rewrite Contains_unfold, Hp. reflexivity.
  - rewrite Contains_unfold.
    destruct (Split (String c s) sep) as [|piece rest] eqn:Es; [destruct Hin|].
    destruct Hin as [->|Hin].
    + unfold HasPrefix in *. rewrite (prefix_of_piece sep _ key part rest Es Hp).
      reflexivity.
    + apply orb_true_iff. right. apply (IH part); [|exact Hp].
      cbn [Split] in Es. destruct (Ascii.eqb c sep).
      * injection Es as _ <-. exact Hin.
      * destruct (Split s sep) as [|p r]; injection Es as _ <-;
          [destruct Hin | right; exact Hin].
Qed.

Section SchemaRules.
Context `{Fmt}.

(** What a rule leaves under its property: the last of its values,
    converted; what was there when it has none.  The guard on
    [strings.Contains] changes nothing: a tag that does not contain the
    key has no part that starts with it. *)
Lemma apply_rule_lookup {V : Type} (validateTag key : string)
    (parse : string → option V) (prop : string) (conv : V → any)
    (fs : gmap string any) :
  apply_rule validateTag key parse prop conv fs !! prop
  = match last (ruleValues parse key validateTag) with
    | Some v => Some (conv v)
    | None => fs !! prop
    end.
Proof.
  unfold apply_rule, ruleValues. destruct (Contains validateTag key) eqn:Ec.
  - generalize (Split validateTag comma). intros parts. revert fs.
    induction parts as [|part rest IH]; intros fs; [reflexivity|].
    cbn [fold_left omap list_omap]. rewrite IH.
    destruct (HasPrefix part key); [|reflexivity].
    destruct (parse (TrimPrefix part key)) as [v|]; [|reflexivity].
    rewrite last_cons. destruct (last _); [reflexivity|]. apply lookup_insert_eq.
  - assert (Hnone : ∀ part, In part (Split validateTag comma) →
                            HasPrefix part key = false).
    { intros part Hin. destruct (HasPrefix part key) eqn:Ep; [|reflexivity].
      rewrite (Split_part_Contains comma key validateTag part Hin Ep) in Ec.
      discriminate. }
    induction (Split validateTag comma) as [|part rest IH]; [reflexivity|].
    cbn [omap list_omap]. rewrite (Hnone part) by (left; reflexivity).
    apply IH. intros p Hp. apply Hnone. right. exact Hp.
Qed.

(** The node of a field that [decides] its name is the one the switch
    on its kind builds. *)
Lemma generateSchema_property (n : string) (fields : list StructField)
    (f : StructField) :
  decides fields f →
  ∃ properties,
    generateSchema (TStruct n fields) !! "properties"%string = Some (AMap properties)
    ∧ properties !! fieldName f = Some (AMap (fieldNode f)).
Proof.
  intros (Hs & pre & post & -> & Hlater).
  exists (fst (fieldsLoop (pre ++ f :: post) (∅, []))).
  rewrite generateSchema_struct, schemaAfterDeref_struct.
  split; [apply schemaOf_lookups|].
  rewrite fieldsLoop_app.
  change (fieldsLoop (f :: post) ?st)
    with (fieldsLoop post (fieldStep schemaAfterDeref f st)).
  rewrite fieldsLoop_other by exact Hlater.
  destruct (fieldsLoop pre (∅, [])) as [p r].
  rewrite (fieldStep_serialized f p r Hs). apply lookup_insert_eq.
Qed.

Lemma fieldsLoop_required (fields : list StructField) :
  ∀ st, snd (fieldsLoop fields st) = (snd st ++ requiredNames fields)%list.
Proof.
  unfold requiredNames.
  induction fields as [|f rest IH]; intros [p r]; [cbn; rewrite app_nil_r; reflexivity|].
  change (fieldsLoop (f :: rest) (p, r))
    with (fieldsLoop rest (fieldStep schemaAfterDeref f (p, r))).
  rewrite IH. cbn [List.filter]. unfold fieldStep, serialized, fieldName.
  destruct (String.eqb (field_json f) "" || String.eqb (field_json f) "-");
    cbn [negb andb snd]; [reflexivity|].
  destruct (Contains (field_validate f) "required"); cbn [snd List.map];
    [rewrite <- app_assoc|]; reflexivity.
Qed.

End SchemaRules.

Section SchemaProperties.
Context `{Fmt}.

Ltac node_lookup :=
  repeat first [ rewrite lookup_insert_eq
               | rewrite lookup_insert_ne by congruence
               | rewrite apply_rule_other by congruence
               | rewrite apply_rule_lookup
               | rewrite lookup_empty ].

(** X9: the [required] member of a struct's schema lists the
    serialized names of the fields whose [validate] tag contains the
    word required, in the order of declaration; fields without a
    serialized name are left out even when required, and the member is
    absent when the list is empty.  A pointer to the struct gives the
    same. *)
Theorem generateSchema_required (n : string) (fields : list StructField) :
  let expected := match requiredNames fields with
                  | [] => None
                  | names => Some (AStrings names)
                  end in
  generateSchema (TStruct n fields) !! "required"%string = expected
  ∧ generateSchema (TPtr (TStruct n fields)) !! "required"%string = expected.
Proof.
  cbv zeta.
  change (generateSchema (TPtr (TStruct n fields)))
    with (generateSchema (TStruct n fields)).
  rewrite generateSchema_struct, schemaAfterDeref_struct, fieldsLoop_required.
  cbn [snd app]. unfold schemaOf.
  destruct (requiredNames fields); split; node_lookup; reflexivity.
Qed.

(** X10: the node of a string field has the type string; [minLength]
    is the number of the last [min=] part of the [validate] tag that
    parses, [maxLength] that of the last [max=] part, and both are
    absent without such a part; [format] is email when the tag contains
    the word email anywhere; the node has no other member. *)
Theorem string_field_node (n : string) (fields : list StructField) (f : StructField) :
  decides fields f → TypeKind (field_Type f) = reflect.String →
  ∃ properties node,
    generateSchema (TStruct n fields) !! "properties"%string = Some (AMap properties)
    ∧ properties !! fieldName f = Some (AMap node)
    ∧ node !! "type"%string = Some (AString "string")
    ∧ node !! "minLength"%string
      = int_to_any <$> last (ruleValues parseInt "min=" (field_validate f))
    ∧ node !! "maxLength"%string
      = int_to_any <$> last (ruleValues parseInt "max=" (field_validate f))
    ∧ node !! "format"%string
      = (if Contains (field_validate f) "email" then Some (AString "email") else None)
    ∧ ∀ key, is_Some (node !! key) →
             In key ["type"; "minLength"; "maxLength"; "format"]%string.
Proof.
  intros Hd Hk. destruct (generateSchema_property n fields f Hd) as (properties & Hp & Hn).
  exists properties, (fieldNode f). split; [exact Hp|]. split; [exact Hn|].
  unfold fieldNode. rewrite Hk. cbn [scalarFieldSchema].
  repeat split.
  - destruct (Contains _ "email"); node_lookup; reflexivity.
  - destruct (Contains _ "email"); node_lookup;
      destruct (last _); reflexivity.
  - destruct (Contains _ "email"); node_lookup;
      destruct (last _); reflexivity.
  - destruct (Contains _ "email"); node_lookup; reflexivity.
  - intros key Hsome.
    destruct (decide (key = "type"%string)) as [->|?]; [simpl; auto|].
    destruct (decide (key = "minLength"%string)) as [->|?]; [simpl; auto|].
    destruct (decide (key = "maxLength"%string)) as [->|?]; [simpl; auto|].
    destruct (decide (key = "format"%string)) as [->|?]; [simpl; auto|].
    exfalso. revert Hsome.
    destruct (Contains _ "email"); node_lookup; intros [? [=]].
Qed.

(** X11: the node of an int, int32 or int64 field has the type integer;
    [minimum] is the number of the last [gte=] part of the [validate]
    tag that parses and [maximum] that of the last [lte=] part; the
    node has no other member, so [min=], [max=] and email are ignored
    on such a field. *)
Theorem integer_field_node (n : string) (fields : list StructField) (f : StructField) :
  decides fields f →
  In (TypeKind (field_Type f)) [reflect.Int; reflect.Int32; reflect.Int64] →
  ∃ properties node,
    generateSchema (TStruct n fields) !! "properties"%string = Some (AMap properties)
    ∧ properties !! fieldName f = Some (AMap node)
    ∧ node !! "type"%string = Some (AString "integer")
    ∧ node !! "minimum"%string
      = int_to_any <$> last (ruleValues parseInt "gte=" (field_validate f))
    ∧ node !! "maximum"%string
      = int_to_any <$> last (ruleValues parseInt "lte=" (field_validate f))
    ∧ ∀ key, is_Some (node !! key) → In key ["type"; "minimum"; "maximum"]%string.
Proof.
  intros Hd Hk. destruct (generateSchema_property n fields f Hd) as (properties & Hp & Hn).
  exists properties, (fieldNode f). split; [exact Hp|]. split; [exact Hn|].
  unfold fieldNode.
  destruct Hk as [<-|[<-|[<-|[]]]]; cbn [scalarFieldSchema]; repeat split;
    try (node_lookup; try destruct (last _); reflexivity);
    intros key Hsome;
    (destruct (decide (key = "type"%string)) as [->|?]; [simpl; auto|]);
    (destruct (decide (key = "minimum"%string)) as [->|?]; [simpl; auto|]);
    (destruct (decide (key = "maximum"%string)) as [->|?]; [simpl; auto|]);
    exfalso; revert Hsome; node_lookup; intros [? [=]].
Qed.

(** X12: the node of a float32 or float64 field has the type number and
    [minimum] is the number of the last [gte=] part that parses as a
    float; it has no other member: a float field never gets a
    [maximum], [lte=] is ignored on it. *)
Theorem float_field_node (n : string) (fields : list StructField) (f : StructField) :
  decides fields f →
  In (TypeKind (field_Type f)) [reflect.Float32; reflect.Float64] →
  ∃ properties node,
    generateSchema (TStruct n fields) !! "properties"%string = Some (AMap properties)
    ∧ properties !! fieldName f = Some (AMap node)
    ∧ node !! "type"%string = Some (AString "number")
    ∧ node !! "minimum"%string
      = AFloat64 <$> last (ruleValues parseFloat "gte=" (field_validate f))
    ∧ node !! "maximum"%string = None
    ∧ ∀ key, is_Some (node !! key) → In key ["type"; "minimum"]%string.
Proof.
  intros Hd Hk. destruct (generateSchema_property n fields f Hd) as (properties & Hp & Hn).
  exists properties, (fieldNode f). split; [exact Hp|]. split; [exact Hn|].
  unfold fieldNode.
  destruct Hk as [<-|[<-|[]]]; cbn [scalarFieldSchema]; repeat split;
    try (node_lookup; try destruct (last _); reflexivity);
    intros key Hsome;
    (destruct (decide (key = "type"%string)) as [->|?]; [simpl; auto|]);
    (destruct (decide (key = "minimum"%string)) as [->|?]; [simpl; auto|]);
    exfalso; revert Hsome; node_lookup; intros [? [=]].
Qed.

(** X13: a field of any other kind that is not a struct (a pointer, also
    a pointer to a struct, a bool, a slice, a map, an unsigned or a
    narrow integer) is listed under its name with the empty node: no
    type, no rule, and no schema of the struct it points to. *)
Theorem unhandled_field_node (n : string) (fields : list StructField) (f : StructField) :
  decides fields f →
  docType (TypeKind (field_Type f)) = None →
  TypeKind (field_Type f) ≠ reflect.Struct →
  ∃ properties,
    generateSchema (TStruct n fields) !! "properties"%string = Some (AMap properties)
    ∧ properties !! fieldName f = Some (AMap ∅).
Proof.
  intros Hd Hk Hs. destruct (generateSchema_property n fields f Hd) as (properties & Hp & Hn).
  exists properties. split; [exact Hp|]. rewrite Hn. unfold fieldNode.
  destruct (TypeKind (field_Type f)); try discriminate Hk; try reflexivity.
  congruence.
Qed.

End SchemaProperties.

(** The street of an address: between 1 and 200 characters, no format. *)
Lemma string_field_node_witness :
  decides [ mkField "Street" stringType "street" "required,min=1,max=200";
            mkField "City" stringType "city" "required,min=1,max=100" ]
          (mkField "Street" stringType "street" "required,min=1,max=200")
  ∧ ∃ properties node,
      @generateSchema intFmt AddressType !! "properties"%string = Some (AMap properties)
      ∧ properties !! "street"%string = Some (AMap node)
      ∧ node !! "minLength"%string = Some (@int_to_any intFmt 1)
      ∧ node !! "maxLength"%string = Some (@int_to_any intFmt 200)
      ∧ node !! "format"%string = None.
Proof.
  assert (Hd : decides [ mkField "Street" stringType "street" "required,min=1,max=200";
                         mkField "City" stringType "city" "required,min=1,max=100" ]
                       (mkField "Street" stringType "street" "required,min=1,max=200")).
  { split; [reflexivity|].
    exists [], [mkField "City" stringType "city" "required,min=1,max=100"].
    split; [reflexivity|]. intros g [<-|[]] _. discriminate. }
  split; [exact Hd|].
  destruct (@string_field_node intFmt "Address" _ _ Hd eq_refl)
    as (properties & node & Hp & Hn & _ & Hmin & Hmax & Hf & _).
  exists properties, node.
  split; [exact Hp|]. split; [exact Hn|]. split; [exact Hmin|].
  split; [exact Hmax | exact Hf].
Defined.

(** The age of a customer: an integer from 18 to 120. *)
Lemma integer_field_node_witness :
  decides [ mkField "Email" stringType "email" "required,email";
            mkField "Age" intType "age,omitempty" "gte=18,lte=120";
            mkField "Score" float64Type "score" "gte=0";
            mkField "Secret" stringType "-" "";
            mkField "internal" stringType "" "";
            mkField "Address" AddressType "address" "required" ]
          (mkField "Age" intType "age,omitempty" "gte=18,lte=120")
  ∧ ∃ properties node,
      @generateSchema intFmt CustomerType !! "properties"%string = Some (AMap properties)
      ∧ properties !! "age"%string = Some (AMap node)
      ∧ node !! "minimum"%string = Some (@int_to_any intFmt 18)
      ∧ node !! "maximum"%string = Some (@int_to_any intFmt 120).
Proof.
  assert (Hd : decides [ mkField "Email" stringType "email" "required,email";
                         mkField "Age" intType "age,omitempty" "gte=18,lte=120";
                         mkField "Score" float64Type "score" "gte=0";
                         mkField "Secret" stringType "-" "";
                         mkField "internal" stringType "" "";
                         mkField "Address" AddressType "address" "required" ]
                       (mkField "Age" intType "age,omitempty" "gte=18,lte=120")).
  { split; [reflexivity|].
    exists [mkField "Email" stringType "email" "required,email"],
           [ mkField "Score" float64Type "score" "gte=0";
             mkField "Secret" stringType "-" "";
             mkField "internal" stringType "" "";
             mkField "Address" AddressType "address" "required" ].
    split; [reflexivity|].
    intros g [<-|[<-|[<-|[<-|[]]]]] Hs; discriminate. }
  split; [exact Hd|].
  destruct (@integer_field_node intFmt "Customer" _ _ Hd (or_introl eq_refl))
    as (properties & node & Hp & Hn & _ & Hmin & Hmax & _).
  exists properties, node.
  split; [exact Hp|]. split; [exact Hn|]. split; [exact Hmin | exact Hmax].
Defined.

(** The score of a customer: a number from 0, without maximum. *)
Lemma float_field_node_witness :
  decides [ mkField "Email" stringType "email" "required,email";
            mkField "Age" intType "age,omitempty" "gte=18,lte=120";
            mkField "Score" float64Type "score" "gte=0";
            mkField "Secret" stringType "-" "";
            mkField "internal" stringType "" "";
            mkField "Address" AddressType "address" "required" ]
          (mkField "Score" float64Type "score" "gte=0")
  ∧ ∃ properties node,
      @generateSchema intFmt CustomerType !! "properties"%string = Some (AMap properties)
      ∧ properties !! "score"%string = Some (AMap node)
      ∧ node !! "minimum"%string = Some (@AFloat64 intFmt 0)
      ∧ node !! "maximum"%string = None.
Proof.
  assert (Hd : decides [ mkField "Email" stringType "email" "required,email";
                         mkField "Age" intType "age,omitempty" "gte=18,lte=120";
                         mkField "Score" float64Type "score" "gte=0";
                         mkField "Secret" stringType "-" "";
                         mkField "internal" stringType "" "";
                         mkField "Address" AddressType "address" "required" ]
                       (mkField "Score" float64Type "score" "gte=0")).
  { split; [reflexivity|].
    exists [ mkField "Email" stringType "email" "required,email";
             mkField "Age" intType "age,omitempty" "gte=18,lte=120" ],
           [ mkField "Secret" stringType "-" "";
             mkField "internal" stringType "" "";
             mkField "Address" AddressType "address" "required" ].
    split; [reflexivity|].
    intros g [<-|[<-|[<-|[]]]] Hs; discriminate. }
  split; [exact Hd|].
  destruct (@float_field_node intFmt "Customer" _ _ Hd (or_intror (or_introl eq_refl)))
    as (properties & node & Hp & Hn & _ & Hmin & Hmax & _).
  exists properties, node.
  split; [exact Hp|]. split; [exact Hn|]. split; [exact Hmin | exact Hmax].
Defined.

(** The customer an order points to is documented by the empty node,
    not by the schema of a customer. *)
Lemma unhandled_field_node_witness :
  decides [ mkField "ID" stringType "id" "required";
            mkField "Customer" (TPtr CustomerType) "customer" "required";
            mkField "Count" (TScalar reflect.Uint "uint") "count" "gte=1";
            mkField "Lines" (TScalar reflect.Slice "[]string") "lines" "" ]
          (mkField "Customer" (TPtr CustomerType) "customer" "required")
  ∧ ∃ properties,
      @generateSchema intFmt OrderType !! "properties"%string = Some (AMap properties)
      ∧ properties !! "customer"%string = Some (AMap ∅).
Proof.
  assert (Hd : decides [ mkField "ID" stringType "id" "required";
                         mkField "Customer" (TPtr CustomerType) "customer" "required";
                         mkField "Count" (TScalar reflect.Uint "uint") "count" "gte=1";
                         mkField "Lines" (TScalar reflect.Slice "[]string") "lines" "" ]
                       (mkField "Customer" (TPtr CustomerType) "customer" "required")).
  { split; [reflexivity|].
    exists [ mkField "ID" stringType "id" "required" ],
           [ mkField "Count" (TScalar reflect.Uint "uint") "count" "gte=1";
             mkField "Lines" (TScalar reflect.Slice "[]string") "lines" "" ].
    split; [reflexivity|].
    intros g [<-|[<-|[]]] Hs; discriminate. }
  split; [exact Hd|].
  exact (@unhandled_field_node intFmt "Order" _ _ Hd eq_refl ltac:(discriminate)).
Defined.

(* ===================================================================== *)
(** ** Introspection: when it succeeds *)
(* ===================================================================== *)

Lemma GoType_eqb_methodInfoSlice (t : GoType) :
  GoType_eqb t methodInfoSliceType = true ↔ t = methodInfoSliceType.
Proof.
  split; [|intros ->; reflexivity].
  destruct t as [k name|e|n fs]; cbn; try discriminate.
  intros [Hk Hn]%andb_prop. apply String.eqb_eq in Hn. subst name.
  destruct k; try discriminate Hk. reflexivity.
Qed.

(** X14: introspection succeeds exactly when the service has a
    [RegisterMethods] of the expected signature whose list is not empty
    and every entry of which is accepted: name and verb not empty, and
    a method of that name with one input and the outputs (value,
    error).  It then returns that list as it is.  Nothing else is
    checked: not that the verb is one of the seven, not that the types
    of the entry are those of the method, not that [Func] is set. *)
Theorem getServiceInfo_succeeds_iff (svc : ServiceValue) (methods : list MethodInfo) :
  getServiceInfo (Some svc) = inr methods
  ↔ registerMethodsOK svc
    ∧ methods = RegisterMethods svc
    ∧ methods ≠ []
    ∧ Forall (accepted svc) methods.
Proof.
  split.
  - intros Hinfo.
    destruct (getServiceInfo_inr _ _ Hinfo) as (svc' & [= <-] & Hdecl & Hcheck & Hne).
    split; [|split; [exact Hdecl|split; [exact Hne|]]].
    + unfold getServiceInfo in Hinfo.
      destruct (MethodByName (MethodSet svc) "RegisterMethods") as [rm|] eqn:Erm;
        [|discriminate Hinfo].
      exists rm. split; [exact Erm|].
      destruct (Nat.eqb_spec (length (meth_In rm)) 1) as [Hin|]; [|discriminate Hinfo].
      destruct (Nat.eqb_spec (length (meth_Out rm)) 1) as [Hout|]; [|discriminate Hinfo].
      cbn [negb orb] in Hinfo. split; [exact Hin|].
      destruct (meth_Out rm) as [|t [|? ?]]; try discriminate Hout.
      cbn [nth_error] in Hinfo.
      destruct (GoType_eqb t methodInfoSliceType) eqn:Et; [|discriminate Hinfo].
      apply GoType_eqb_methodInfoSlice in Et. congruence.
    + apply checkMethods_accepted. exact Hcheck.
  - intros ((rm & Hrm & Hin & Hout) & -> & Hne & Hall).
    unfold getServiceInfo. rewrite Hrm, Hin, Hout.
    cbn [length Nat.eqb negb orb nth_error].
    change (GoType_eqb methodInfoSliceType methodInfoSliceType) with true.
    cbn [negb]. cbv iota.
    rewrite (proj2 (checkMethods_accepted svc _) Hall).
    destruct (RegisterMethods svc); [congruence | reflexivity].
Qed.

(* ===================================================================== *)
(** ** Registration: what a registration keeps and what it documents *)
(* ===================================================================== *)

Section RegistrationProperties.
Context `{Fmt}.

Lemma swaggerStep_Ok (prefix : string) (paths paths' : gmap string any)
    (m : MethodInfo) :
  swaggerStep prefix paths m = Ok paths' →
  (validVerb m = false ∧ paths' = paths)
  ∨ (validVerb m = true
     ∧ ∃ item op,
         (paths !! swaggerPath prefix m = Some (AMap item)
          ∨ paths !! swaggerPath prefix m = None ∧ item = ∅)
         ∧ operationOf m = Ok op
         ∧ paths' = <[swaggerPath prefix m :=
                        AMap (<[ToLower (HTTPMethod m) := AMap op]> item)]> paths).
Proof.
  unfold swaggerStep, validVerb.
  destruct (isValidHTTPMethod (HTTPMethod m)); cbn [negb]; cbv iota;
    [|intros [= <-]; left; auto].
  intros Hstep. right. split; [reflexivity|].
  destruct (paths !! swaggerPath prefix m) as [[| | | | |item]|]; cbn in Hstep;
    try discriminate Hstep;
    (destruct (operationOf m) as [op|]; cbn in Hstep; [|discriminate Hstep]);
    injection Hstep as <-.
  - exists item, op. auto.
  - exists ∅, op. auto.
Qed.

(** The loop never removes a member of a path item, and leaves its
    value alone unless a descriptor is documented in that very slot. *)
Lemma swaggerLoop_keeps (prefix : string) (info : list MethodInfo) :
  ∀ paths paths', swaggerLoop prefix paths info = Ok paths' →
  ∀ key item k v, paths !! key = Some (AMap item) → item !! k = Some v →
    ∃ item', paths' !! key = Some (AMap item')
             ∧ is_Some (item' !! k)
             ∧ ((∀ g, In g info → validVerb g = true → swaggerPath prefix g = key →
                      ToLower (HTTPMethod g) ≠ k) →
                item' !! k = Some v).
Proof.
  induction info as [|m rest IH]; intros paths paths'; cbn [swaggerLoop].
  - intros [= <-] key item k v Hl Hk. exists item. eauto.
  - destruct (swaggerStep prefix paths m) as [paths1|] eqn:Es; cbn; [|discriminate].
    intros Hloop key item k v Hl Hk.
    destruct (swaggerStep_Ok _ _ _ _ Es) as [[Hv ->]|(Hv & it & op & Hit & Hop & ->)].
    + destruct (IH _ _ Hloop key item k v Hl Hk) as (item' & Hl' & Hs & Hkeep).
      exists item'. split; [exact Hl'|]. split; [exact Hs|].
      intros Hfree. apply Hkeep. intros g Hg. apply Hfree. right. exact Hg.
    + destruct (decide (swaggerPath prefix m = key)) as [Hkey|Hkey].
      * assert (it = item) as -> by (destruct Hit as [Hi|[Hi _]]; congruence).
        destruct (decide (ToLower (HTTPMethod m) = k)) as [Hslot|Hslot].
        -- destruct (IH _ _ Hloop key (<[ToLower (HTTPMethod m) := AMap op]> item)
                       k (AMap op)) as (item' & Hl' & Hs & _).
           { rewrite Hkey. apply lookup_insert_eq. }
           { rewrite Hslot. apply lookup_insert_eq. }
           exists item'. split; [exact Hl'|]. split; [exact Hs|].
           intros Hfree. exfalso.
           exact (Hfree m (or_introl eq_refl) Hv Hkey Hslot).
        -- destruct (IH _ _ Hloop key (<[ToLower (HTTPMethod m) := AMap op]> item)
                       k v) as (item' & Hl' & Hs & Hkeep).
           { rewrite Hkey. apply lookup_insert_eq. }
           { rewrite lookup_insert_ne by exact Hslot. exact Hk. }
           exists item'. split; [exact Hl'|]. split; [exact Hs|].
           intros Hfree. apply Hkeep. intros g Hg. apply Hfree. right. exact Hg.
      * destruct (IH _ _ Hloop key item k v) as (item' & Hl' & Hs & Hkeep).
        { rewrite lookup_insert_ne by exact Hkey. exact Hl. }
        { exact Hk. }
        exists item'. split; [exact Hl'|]. split; [exact Hs|].
        intros Hfree. apply Hkeep. intros g Hg. apply Hfree. right. exact Hg.
Qed.



End RegistrationProperties.

Section RegistrationOutcomes.
Context `{Fmt} `{Router}.





(** X17: a registration that returns never takes anything away from a
    server whose document is well-formed: the routes bound before are
    still there, in front of the new ones; the document stays
    well-formed and keeps its [openapi] and [info]; and every operation
    that was documented under a path and a verb still has one there. *)
Theorem RegisterService_append_only (s : Server) (service : Service)
    (opts : list ServiceOption) :
  docOK s →
  match RegisterService s service opts with
  | Ok (s', _) =>
      docOK s'
      ∧ (∃ added, engine s' = (engine s ++ added)%list)
      ∧ swagger s' !! "openapi"%string = swagger s !! "openapi"%string
      ∧ swagger s' !! "info"%string = swagger s !! "info"%string
      ∧ (∀ paths key item k,
           swagger s !! "paths"%string = Some (AMap paths) →
           paths !! key = Some (AMap item) → is_Some (item !! k) →
           ∃ paths' item',
             swagger s' !! "paths"%string = Some (AMap paths')
             ∧ paths' !! key = Some (AMap item')
             ∧ is_Some (item' !! k))
  | Panic _ => True
  end.
Proof.
  intros Hdoc.
  destruct (RegisterService s service opts) as [[s' e]|why] eqn:Hreg; [|exact I].
  split; [exact (RegisterService_docOK s s' service opts e Hdoc Hreg)|].
  unfold RegisterService in Hreg.
  destruct (getServiceInfo service) as [cause|info] eqn:Hinfo.
  - injection Hreg as <- _. split; [exists []; symmetry; apply app_nil_r|].
    split; [reflexivity|]. split; [reflexivity|]. eauto.
  - destruct (registerMethods_engine _ _ _ _ _ Hreg) as [Heng _]. cbn [fst] in Heng.
    split; [eauto|].
    unfold registerMethods in Hreg.
    destruct (bindRoutes _ (engine s) info) as [routes|]; cbn [mbind Res_bind] in Hreg;
      [|discriminate Hreg].
    destruct (Nat.ltb 0 (length info)).
    + unfold updateSwaggerDoc in Hreg. cbn [swagger engine] in Hreg.
      destruct Hdoc as ([o Ho] & [i Hi] & paths & Hpaths & Hok).
      rewrite Ho, Hi, Hinfo, Hpaths in Hreg. cbn in Hreg.
      destruct (swaggerLoop _ paths info) as [paths'|] eqn:Hloop; cbn in Hreg;
        [|discriminate Hreg].
      injection Hreg as <- _. cbn [swagger].
      split; [apply lookup_insert_ne; discriminate|].
      split; [apply lookup_insert_ne; discriminate|].
      intros paths0 key item k Hp0 Hl [v Hk].
      assert (paths0 = paths) as -> by congruence.
      destruct (swaggerLoop_keeps _ _ _ _ Hloop key item k v Hl Hk)
        as (item' & Hl' & Hs & _).
      exists paths', item'. split; [apply lookup_insert_eq | auto].
    + cbn in Hreg. injection Hreg as <- _. cbn [swagger].
      split; [reflexivity|]. split; [reflexivity|]. eauto.
Qed.

End RegistrationOutcomes.


(** The routes of a new server stay in front when [TestService] is
    registered. *)
Lemma RegisterService_append_only_witness :
  docOK (@NewServer intFmt)
  ∧ match @RegisterService intFmt exactRouter NewServer (Some TestService)
            [WithPathPrefix "/v1"] with
    | Ok (s', _) => ∃ added, engine s' = (engine (@NewServer intFmt) ++ added)%list
    | Panic _ => True
    end.
Proof.
  split; [exact docOK_NewServer|].
  pose proof (@RegisterService_append_only intFmt exactRouter (@NewServer intFmt)
                (Some TestService) [WithPathPrefix "/v1"] docOK_NewServer) as Hkeep.
  destruct (@RegisterService intFmt exactRouter NewServer (Some TestService)
              [WithPathPrefix "/v1"])
    as [[s' e]|why]; [|exact I].
  exact (proj1 (proj2 Hkeep)).
Defined.

(* ===================================================================== *)
(** ** The dispatcher: struct inputs, and verbs not in upper case *)
(* ===================================================================== *)

(** X18: a capability whose input is not of string kind, bound to a
    function of that input type, is dispatched without panic, whatever
    the request: a request that does not bind (from the query on GET,
    from the body otherwise) is answered 400 with the binding error; one
    that binds and fails validation is answered 400 with validation
    failed and the validator's message; in both cases the function is
    not called.  Otherwise the function is called with the decoded
    value itself, not the pointer to it, and its result decides between
    200 and 500. *)
Theorem struct_input_dispatch `{Gin} (m : MethodInfo) (c : Request) (inT : GoType)
    (f : Callable) :
  InputType m = Some inT → TypeKind inT ≠ reflect.String →
  Func m = BoundFunc f → fn_In f = inT →
  let bound := if String.eqb (HTTPMethod m) "GET" then ShouldBindQuery c inT
               else ShouldBindJSON c inT in
  (∀ v, bound = inr v → TypeOf v = inT) →
  handleMethod m c
  = Ok match bound with
       | inl e => errorJSON StatusBadRequest e
       | inr v =>
           match validate_Struct (VPtr v) with
           | Some e => errorJSON StatusBadRequest ("validation failed: " ++ e)
           | None => respond (fn_Call f v)
           end
       end.
Proof.
  intros Ht Hk Hf Hin bound Htyped. subst bound. unfold handleMethod, decodeInput.
  rewrite Ht. cbn [mbind Res_bind].
  assert (Hbody : ∀ b : string + Value,
            (∀ v, b = inr v → TypeOf v = inT) →
            match
              match b with
              | inl e => inl (errorJSON StatusBadRequest e)
              | inr v =>
                  match validate_Struct (VPtr v) with
                  | Some e => inl (errorJSON StatusBadRequest ("validation failed: " ++ e))
                  | None => inr (VPtr v)
                  end
              end
            with
            | inl response => Ok response
            | inr inputVal =>
                results ← Value_Call (Func m) (callInputOf inT inputVal);
                Ok (respond results)
            end
            = Ok match b with
                 | inl e => errorJSON StatusBadRequest e
                 | inr v =>
                     match validate_Struct (VPtr v) with
                     | Some e => errorJSON StatusBadRequest ("validation failed: " ++ e)
                     | None => respond (fn_Call f v)
                     end
                 end).
  { intros [e|v] Hty; [reflexivity|]. destruct (validate_Struct (VPtr v)); [reflexivity|].
    assert (Hcall : callInputOf inT (VPtr v) = v).
    { unfold callInputOf. destruct (TypeKind inT); try reflexivity. congruence. }
    rewrite Hcall, Hf. cbn [Value_Call]. rewrite (Hty v eq_refl), Hin.
    assert (Hrefl : ∀ t, GoType_eqb t t = true).
    { fix IH 1. intros [k name|e|n fs]; cbn.
      - rewrite String.eqb_refl. destruct k; reflexivity.
      - apply IH.
      - rewrite String.eqb_refl. cbn. induction fs as [|[fn ft fj fv] rest IHfs];
          [reflexivity|]. rewrite !String.eqb_refl, IH, IHfs. reflexivity. }
    rewrite Hrefl. reflexivity. }
  destruct (TypeKind inT) eqn:Ek; try (apply Hbody; exact Htyped). congruence.
Qed.

(** [Create] of [TestService] on a body with a name and an email: 200
    with the callable's answer; on a body without a name: 400. *)
Lemma struct_input_dispatch_witness :
  (∀ v, @ShouldBindJSON testGin (bodyRequest (userBody "Ann" "ann@example.com")) UserType
        = inr v → TypeOf v = UserType)
  ∧ @handleMethod testGin CreateInfo (bodyRequest (userBody "Ann" "ann@example.com"))
    = Ok {| Status := 200; Body := JSON_Value (VString "Created user Ann") |}.
Proof.
  assert (Htyped : ∀ v,
            @ShouldBindJSON testGin (bodyRequest (userBody "Ann" "ann@example.com"))
              UserType = inr v → TypeOf v = UserType).
  { intros v Hv. vm_compute in Hv. injection Hv as <-. reflexivity. }
  split; [exact Htyped|].
  rewrite (@struct_input_dispatch testGin CreateInfo
             (bodyRequest (userBody "Ann" "ann@example.com")) UserType Create
             eq_refl ltac:(discriminate) eq_refl eq_refl Htyped).
  vm_compute. reflexivity.
Defined.



(* ===================================================================== *)
(** ** Routes and documented paths *)
(* ===================================================================== *)

Lemma Split_nonempty (s : string) (sep : ascii) : Split s sep ≠ [].
Proof.
  destruct s as [|c s]; cbn [Split]; [discriminate|].
  destruct (Ascii.eqb c sep); [discriminate|].
  destruct (Split s sep); discriminate.
Qed.

Lemma Split_app_sep (sep : ascii) (a b : string) :
  Split (a ++ String sep b) sep = (Split a sep ++ Split b sep)%list.
Proof.
  induction a as [|c a IH].
  - change (Split (String sep b) sep = ""%string :: Split b sep).
    cbn [Split]. rewrite Ascii.eqb_refl. reflexivity.
  - change (String c a ++ String sep b)%string with (String c (a ++ String sep b)).
    cbn [Split]. rewrite IH. destruct (Ascii.eqb c sep); [reflexivity|].
    destruct (Split a sep) as [|piece rest] eqn:Es; [|reflexivity].
    exfalso. exact (Split_nonempty a sep Es).
Qed.

Lemma Split_noSlash (e : string) :
  forallb (fun c => negb (Ascii.eqb c "/"%char)) (list_ascii_of_string e) = true →
  Split e "/"%char = [e].
Proof.
  induction e as [|c e IH]; [reflexivity|]. cbn [list_ascii_of_string forallb Split].
  intros [Hc He]%andb_prop. apply negb_true_iff in Hc. rewrite Hc, (IH He). reflexivity.
Qed.

Lemma cleanElement_spec (e : string) :
  cleanElement e = true →
  e ≠ ""%string ∧ String.eqb e "" = false ∧ String.eqb e "." = false
  ∧ String.eqb e ".." = false
  ∧ forallb (fun c => negb (Ascii.eqb c "/"%char)) (list_ascii_of_string e) = true.
Proof.
  unfold cleanElement. intros H.
  apply andb_prop in H as [H Hs]. apply andb_prop in H as [H Hdd].
  apply andb_prop in H as [He Hd]. apply negb_true_iff in He, Hd, Hdd.
  repeat split; try assumption. intros ->. discriminate He.
Qed.

Lemma Split_joinElements (elems : list string) :
  elems ≠ [] → Forall (fun e => cleanElement e = true) elems →
  Split (path.joinElements elems) "/"%char = elems.
Proof.
  induction elems as [|e rest IH]; [congruence|]. intros _ Hall.
  inversion Hall as [|? ? He Hrest]; subst.
  destruct (cleanElement_spec e He) as (_ & _ & _ & _ & Hs).
  destruct rest as [|e' rest]; [exact (Split_noSlash e Hs)|].
  change (path.joinElements (e :: e' :: rest))
    with (e ++ String "/" (path.joinElements (e' :: rest)))%string.
  rewrite Split_app_sep, (Split_noSlash e Hs), IH by (congruence || assumption).
  reflexivity.
Qed.

Lemma append_assoc (a b c : string) : ((a ++ b) ++ c = a ++ (b ++ c))%string.
Proof.
  induction a as [|x a IH]; [reflexivity|].
  change (String x ((a ++ b) ++ c) = String x (a ++ (b ++ c)))%string.
  rewrite IH. reflexivity.
Qed.

Lemma joinElements_snoc (elems : list string) (e : string) :
  elems ≠ [] →
  path.joinElements (elems ++ [e]) = (path.joinElements elems ++ "/" ++ e)%string.
Proof.
  induction elems as [|x rest IH]; [congruence|]. intros _.
  destruct rest as [|y rest]; [reflexivity|].
  change (path.joinElements ((x :: y :: rest) ++ [e]))
    with (x ++ "/" ++ path.joinElements ((y :: rest) ++ [e]))%string.
  rewrite IH by congruence.
  change (path.joinElements (x :: y :: rest))
    with (x ++ "/" ++ path.joinElements (y :: rest))%string.
  rewrite !append_assoc. reflexivity.
Qed.

(** [path.Clean] keeps clean elements, in their order. *)
Lemma fold_cleanStep_clean (rooted : bool) (elems : list string) :
  Forall (fun e => cleanElement e = true) elems →
  ∀ kept, fold_left (path.cleanStep rooted) elems kept = (rev elems ++ kept)%list.
Proof.
  induction 1 as [|e rest He _ IH]; intros kept; [reflexivity|].
  cbn [fold_left rev]. rewrite IH, <- app_assoc. cbn [app].
  destruct (cleanElement_spec e He) as (_ & He1 & He2 & He3 & _).
  unfold path.cleanStep. rewrite He1, He2, He3. reflexivity.
Qed.

Lemma list_ascii_of_string_app (a b : string) :
  list_ascii_of_string (a ++ b)
  = (list_ascii_of_string a ++ list_ascii_of_string b)%list.
Proof.
  induction a as [|c a IH]; [reflexivity|].
  change (c :: list_ascii_of_string (a ++ b)
          = c :: (list_ascii_of_string a ++ list_ascii_of_string b))%list.
  rewrite IH. reflexivity.
Qed.

(** A clean element ends in a character that is not the slash, and so
    does every string that ends in it. *)
Lemma lastChar_clean (a e : string) :
  cleanElement e = true →
  bool_decide (lastChar (a ++ e) = Some "/"%char) = false.
Proof.
  intros He. destruct (cleanElement_spec e He) as (Hne & _ & _ & _ & Hs).
  apply bool_decide_eq_false. unfold lastChar.
  rewrite list_ascii_of_string_app, last_app.
  destruct (last (list_ascii_of_string e)) as [c|] eqn:El.
  - intros [= ->]. apply last_Some_elem_of, list_elem_of_In in El.
    rewrite forallb_forall in Hs. specialize (Hs _ El). discriminate Hs.
  - exfalso. apply last_None in El. destruct e; [congruence | discriminate El].
Qed.

(** [path.Clean] of a path that starts with three slashes and goes on
    with clean elements. *)
Lemma Clean_rooted (elems skipped : list string) (s : string) :
  Forall (fun e => cleanElement e = true) elems →
  skipped = [] ∨ skipped = [""%string] →
  Split s "/"%char = (skipped ++ elems)%list →
  path.Clean (String "/" (String "/" (String "/" s)))
  = ("/" ++ path.joinElements elems)%string.
Proof.
  intros Hall Hskipped Hsplit. unfold path.Clean.
  change (HasPrefix (String "/" (String "/" (String "/" s))) "/")
    with (String.prefix "" (String "/" (String "/" s))).
  rewrite prefix_nil.
  change (Split (String "/" (String "/" (String "/" s))) "/"%char)
    with (""%string :: ""%string :: ""%string :: Split s "/"%char).
  rewrite Hsplit.
  assert (Hkept : fold_left (path.cleanStep true)
                    (""%string :: ""%string :: ""%string :: skipped ++ elems) []
                  = rev elems).
  { change (fold_left (path.cleanStep true)
              (""%string :: ""%string :: ""%string :: skipped ++ elems) [])
      with (fold_left (path.cleanStep true) (skipped ++ elems) []).
    rewrite fold_left_app.
    assert (Hskip : fold_left (path.cleanStep true) skipped [] = []).
    { destruct Hskipped as [->| ->]; reflexivity. }
    rewrite Hskip, (fold_cleanStep_clean true _ Hall), app_nil_r. reflexivity. }
  rewrite Hkept, rev_involutive. reflexivity.
Qed.

(** The path gin binds for the prefix made of the elements [segs] and a
    clean name. *)
Lemma joinPaths_clean (segs : list string) (name : string) :
  Forall (fun e => cleanElement e = true) segs → cleanElement name = true →
  joinPaths "/" (("/" ++ path.joinElements segs) ++ "/" ++ name)
  = ("/" ++ path.joinElements (segs ++ [name]))%string.
Proof.
  intros Hsegs Hname.
  assert (Hall : Forall (fun e => cleanElement e = true) (segs ++ [name])).
  { apply Forall_app. split; [exact Hsegs | repeat constructor; exact Hname]. }
  assert (Hsplit : ∃ skipped,
            Split (path.joinElements segs ++ String "/" name) "/"%char
            = (skipped ++ segs ++ [name])%list
            ∧ (skipped = [] ∨ skipped = [""%string])).
  { rewrite Split_app_sep.
    destruct (cleanElement_spec name Hname) as (_ & _ & _ & _ & Hs).
    rewrite (Split_noSlash name Hs).
    destruct segs as [|e rest].
    - exists [""%string]. split; [reflexivity | auto].
    - exists []. rewrite Split_joinElements by (congruence || assumption).
      split; [reflexivity | auto]. }
  destruct Hsplit as (skipped & Hsplit & Hskipped).
  assert (Hlast : bool_decide
                    (lastChar ((("/" ++ path.joinElements segs) ++ "/") ++ name)
                     = Some "/"%char) = false)
    by (apply lastChar_clean; exact Hname).
  rewrite append_assoc in Hlast.
  unfold joinPaths. rewrite Hlast.
  change (String.eqb (("/" ++ path.joinElements segs) ++ "/" ++ name) "") with false.
  cbn [andb]. cbv iota. unfold path.Join.
  change (String.eqb "/" "") with false. cbn [andb]. cbv iota.
  change ("/" ++ "/" ++ ("/" ++ path.joinElements segs) ++ "/" ++ name)%string
    with (String "/" (String "/" (String "/"
            (path.joinElements segs ++ String "/" name)))).
  apply (Clean_rooted (segs ++ [name]) skipped); assumption.
Qed.

(** X20: for a prefix made of a slash and clean path elements joined
    by slashes, and a clean name, the route is bound under the prefix, a
    slash and the name, and that is the path the capability is
    documented under.  Without any option the prefix is the slash
    alone: the route is then bound under the name after one slash,
    because the router joins and cleans the path, but the capability is
    documented under the name after two slashes; the documented path is
    not the one served. *)
Theorem documented_path_and_bound_path `{Fmt} (segs : list string) (m : MethodInfo) :
  Forall (fun e => cleanElement e = true) segs → cleanElement (Name m) = true →
  let cfg := {| prefix := "/" ++ path.joinElements segs |} in
  route_path (routeFor cfg m) = ("/" ++ path.joinElements (segs ++ [Name m]))%string
  ∧ (segs ≠ [] →
     route_path (routeFor cfg m) = (prefix cfg ++ "/" ++ Name m)%string
     ∧ swaggerPath (prefix cfg) m = route_path (routeFor cfg m))
  ∧ (segs = [] →
     prefix cfg = prefix (fold_left (fun cfg opt => opt cfg) [] {| prefix := "/" |})
     ∧ route_path (routeFor cfg m) = ("/" ++ Name m)%string
     ∧ swaggerPath (prefix cfg) m = ("//" ++ Name m)%string
     ∧ swaggerPath (prefix cfg) m ≠ route_path (routeFor cfg m)).
Proof.
  intros Hsegs Hname cfg.
  assert (Hbound : route_path (routeFor cfg m)
                   = ("/" ++ path.joinElements (segs ++ [Name m]))%string)
    by (apply joinPaths_clean; assumption).
  assert (Hdoc : swaggerPath (prefix cfg) m
                 = (("/" ++ path.joinElements segs) ++ "/" ++ Name m)%string).
  { unfold swaggerPath. cbn [prefix cfg].
    change (HasPrefix (("/" ++ path.joinElements segs) ++ "/" ++ Name m) "/")
      with (String.prefix "/" (String "/" (path.joinElements segs ++ "/" ++ Name m))).
    cbn [String.prefix]. destruct (Ascii.ascii_dec "/" "/"); [|congruence].
    rewrite prefix_nil. reflexivity. }
  split; [exact Hbound|]. split.
  - intros Hne. rewrite Hdoc, Hbound, joinElements_snoc by exact Hne.
    cbn [prefix cfg]. split; reflexivity.
  - intros ->. rewrite Hdoc, Hbound.
    split; [reflexivity|]. split; [reflexivity|]. split; [reflexivity|].
    intros Heq.
    change (String "/" (String "/" (Name m)) = String "/" (Name m)) in Heq.
    injection Heq as Heq.
    destruct (cleanElement_spec _ Hname) as (_ & _ & _ & _ & Hs).
    rewrite <- Heq in Hs. discriminate Hs.
Qed.

(** [TestService] registered without any option: [Hello] is served
    under /Hello and documented under //Hello; under the prefix "/v1"
    the path served and the path documented are both /v1/Hello. *)
Lemma documented_path_and_bound_path_witness :
  cleanElement (Name HelloInfo) = true
  ∧ Forall (fun e => cleanElement e = true) ["v1"%string]
  ∧ route_path (routeFor {| prefix := "/v1" |} HelloInfo) = "/v1/Hello"%string
  ∧ @swaggerPath "/v1" HelloInfo = "/v1/Hello"%string
  ∧ route_path (routeFor {| prefix := "/" |} HelloInfo) = "/Hello"%string
  ∧ @swaggerPath "/" HelloInfo = "//Hello"%string
  ∧ ∃ s' paths',
      @RegisterService intFmt exactRouter NewServer (Some TestService) []
      = Ok (s', None)
      ∧ In {| route_method := "GET"; route_path := "/Hello";
              route_handler := methodHandler HelloInfo |} (engine s')
      ∧ swagger s' !! "paths"%string = Some (AMap paths')
      ∧ is_Some (paths' !! "//Hello"%string)
      ∧ paths' !! "/Hello"%string = None.
Proof.
  assert (Hv1 : Forall (fun e => cleanElement e = true) ["v1"%string])
    by (repeat constructor).
  destruct (@documented_path_and_bound_path intFmt ["v1"%string] HelloInfo Hv1 eq_refl)
    as (Hjoined & Hprefixed & _).
  destruct (Hprefixed ltac:(discriminate)) as [_ Hsame].
  destruct (@documented_path_and_bound_path intFmt [] HelloInfo
              ltac:(constructor) eq_refl) as (_ & _ & Hdefault).
  destruct (Hdefault eq_refl) as (_ & Hroute & Hdoc & _).
  split; [reflexivity|]. split; [exact Hv1|]. split; [exact Hjoined|].
  split; [exact (eq_trans Hsame Hjoined)|].
  split; [exact Hroute|]. split; [exact Hdoc|].
  do 2 eexists. split; [reflexivity|].
  split; [right; right; right; left; reflexivity|].
  split; [reflexivity|]. split; [eexists; reflexivity | reflexivity].
Defined.
